(** * wget2go: chunked downloader, robots policy, link extractor, URL queue

    A shallow embedding of the parts of wget2go that its specification makes
    claims about, with the claims settled as theorems.

    Conventions.
    - Go's [int64] is a [Z] with the wrap-around written out ([Int64.wrap]).
      Go's [int] is 32 or 64 bits wide, by the platform the tool is built
      for ([GoArch]: the releases cover 386 and arm next to amd64 and
      arm64); where its width decides what the code does, the wrap-around is
      [Int.wrap].
    - Go's [float64] is an IEEE 754 binary64 value, [spec_float] with
      precision 53 and maximal exponent 1024.
    - Go strings are byte strings: [string] (a list of [ascii] bytes).
    - Go maps keyed by strings are [gmap string _]; a file system is a map
      from paths to contents.
    - Calls into Go's standard library that are only modelled on a fragment of
      their inputs return an [outcome] that says so ([Beyond]).

    Part I holds the definitions, Part II the theorems. *)

From Stdlib Require Import ZArith Lia Ascii String List Bool Floats.SpecFloat.
From stdpp Require Import base option list list_numbers strings pretty gmap.

Local Open Scope Z_scope.

(** * Part I: definitions *)

(** ** Machine integers *)

Module Int64.

Definition min_int : Z := - 2 ^ 63.
Definition max_int : Z := 2 ^ 63 - 1.

Definition in_range (z : Z) : Prop := min_int <= z <= max_int.

(** Two's complement wrap-around of a mathematical integer. *)
Definition wrap (z : Z) : Z := (z + 2 ^ 63) mod 2 ^ 64 - 2 ^ 63.

Definition add (a b : Z) : Z := wrap (a + b).
Definition sub (a b : Z) : Z := wrap (a - b).
Definition mul (a b : Z) : Z := wrap (a * b).

(** Go's [/] and [%] truncate toward zero; the divisor is checked by the
    caller (a zero divisor panics). *)
Definition quot (a b : Z) : Z := wrap (Z.quot a b).
Definition rem (a b : Z) : Z := wrap (Z.rem a b).

End Int64.

(** The width of Go's [int] and [uint]: 32 bits on 386 and arm, 64 bits on
    amd64 and arm64. *)
Inductive WordSize : Type :=
| Bits32
| Bits64.

Class GoArch : Type := { int_size : WordSize }.

Module Int.

Definition bits `{GoArch} : Z :=
  match int_size with
  | Bits32 => 32
  | Bits64 => 64
  end.

Definition min_int `{GoArch} : Z := - 2 ^ (bits - 1).
Definition max_int `{GoArch} : Z := 2 ^ (bits - 1) - 1.

(** Two's complement wrap-around to the width of [int]; it is what the
    conversion [int(x)] of an [int64] does. *)
Definition wrap `{GoArch} (z : Z) : Z := (z + 2 ^ (bits - 1)) mod 2 ^ bits - 2 ^ (bits - 1).

Definition add `{GoArch} (a b : Z) : Z := wrap (a + b).
Definition sub `{GoArch} (a b : Z) : Z := wrap (a - b).

End Int.

(** The two widths, for computing. *)
Definition arch32 : GoArch := {| int_size := Bits32 |}.
Definition arch64 : GoArch := {| int_size := Bits64 |}.

(** ** Floating point: Go's float64 *)

Module Float64.

Definition prec : Z := 53.
Definition emax : Z := 1024.

(** [float64(z)] for an integer [z]: rounding to nearest, ties to even. *)
Definition of_int64 (z : Z) : spec_float := binary_normalize prec emax z 0 false.

Definition div : spec_float -> spec_float -> spec_float := SFdiv prec emax.
Definition mul : spec_float -> spec_float -> spec_float := SFmul prec emax.

(** [int64(f)]: the fraction is discarded (truncation toward zero). When the
    value does not fit the result type, Go leaves the result to the
    implementation: [None]. *)
Definition to_int64 (f : spec_float) : option Z :=
  match f with
  | S754_zero _ => Some 0
  | S754_finite s m e =>
      let mag := Z.shiftl (Zpos m) e in
      let v := if s then - mag else mag in
      if ((Int64.min_int <=? v) && (v <=? Int64.max_int))%bool then Some v else None
  | S754_infinity _ | S754_nan => None
  end.




End Float64.

(** ** Shared types (internal/core/types) *)

(** [TaskStatus] is an [int] with five declared constants; a conversion from
    an [int] read from a state file can produce any other value. *)
Inductive TaskStatus : Type :=
| TaskPending
| TaskDownloading
| TaskCompleted
| TaskFailed
| TaskPaused
| TaskOther (n : Z).

(** [int(chunk.Status)]. *)
Definition status_to_int (s : TaskStatus) : Z :=
  match s with
  | TaskPending => 0
  | TaskDownloading => 1
  | TaskCompleted => 2
  | TaskFailed => 3
  | TaskPaused => 4
  | TaskOther n => n
  end.

(** [types.TaskStatus(state.Status)]. *)
Definition status_of_int (n : Z) : TaskStatus :=
  match n with
  | 0 => TaskPending
  | 1 => TaskDownloading
  | 2 => TaskCompleted
  | 3 => TaskFailed
  | 4 => TaskPaused
  | _ => TaskOther n
  end.

Definition is_completed (s : TaskStatus) : bool :=
  match s with
  | TaskCompleted => true
  | _ => false
  end.

(** [types.Chunk], without its [Error] field. *)
Record Chunk : Type := mkChunk {
  Index : Z;
  Start : Z;
  End_ : Z;
  Size : Z;
  Completed : Z;
  Status : TaskStatus
}.

(** ** Results of library calls *)

(** A Go call that returns a value or an [error] (its message). *)
Inductive result (A : Type) : Type :=
| Ok (a : A)
| Err (msg : string).
Arguments Ok {A} a.
Arguments Err {A} msg.

(** A computation that may panic, or that leaves the fragment of its inputs
    on which the library calls it makes are modelled. *)
Inductive outcome (A : Type) : Type :=
| Done (a : A)
| Panic
| Beyond.
Arguments Done {A} a.
Arguments Panic {A}.
Arguments Beyond {A}.

Definition outcome_bind {A B : Type} (o : outcome A) (k : A -> outcome B) : outcome B :=
  match o with
  | Done a => k a
  | Panic => Panic
  | Beyond => Beyond
  end.

(** ** Go's strings package *)

(** What [strings] does with bytes above 0x7f depends on Unicode tables that
    are not part of the program; they are taken as a parameter. On ASCII input
    the functions below never consult them. *)
Class GoUnicode : Type := {
  (** [strings.Map(unicode.ToLower, s)], the slow path of [strings.ToLower]. *)
  Map_unicode_ToLower : string -> string;
  (** [strings.TrimFunc(s, unicode.IsSpace)], first slow path of [TrimSpace]. *)
  TrimFunc_IsSpace : string -> string;
  (** [strings.TrimRightFunc(s, unicode.IsSpace)], second slow path. *)
  TrimRightFunc_IsSpace : string -> string;
  (** The Unicode path of [strings.EqualFold]. *)
  EqualFold_unicode : string -> string -> bool;
  (** [strings.FieldsFunc(s, unicode.IsSpace)], the slow path of [Fields]. *)
  FieldsFunc_IsSpace : string -> list string
}.

Module GoStrings.

Definition byte (c : ascii) : N := N_of_ascii c.

(** [c < utf8.RuneSelf]. *)
Definition is_ascii_byte (c : ascii) : bool := (byte c <? 128)%N.

Fixpoint all_ascii (s : string) : bool :=
  match s with
  | EmptyString => true
  | String c s' => is_ascii_byte c && all_ascii s'
  end.

Definition is_upper (c : ascii) : bool := ((65 <=? byte c) && (byte c <=? 90))%N.

Definition lower_byte (c : ascii) : ascii :=
  if is_upper c then ascii_of_N (byte c + 32) else c.

Fixpoint map_bytes (f : ascii -> ascii) (s : string) : string :=
  match s with
  | EmptyString => EmptyString
  | String c s' => String (f c) (map_bytes f s')
  end.

(** [strings.ToLower]. *)
Definition ToLower `{GoUnicode} (s : string) : string :=
  if all_ascii s then map_bytes lower_byte s else Map_unicode_ToLower s.

(** The [asciiSpace] table: tab, newline, vertical tab, form feed, carriage
    return, space. *)
Definition is_ascii_space (c : ascii) : bool :=
  (((9 <=? byte c) && (byte c <=? 13)) || (byte c =? 32))%N.

(** First loop of [strings.TrimSpace]: [inl rest] when a byte above 0x7f is
    met (the rest goes to the Unicode path), [inr rest] at the first byte that
    is not a space. *)
Fixpoint trim_left (s : string) : string + string :=
  match s with
  | EmptyString => inr EmptyString
  | String c s' =>
      if negb (is_ascii_byte c) then inl s
      else if is_ascii_space c then trim_left s'
      else inr s
  end.

(** [strings.TrimSpace]; the second loop runs over the reversed string. *)
Definition TrimSpace `{GoUnicode} (s : string) : string :=
  match trim_left s with
  | inl rest => TrimFunc_IsSpace rest
  | inr rest =>
      match trim_left (String.rev rest) with
      | inl r => TrimRightFunc_IsSpace (String.rev r)
      | inr r => String.rev r
      end
  end.

Definition is_empty (s : string) : bool :=
  match s with
  | EmptyString => true
  | String _ _ => false
  end.

(** [strings.HasPrefix] and [strings.HasSuffix]. *)
Definition HasPrefix (s pre : string) : bool := String.prefix pre s.

Fixpoint HasSuffix (s suf : string) : bool :=
  String.eqb s suf ||
  match s with
  | EmptyString => false
  | String _ s' => HasSuffix s' suf
  end.

(** [strings.Contains]. *)
Fixpoint Contains (s sub : string) : bool :=
  String.prefix sub s ||
  match s with
  | EmptyString => false
  | String _ s' => Contains s' sub
  end.

(** [strings.SplitN(s, sep, 2)] for a one-byte separator: [None] when the
    result has one element (no separator), the two parts otherwise. *)
Fixpoint SplitN2 (s : string) (sep : ascii) : option (string * string) :=
  match s with
  | EmptyString => None
  | String c s' =>
      if Ascii.eqb c sep then Some (EmptyString, s')
      else match SplitN2 s' sep with
           | Some (a, b) => Some (String c a, b)
           | None => None
           end
  end.

(** [strings.ReplaceAll(s, old, new)] for a one-byte [old]. *)
Fixpoint ReplaceAll (s : string) (old : ascii) (new : string) : string :=
  match s with
  | EmptyString => EmptyString
  | String c s' =>
      if Ascii.eqb c old then new +:+ ReplaceAll s' old new
      else String c (ReplaceAll s' old new)
  end.

(** [strings.EqualFold]: the ASCII loop, leaving for the Unicode path at the
    first position where either byte is above 0x7f. *)
Fixpoint EqualFold `{GoUnicode} (s t : string) : bool :=
  match s, t with
  | EmptyString, EmptyString => true
  | String c s', String d t' =>
      if negb (is_ascii_byte c) || negb (is_ascii_byte d) then EqualFold_unicode s t
      else if Ascii.eqb (lower_byte c) (lower_byte d) then EqualFold s' t'
      else false
  | _, _ => false
  end.

(** [strings.Split(s, sep)] for a one-byte separator; [cur] holds the current
    piece in reverse. *)
Fixpoint Split_aux (s : string) (sep : ascii) (cur : string) : list string :=
  match s with
  | EmptyString => [String.rev cur]
  | String c s' =>
      if Ascii.eqb c sep then String.rev cur :: Split_aux s' sep EmptyString
      else Split_aux s' sep (String c cur)
  end.

Definition Split (s : string) (sep : ascii) : list string := Split_aux s sep EmptyString.

(** The ASCII path of [strings.Fields]: maximal runs of bytes that are not
    ASCII space. *)
Fixpoint Fields_ascii (s : string) (cur : string) : list string :=
  match s with
  | EmptyString => if is_empty cur then [] else [String.rev cur]
  | String c s' =>
      if is_ascii_space c
      then (if is_empty cur then Fields_ascii s' EmptyString
            else String.rev cur :: Fields_ascii s' EmptyString)
      else Fields_ascii s' (String c cur)
  end.

(** [strings.Fields]. *)
Definition Fields `{GoUnicode} (s : string) : list string :=
  if all_ascii s then Fields_ascii s EmptyString else FieldsFunc_IsSpace s.

(** Lines as [bufio.Scanner] with [bufio.ScanLines] yields them: split at
    newline, one trailing carriage return dropped, no empty last line. *)
Fixpoint split_lines_aux (s : string) (cur : string) : list string :=
  match s with
  | EmptyString => if is_empty cur then [] else [String.rev cur]
  | String c s' =>
      if Ascii.eqb c "010" then String.rev cur :: split_lines_aux s' EmptyString
      else split_lines_aux s' (String c cur)
  end.

Definition dropCR (line : string) : string :=
  match String.rev line with
  | String "013" r => String.rev r
  | _ => line
  end.

(** [bufio.MaxScanTokenSize]: a scanner stops, without a token, at a line of
    that many bytes or more. *)
Definition MaxScanTokenSize : N := 65536.

Fixpoint take_short (lines : list string) : list string :=
  match lines with
  | [] => []
  | l :: rest =>
      if (N.of_nat (String.length l) <? MaxScanTokenSize)%N
      then l :: take_short rest
      else []
  end.

(** The tokens [scanner.Scan()]/[scanner.Text()] deliver for [data]. *)
Definition scan_lines (data : string) : list string :=
  dropCR <$> take_short (split_lines_aux data EmptyString).

End GoStrings.

(** Tables for computing on ASCII input, where the Unicode paths are not
    taken: every entry leaves its argument as it is. *)
Definition ascii_tables : GoUnicode :=
  {| Map_unicode_ToLower := fun s => s;
     TrimFunc_IsSpace := fun s => s;
     TrimRightFunc_IsSpace := fun s => s;
     EqualFold_unicode := String.eqb;
     FieldsFunc_IsSpace := fun s => [s] |}.

(** [outcome] is a functor. *)
Global Instance outcome_fmap : FMap outcome :=
  fun A B f o => outcome_bind o (fun a => Done (f a)).

(** ** Chunk planning (downloadWithChunks, calculateNumChunks) *)

Module Plan.

(** [calculateNumChunks]: the quotient is an [int64], the count an [int]. *)
Definition calculateNumChunks `{GoArch} (fileSize chunkSize : Z) : Z :=
  if chunkSize <=? 0 then 1
  else
    let numChunks := Int.wrap (Int64.quot fileSize chunkSize) in
    if negb (Int64.rem fileSize chunkSize =? 0)
    then Int.add numChunks 1
    else numChunks.

(** Body of the [for i := 0; i < numChunks; i++] loop; [i] and [numChunks]
    are [int], the bounds [int64]. *)
Definition planChunk `{GoArch} (numChunks chunkSize lastChunkSize i : Z) : Chunk :=
  let start := Int64.mul i chunkSize in
  let end0 := Int64.sub (Int64.add start chunkSize) 1 in
  let end1 :=
    if i =? Int.sub numChunks 1
    then Int64.sub (Int64.add start lastChunkSize) 1
    else end0 in
  {| Index := i;
     Start := start;
     End_ := end1;
     Size := Int64.add (Int64.sub end1 start) 1;
     Completed := 0;
     Status := TaskPending |}.

(** The number of chunks [downloadWithChunks] plans: the count of
    [calculateNumChunks], cut down to [MaxThreads]. *)
Definition numChunks `{GoArch} (contentLength cfgChunkSize maxThreads : Z) : Z :=
  let numChunks0 := calculateNumChunks contentLength cfgChunkSize in
  if numChunks0 >? maxThreads then maxThreads else numChunks0.

(** The planning prefix of [downloadWithChunks]: [None] is a run-time panic
    (integer division by zero, or [make] with a negative length). *)
Definition planChunks `{GoArch} (contentLength cfgChunkSize maxThreads : Z)
  : option (list Chunk) :=
  let numChunks := numChunks contentLength cfgChunkSize maxThreads in
  if numChunks =? 0 then None
  else
    let chunkSize := Int64.quot contentLength numChunks in
    let lastChunkSize :=
      Int64.sub contentLength (Int64.mul chunkSize (Int64.sub numChunks 1)) in
    if numChunks <? 0 then None
    else Some (planChunk numChunks chunkSize lastChunkSize <$> seqZ 0 numChunks).

(** The plan of [n] chunks for [contentLength] bytes, computed over the
    integers: what the loop gives where nothing wraps around. *)
Definition plan_over_Z (contentLength n : Z) : list Chunk :=
  let q := contentLength / n in
  (fun i =>
     {| Index := i; Start := i * q;
        End_ := if i =? n - 1 then contentLength - 1 else i * q + q - 1;
        Size := if i =? n - 1 then contentLength - i * q else q;
        Completed := 0; Status := TaskPending |}) <$> seqZ 0 n.

(** The number of chunks the specification asks for. *)
Definition ceil_div (a b : Z) : Z := (a + b - 1) / b.

Definition spec_num_chunks (contentLength cfgChunkSize maxThreads : Z) : Z :=
  Z.min (ceil_div contentLength cfgChunkSize) maxThreads.

End Plan.

(** What it means for [chunks] to be the plan the specification describes for
    a resource of [contentLength] bytes cut into [n] chunks. *)
Definition partition_plan (contentLength n : Z) (chunks : list Chunk) : Prop :=
  Z.of_nat (length chunks) = n /\
  (forall (i : nat) c, chunks !! i = Some c ->
     Index c = Z.of_nat i /\
     Start c = Z.of_nat i * (contentLength / n) /\
     Size c = End_ c - Start c + 1 /\
     Start c <= End_ c /\
     Completed c = 0 /\ Status c = TaskPending /\
     (Z.of_nat i < n - 1 -> Size c = contentLength / n) /\
     (Z.of_nat i = n - 1 ->
        Size c = contentLength / n + contentLength mod n /\
        End_ c = contentLength - 1)) /\
  (forall (i : nat) c c',
     chunks !! i = Some c -> chunks !! S i = Some c' -> Start c' = End_ c + 1) /\
  (forall (i j : nat) c c',
     i <> j -> chunks !! i = Some c -> chunks !! j = Some c' ->
     End_ c < Start c' \/ End_ c' < Start c) /\
  (forall b,
     0 <= b < contentLength <->
     exists (i : nat) c, chunks !! i = Some c /\ Start c <= b <= End_ c).

(** ** Utilities (internal/core/utils): CalculateETA *)

(** [time.Second], in nanoseconds. *)
Definition time_Second : Z := 1000000000.

(** [CalculateETA]: a [time.Duration] in nanoseconds. [None] stands for the
    implementation-dependent result of converting a float64 that does not
    fit an int64. *)
Definition CalculateETA (total downloaded speed : Z) : option Z :=
  if speed <=? 0 then Some 0
  else
    let remaining := Int64.sub total downloaded in
    let seconds :=
      Float64.div (Float64.of_int64 remaining) (Float64.of_int64 speed) in
    Float64.to_int64 (Float64.mul seconds (Float64.of_int64 time_Second)).


(** ** Go's net/url, on a fragment

    [url.Parse] is modelled for inputs without percent escapes and without
    user information or bracketed hosts; on other inputs it is [Beyond]. [url.Parse] does not panic. *)

Module GoURL.
Import GoStrings.

Record URL : Type := mkURL {
  Scheme : string;
  Opaque : string;
  Host : string;
  Path : string;
  ForceQuery : bool;
  RawQuery : string;
  Fragment : string
}.

Definition is_letter (c : ascii) : bool :=
  (((97 <=? byte c) && (byte c <=? 122)) || ((65 <=? byte c) && (byte c <=? 90)))%N.

Definition is_digit (c : ascii) : bool := ((48 <=? byte c) && (byte c <=? 57))%N.

(** [stringContainsCTLByte]. *)
Fixpoint stringContainsCTLByte (s : string) : bool :=
  match s with
  | EmptyString => false
  | String c s' => ((byte c <? 32) || (byte c =? 127))%N || stringContainsCTLByte s'
  end.

(** [strings.Cut(s, sep)] for a one-byte separator, without the found flag. *)
Definition Cut (s : string) (sep : ascii) : string * string :=
  match SplitN2 s sep with
  | Some (a, b) => (a, b)
  | None => (s, EmptyString)
  end.

Fixpoint Count (s : string) (sep : ascii) : nat :=
  match s with
  | EmptyString => O
  | String c s' => ((if Ascii.eqb c sep then 1 else 0) + Count s' sep)%nat
  end.

(** [getScheme]: [None] is the error "missing protocol scheme"; [first] tells
    whether the loop is at index 0, [acc] holds the bytes read so far in
    reverse. *)
Fixpoint getScheme_loop (rawURL : string) (s : string) (first : bool) (acc : string)
  : option (string * string) :=
  match s with
  | EmptyString => Some (EmptyString, rawURL)
  | String c s' =>
      if is_letter c then getScheme_loop rawURL s' false (String c acc)
      else if is_digit c || Ascii.eqb c "+" || Ascii.eqb c "-" || Ascii.eqb c "."
      then (if first then Some (EmptyString, rawURL)
            else getScheme_loop rawURL s' false (String c acc))
      else if Ascii.eqb c ":"
      then (if first then None else Some (String.rev acc, s'))
      else Some (EmptyString, rawURL)
  end.

Definition getScheme (rawURL : string) : option (string * string) :=
  getScheme_loop rawURL rawURL true EmptyString.

Fixpoint all_bytes (p : ascii -> bool) (s : string) : bool :=
  match s with
  | EmptyString => true
  | String c s' => p c && all_bytes p s'
  end.

(** [validOptionalPort]: empty, or a colon followed by digits. *)
Definition validOptionalPort (port : string) : bool :=
  match port with
  | EmptyString => true
  | String c rest => Ascii.eqb c ":" && all_bytes is_digit rest
  end.

(** Position of the last colon: the host is cut into the part before it and
    the part from it on. *)
Fixpoint cut_last_colon (s : string) : option (string * string) :=
  match s with
  | EmptyString => None
  | String c s' =>
      match cut_last_colon s' with
      | Some (a, b) => Some (String c a, b)
      | None => if Ascii.eqb c ":" then Some (EmptyString, s) else None
      end
  end.

(** Bytes of a host that the model covers: letters, digits, dot, hyphen and
    colon. *)
Definition simple_host_byte (c : ascii) : bool :=
  is_letter c || is_digit c || Ascii.eqb c "." || Ascii.eqb c "-" || Ascii.eqb c ":".

(** [parseAuthority] followed by [parseHost]: [Done None] is the error
    "invalid port after host". *)
Definition parseAuthority (authority : string) : outcome (option string) :=
  if negb (all_bytes simple_host_byte authority) then Beyond
  else
    match cut_last_colon authority with
    | Some (_, colonPort) =>
        if validOptionalPort colonPort then Done (Some authority) else Done None
    | None => Done (Some authority)
    end.

(** The body of [parse(rawURL, false)] after the control-byte check. *)
Definition parse_body (rawURL : string) : outcome (option URL) :=
  if String.eqb rawURL "*" then Done (Some (mkURL "" "" "" "*" false "" ""))
  else
    match getScheme rawURL with
    | None => Done None
    | Some (scheme0, rest0) =>
        let scheme := map_bytes lower_byte scheme0 in
        let '(force, rest, query) :=
          if HasSuffix rest0 "?" && Nat.eqb (Count rest0 "?") 1
          then (true, String.rev (match String.rev rest0 with
                                  | String _ r => r
                                  | EmptyString => EmptyString
                                  end), EmptyString)
          else let '(r, q) := Cut rest0 "?" in (false, r, q) in
        if negb (HasPrefix rest "/") && negb (is_empty scheme)
        then Done (Some (mkURL scheme rest "" "" force query ""))
        else if negb (HasPrefix rest "/") && Contains (fst (Cut rest "/")) ":"
        then Done None
        else if HasPrefix rest "//" &&
                (negb (is_empty scheme) || negb (HasPrefix rest "///"))
        then
          let after := substring 2 (String.length rest - 2) rest in
          let '(authority, path) :=
            match SplitN2 after "/" with
            | Some (a, p) => (a, String "/" p)
            | None => (after, EmptyString)
            end in
          outcome_bind (parseAuthority authority) (fun h =>
            match h with
            | None => Done None
            | Some host => Done (Some (mkURL scheme "" host path force query ""))
            end)
        else Done (Some (mkURL scheme "" "" rest force query ""))
    end.

(** [url.Parse]: [Done None] is a parse error. *)
Definition Parse (rawURL : string) : outcome (option URL) :=
  if Contains rawURL "%" then Beyond
  else
    let '(u, frag) := Cut rawURL "#" in
    if stringContainsCTLByte u then Done None
    else
      outcome_bind (parse_body u) (fun r =>
        match r with
        | None => Done None
        | Some url =>
            Done (Some (mkURL (Scheme url) (Opaque url) (Host url) (Path url)
                          (ForceQuery url) (RawQuery url) frag))
        end).

(** [URL.IsAbs]. *)
Definition IsAbs (u : URL) : bool := negb (is_empty (Scheme u)).

(** [URL.Hostname]: the host without a valid port. *)
Definition Hostname (u : URL) : string :=
  match cut_last_colon (Host u) with
  | Some (h, colonPort) => if validOptionalPort colonPort then h else Host u
  | None => Host u
  end.

(** Bytes that [escape(_, encodePath)] leaves alone. *)
Definition plain_path_byte (c : ascii) : bool :=
  is_letter c || is_digit c ||
  existsb (Ascii.eqb c)
    ["-"; "_"; "."; "~"; "$"; "&"; "+"; ","; "/"; ":"; ";"; "="; "@"]%char.

(** [URL.String] for an absolute URL: opaque, or with a host and a path
    that needs no escaping; without fragment. *)
Definition String_ (u : URL) : outcome string :=
  let query :=
    if ForceQuery u || negb (is_empty (RawQuery u))
    then String "?" (RawQuery u) else EmptyString in
  if negb (is_empty (Fragment u)) then Beyond
  else if is_empty (Scheme u) then Beyond
  else if negb (is_empty (Opaque u))
  then Done (Scheme u +:+ ":" +:+ Opaque u +:+ query)
  else if negb (is_empty (Host u)) && all_bytes plain_path_byte (Path u)
  then Done (Scheme u +:+ "://" +:+ Host u +:+ Path u +:+ query)
  else Beyond.

End GoURL.

(** ** Go's regexp, on a fragment

    The robots matcher compiles ["^" + pattern + "$"] with
    [regexp.MustCompile]. The model covers expressions whose body is made of
    ASCII bytes that are literal in RE2 syntax, of [.] and of [.*], closed by
    one or more [$]. A body with an opening parenthesis that is never closed
    (and no backslash or bracket, which could quote it) does not compile:
    [MustCompile] panics. Everything else is [Beyond]. *)

Module GoRegexp.
Import GoStrings.

Inductive item : Type :=
| Lit (c : ascii)
| Any
| AnyStar.

(** Bytes with a meaning in RE2 syntax. *)
Definition is_meta (c : ascii) : bool :=
  existsb (Ascii.eqb c)
    ["\"; "."; "+"; "*"; "?"; "("; ")"; "|"; "["; "]"; "{"; "}"; "^"; "$"]%char.

Fixpoint all_dollar (s : string) : bool :=
  match s with
  | EmptyString => true
  | String c s' => Ascii.eqb c "$" && all_dollar s'
  end.

(** The items of a body, up to its closing run of [$]. *)
Fixpoint parse_items (s : string) : option (list item) :=
  match s with
  | EmptyString => None
  | String c s' =>
      if Ascii.eqb c "$" then (if all_dollar s' then Some [] else None)
      else if Ascii.eqb c "." then
        match s' with
        | String "*" s'' => cons AnyStar <$> parse_items s''
        | _ => cons Any <$> parse_items s'
        end
      else if is_meta c || negb (is_ascii_byte c) then None
      else cons (Lit c) <$> parse_items s'
  end.

Definition is_newline (c : ascii) : bool := Ascii.eqb c "010".

(** [.*] before the items matched by [k]: any run of bytes other than
    newline, then [k]. *)
Fixpoint star (k : string -> bool) (s : string) : bool :=
  k s ||
  match s with
  | String d s' => negb (is_newline d) && star k s'
  | EmptyString => false
  end.

(** Whole-text match. [.] takes one byte other than newline (exact on ASCII
    text); [.*] takes any run of bytes other than newline. *)
Fixpoint match_items (items : list item) (s : string) : bool :=
  match items with
  | [] => is_empty s
  | Lit c :: rest =>
      match s with
      | String d s' => Ascii.eqb c d && match_items rest s'
      | EmptyString => false
      end
  | Any :: rest =>
      match s with
      | String d s' => negb (is_newline d) && match_items rest s'
      | EmptyString => false
      end
  | AnyStar :: rest => star (match_items rest) s
  end.

Definition has_any (items : list item) : bool :=
  existsb (fun i => match i with Any => true | _ => false end) items.

Definition unclosed_paren (body : string) : bool :=
  Contains body "(" && negb (Contains body ")") &&
  negb (Contains body "\") && negb (Contains body "[").

(** [regexp.MustCompile(re).MatchString(s)]. *)
Definition MustCompile_MatchString (re s : string) : outcome bool :=
  match re with
  | String "^" body =>
      match parse_items body with
      | Some items =>
          if has_any items && negb (all_ascii s) then Beyond
          else Done (match_items items s)
      | None => if unclosed_paren body then Panic else Beyond
      end
  | _ => Beyond
  end.

(** A pattern made of ASCII bytes without a meaning in RE2 syntax. *)
Definition literal_pattern (s : string) : bool :=
  GoURL.all_bytes (fun c => is_ascii_byte c && negb (is_meta c)) s.

Definition no_newline (s : string) : bool :=
  GoURL.all_bytes (fun c => negb (is_newline c)) s.

Fixpoint lits (s : string) : list item :=
  match s with
  | EmptyString => []
  | String c s' => Lit c :: lits s'
  end.

End GoRegexp.

(** ** Robots policy (package robots, and types.RobotsRules) *)

Record RobotsRules : Type := mkRobotsRules {
  UserAgent : string;
  Disallow : list string;
  Allow : list string;
  CrawlDelay : Z;
  Sitemaps : list string
}.

(** [types.RobotsParser], the rule set the queue manager holds per host. *)
Record RobotsParser : Type := mkRobotsParser {
  Rules : list RobotsRules;
  Default : option RobotsRules;
  ParserSitemaps : list string
}.

Module Robots.
Import GoStrings.

(** [robots.Parser]. Its [rules] are pointers to rules; [defaults] points to
    one of them, so it is the position of that rule in [rules]. *)
Record Parser : Type := mkParser {
  rules : list RobotsRules;
  defaults : option nat;
  sitemaps : list string
}.

(** [NewParser]. *)
Definition NewParser : Parser := mkParser [] None [].

(** The loop state of [Parse]: the parser, [currentRule] (a pointer into
    [rules], or nil) and [inRecord]. *)
Record parse_state : Type := mkState {
  st_parser : Parser;
  currentRule : option nat;
  inRecord : bool
}.

(** An update through the [currentRule] pointer. *)
Definition update_rule (p : Parser) (i : nat) (f : RobotsRules -> RobotsRules) : Parser :=
  mkParser (alter f i (rules p)) (defaults p) (sitemaps p).

Fixpoint digits_value (s : string) (acc : Z) : Z :=
  match s with
  | EmptyString => acc
  | String c s' =>
      if GoURL.is_digit c then digits_value s' (10 * acc + Z.of_N (byte c) - 48)
      else acc
  end.

(** [fmt.Sscanf(value, "%d", &delay)] on a zero [delay]: an optional sign and
    the leading decimal digits; zero when there is no digit or the number
    does not fit the [int] that [delay] is. *)
Definition Sscanf_d `{GoArch} (value : string) : Z :=
  let '(neg, rest) :=
    match value with
    | String "-" r => (true, r)
    | String "+" r => (false, r)
    | _ => (false, value)
    end in
  match rest with
  | String c _ =>
      if GoURL.is_digit c then
        let v := digits_value rest 0 in
        let v := if neg : bool then - v else v in
        if (Int.min_int <=? v) && (v <=? Int.max_int) then v else 0
      else 0
  | EmptyString => 0
  end.

(** One iteration of the [for scanner.Scan()] loop of [Parse]. *)
Definition parse_line `{GoArch} `{GoUnicode} (st : parse_state) (text : string) : parse_state :=
  let line := TrimSpace text in
  if is_empty line || HasPrefix line "#" then st
  else
    match SplitN2 line ":" with
    | None => st
    | Some (k, v) =>
        let key := TrimSpace (ToLower k) in
        let value := TrimSpace v in
        let p := st_parser st in
        if String.eqb key "user-agent" then
          let value := ToLower value in
          let rule := mkRobotsRules value [] [] 0 [] in
          let pos := length (rules p) in
          mkState
            (mkParser (rules p ++ [rule])
               (if String.eqb value "*" then Some pos else defaults p)
               (sitemaps p))
            (Some pos) true
        else if String.eqb key "disallow" then
          match inRecord st, currentRule st with
          | true, Some i =>
              mkState
                (update_rule p i (fun r =>
                   mkRobotsRules (UserAgent r)
                     (if is_empty value then [] else Disallow r ++ [value])
                     (Allow r) (CrawlDelay r) (Sitemaps r)))
                (currentRule st) (inRecord st)
          | _, _ => st
          end
        else if String.eqb key "allow" then
          match inRecord st, currentRule st with
          | true, Some i =>
              mkState
                (update_rule p i (fun r =>
                   mkRobotsRules (UserAgent r) (Disallow r)
                     (Allow r ++ [value]) (CrawlDelay r) (Sitemaps r)))
                (currentRule st) (inRecord st)
          | _, _ => st
          end
        else if String.eqb key "crawl-delay" then
          match inRecord st, currentRule st with
          | true, Some i =>
              mkState
                (update_rule p i (fun r =>
                   mkRobotsRules (UserAgent r) (Disallow r) (Allow r)
                     (Sscanf_d value) (Sitemaps r)))
                (currentRule st) (inRecord st)
          | _, _ => st
          end
        else if String.eqb key "sitemap" then
          mkState (mkParser (rules p) (defaults p) (sitemaps p ++ [value]))
            (currentRule st) (inRecord st)
        else st
    end.

(** The directive a line carries, as [Parse] reads it: [None] for a blank
    line, a comment and a line without a colon. *)
Definition line_key `{GoUnicode} (text : string) : option string :=
  let line := TrimSpace text in
  if is_empty line || HasPrefix line "#" then None
  else
    match SplitN2 line ":" with
    | None => None
    | Some (k, _) => Some (TrimSpace (ToLower k))
    end.


(** [Parser.Parse]: the parser after the call and the returned error. The
    [userAgent] argument is not read. *)
Definition Parse `{GoArch} `{GoUnicode} (p : Parser) (data : string) (userAgent : string)
  : Parser * option string :=
  (st_parser (fold_left parse_line (scan_lines data) (mkState p None false)), None).

(** [Parser.getRule]. *)
Definition getRule `{GoUnicode} (p : Parser) (userAgent : string) : option RobotsRules :=
  let userAgent := ToLower userAgent in
  match
    find (fun rule => negb (String.eqb (UserAgent rule) "*") &&
                      Contains userAgent (UserAgent rule)) (rules p)
  with
  | Some rule => Some rule
  | None => match defaults p with
            | Some i => rules p !! i
            | None => None
            end
  end.

(** [Parser.matchPath]. *)
Definition matchPath (path pattern : string) : outcome bool :=
  let pattern := ReplaceAll pattern "*" ".*" in
  let pattern := if HasSuffix pattern "$" then pattern else pattern +:+ ".*" in
  GoRegexp.MustCompile_MatchString ("^" +:+ pattern +:+ "$") path.

(** [for _, pat := range pats { if p.matchPath(path, pat) { return verdict } }]
    followed by [rest]. *)
Fixpoint first_match (path : string) (pats : list string) (verdict : bool)
    (rest : outcome bool) : outcome bool :=
  match pats with
  | [] => rest
  | pat :: pats' =>
      outcome_bind (matchPath path pat) (fun m =>
        if m then Done verdict else first_match path pats' verdict rest)
  end.

(** [Parser.IsPathAllowed]. *)
Definition IsPathAllowed `{GoUnicode} (p : Parser) (path userAgent : string) : outcome bool :=
  match getRule p userAgent with
  | None => Done true
  | Some rule =>
      first_match path (Allow rule) true
        (first_match path (Disallow rule) false (Done true))
  end.

(** [Parser.IsAllowed]. *)
Definition IsAllowed `{GoUnicode} (p : Parser) (urlStr userAgent : string) : outcome bool :=
  match getRule p userAgent with
  | None => Done true
  | Some rule =>
      outcome_bind (GoURL.Parse urlStr) (fun parsed =>
        match parsed with
        | None => Done true
        | Some parsedURL =>
            let path := GoURL.Path parsedURL in
            first_match path (Allow rule) true
              (first_match path (Disallow rule) false (Done true))
        end)
  end.

End Robots.

(** The line feed byte, and a text made of lines. *)
Definition LF : string := String "010" EmptyString.

Definition text_lines (lines : list string) : string :=
  fold_right (fun l acc => l +:+ LF +:+ acc) EmptyString lines.

(** ** The lines of a robots.txt that count *)

Module RobotsLines.






End RobotsLines.

(** ** URL queue (types.URLQueue) and queue manager (package queue) *)

Inductive URLFlag : Type :=
| URLFlagNone
| URLFlagRedirection
| URLFlagRequisite
| URLFlagRecursive.

(** [types.Job], without its error and time stamps. *)
Record Job : Type := mkJob {
  JobID : Z;
  ParentID : Z;
  JobURL : string;
  OutputPath : string;
  Level : Z;
  RedirectionLevel : Z;
  Flags : URLFlag;
  JobStatus : TaskStatus;
  ContentType : string;
  Encoding : string;
  IsSitemap : bool;
  IsRobotsTxt : bool;
  RequestedByUser : bool
}.

(** A Go [map[string]bool] read with [m[k]]: absent keys read as false. *)
Definition map_get (m : gmap string bool) (k : string) : bool :=
  default false (m !! k).

Module URLQueue.

Record t : Type := mk {
  Jobs : list Job;
  Index : gmap string bool
}.

(** [NewURLQueue]. *)
Definition New : t := mk [] ∅.

(** [URLQueue.Add]. *)
Definition Add (q : t) (job : Job) : t * bool :=
  if map_get (Index q) (JobURL job) then (q, false)
  else (mk (Jobs q ++ [job]) (<[JobURL job := true]> (Index q)), true).

(** [URLQueue.Pop]: [None] is the nil job. *)
Definition Pop (q : t) : t * option Job :=
  match Jobs q with
  | [] => (q, None)
  | job :: rest => (mk rest (Index q), Some job)
  end.

(** [URLQueue.Contains]. *)
Definition Contains (q : t) (url : string) : bool := map_get (Index q) url.

Definition Size (q : t) : Z := Z.of_nat (length (Jobs q)).

Definition IsEmpty (q : t) : bool :=
  match Jobs q with
  | [] => true
  | _ => false
  end.

End URLQueue.

Module Manager.
Import GoStrings.

Record t : Type := mk {
  queue : URLQueue.t;
  blacklist : gmap string bool;
  visited : gmap string bool;
  hostMap : gmap string RobotsParser
}.

(** [NewManager]. *)
Definition New : t := mk URLQueue.New ∅ ∅ ∅.

(** [Manager.Add]: the error message when the job is refused. *)
Definition Add (m : t) (job : Job) : t * option string :=
  if map_get (blacklist m) (JobURL job)
  then (m, Some ("URL在黑名单中: " +:+ JobURL job))
  else if map_get (visited m) (JobURL job)
  then (m, Some ("URL已访问: " +:+ JobURL job))
  else
    let '(q, added) := URLQueue.Add (queue m) job in
    if added then (mk q (blacklist m) (visited m) (hostMap m), None)
    else (mk q (blacklist m) (visited m) (hostMap m),
          Some ("URL已在队列中: " +:+ JobURL job)).

Definition Pop (m : t) : t * option Job :=
  let '(q, job) := URLQueue.Pop (queue m) in
  (mk q (blacklist m) (visited m) (hostMap m), job).

Definition Contains (m : t) (url : string) : bool := URLQueue.Contains (queue m) url.

Definition AddToBlacklist (m : t) (url : string) : t :=
  mk (queue m) (<[url := true]> (blacklist m)) (visited m) (hostMap m).

Definition MarkVisited (m : t) (url : string) : t :=
  mk (queue m) (blacklist m) (<[url := true]> (visited m)) (hostMap m).

Definition IsVisited (m : t) (url : string) : bool := map_get (visited m) url.

Definition SetRobotsParser (m : t) (host : string) (parser : RobotsParser) : t :=
  mk (queue m) (blacklist m) (visited m) (<[host := parser]> (hostMap m)).

(** [Manager.Clear]: a new queue and new maps. *)
Definition Clear (m : t) : t := New.

(** [Manager.AddBatch]. *)
Definition AddBatch (m : t) (jobs : list Job) : t :=
  fold_left
    (fun m job =>
       if map_get (blacklist m) (JobURL job) then m
       else if map_get (visited m) (JobURL job) then m
       else mk (fst (URLQueue.Add (queue m) job)) (blacklist m) (visited m) (hostMap m))
    jobs m.

(** The loop of [Manager.Remove]: the jobs without the first one whose URL is
    [url], if there is one. *)
Fixpoint remove_first (jobs : list Job) (url : string) : option (list Job) :=
  match jobs with
  | [] => None
  | job :: rest =>
      if String.eqb (JobURL job) url then Some rest
      else cons job <$> remove_first rest url
  end.

(** [Manager.Remove]. *)
Definition Remove (m : t) (url : string) : t * bool :=
  if negb (URLQueue.Contains (queue m) url) then (m, false)
  else
    match remove_first (URLQueue.Jobs (queue m)) url with
    | Some jobs =>
        (mk (URLQueue.mk jobs (delete url (URLQueue.Index (queue m))))
            (blacklist m) (visited m) (hostMap m), true)
    | None => (m, false)
    end.

Definition ClearBlacklist (m : t) : t := mk (queue m) ∅ (visited m) (hostMap m).

Definition ClearVisited (m : t) : t := mk (queue m) (blacklist m) ∅ (hostMap m).

Definition RemoveFromBlacklist (m : t) (url : string) : t :=
  mk (queue m) (delete url (blacklist m)) (visited m) (hostMap m).

(** [Manager.GetHost]: [Done None] is the parse error. *)
Definition GetHost (urlStr : string) : outcome (option string) :=
  outcome_bind (GoURL.Parse urlStr) (fun r => Done (GoURL.Hostname <$> r)).

(** [Manager.IsAllowedByRobots]. The [userAgent] argument is not read. *)
Definition IsAllowedByRobots (m : t) (urlStr userAgent : string) : outcome bool :=
  outcome_bind (GetHost urlStr) (fun h =>
    match h with
    | None => Done true
    | Some host =>
        match hostMap m !! host with
        | None => Done true
        | Some parser =>
            outcome_bind (GoURL.Parse urlStr) (fun r =>
              match r with
              | None => Done true
              | Some u =>
                  Done (negb (existsb
                          (fun rule =>
                             existsb (fun disallow => HasPrefix (GoURL.Path u) disallow)
                               (Disallow rule))
                          (Rules parser)))
              end)
        end
    end).

(** The calls that change a manager. *)
Inductive op : Type :=
| OpAdd (job : Job)
| OpPop
| OpAddToBlacklist (url : string)
| OpMarkVisited (url : string)
| OpSetRobotsParser (host : string) (parser : RobotsParser)
| OpClear
| OpAddBatch (jobs : list Job)
| OpRemove (url : string)
| OpClearBlacklist
| OpClearVisited
| OpRemoveFromBlacklist (url : string).

Definition step (m : t) (o : op) : t :=
  match o with
  | OpAdd job => fst (Add m job)
  | OpPop => fst (Pop m)
  | OpAddToBlacklist url => AddToBlacklist m url
  | OpMarkVisited url => MarkVisited m url
  | OpSetRobotsParser host parser => SetRobotsParser m host parser
  | OpClear => Clear m
  | OpAddBatch jobs => AddBatch m jobs
  | OpRemove url => fst (Remove m url)
  | OpClearBlacklist => ClearBlacklist m
  | OpClearVisited => ClearVisited m
  | OpRemoveFromBlacklist url => RemoveFromBlacklist m url
  end.

Definition run (m : t) (ops : list op) : t := fold_left step ops m.

(** The calls that keep the queue and do not remove [url] from it. *)
Definition keeps (url : string) (o : op) : Prop :=
  match o with
  | OpClear => False
  | OpRemove url' => url' <> url
  | _ => True
  end.

End Manager.

(** A job for a URL, as the crawler creates it for a start URL. *)
Definition queue_job (url : string) : Job :=
  mkJob 1 0 url "" 0 0 URLFlagNone TaskPending "" "" false false true.

(** ** HTML link extraction (package html, and parser.HTMLExtractor) *)

Module HTML.
Import GoStrings.

(** [html.Attribute] and the fields of an element [html.Node] that the
    extractors read. *)
Record Attribute : Type := mkAttr {
  Key : string;
  Val : string
}.

Record Node : Type := mkNode {
  Data : string;
  Attr : list Attribute
}.

(** [types.ParsedURL]. *)
Record ParsedURL : Type := mkParsedURL {
  URL : string;
  AttrName : string;
  Tag : string;
  Position : Z
}.

(** [types.ParsedResult]. *)
Record ParsedResult : Type := mkParsedResult {
  URLs : list ParsedURL;
  Follow : bool;
  ResultEncoding : string;
  Links : gmap string string
}.

(** The result [Parser.Parse] starts from. *)
Definition empty_result : ParsedResult := mkParsedResult [] true "utf-8" ∅.

(** The [urlAttrs] table of [extractURLs]. *)
Definition urlAttrs : list (string * string) :=
  [ ("a", "href"); ("link", "href"); ("img", "src"); ("script", "src");
    ("iframe", "src"); ("frame", "src"); ("embed", "src"); ("object", "data");
    ("area", "href"); ("base", "href"); ("body", "background"); ("input", "src");
    ("form", "action"); ("blockquote", "cite"); ("q", "cite"); ("ins", "cite");
    ("del", "cite") ].

Definition lookup_attr (tag : string) : option string :=
  snd <$> find (fun kv => String.eqb (fst kv) tag) urlAttrs.

(** [normalizeURL]: [Done None] is an error. Resolving a relative reference
    against the base ([ResolveReference]) is outside the model. *)
Definition normalizeURL (urlStr baseURL : string) : outcome (option string) :=
  if is_empty urlStr then Done None
  else
    outcome_bind (GoURL.Parse urlStr) (fun r =>
      match r with
      | None => Done None
      | Some u =>
          if negb (GoURL.IsAbs u) then
            if is_empty baseURL then Done None
            else
              outcome_bind (GoURL.Parse baseURL) (fun b =>
                match b with
                | None => Done None
                | Some _ => Beyond
                end)
          else outcome_bind (GoURL.String_ u) (fun s => Done (Some s))
      end).

(** [result.URLs = append(result.URLs, parsedURL); result.Links[urlStr] = normalizedURL]. *)
Definition add_url (result : ParsedResult) (urlStr normalizedURL attrName tag : string)
  : ParsedResult :=
  mkParsedResult (URLs result ++ [mkParsedURL normalizedURL attrName tag 0])
    (Follow result) (ResultEncoding result)
    (<[urlStr := normalizedURL]> (Links result)).

(** One iteration of the first loop of [extractURLs]: the attribute [attr] of
    an element whose URL attribute is [attrName]. *)
Definition extract_attr `{GoUnicode} (tag attrName baseURL : string)
    (result : ParsedResult) (attr : Attribute) : outcome ParsedResult :=
  if EqualFold (Key attr) attrName then
    let urlStr := TrimSpace (Val attr) in
    if is_empty urlStr || String.eqb urlStr "#" ||
       HasPrefix urlStr "javascript:" || HasPrefix urlStr "data:"
    then Done result
    else if String.eqb attrName "action" || String.eqb attrName "formaction"
    then Done result
    else
      outcome_bind (normalizeURL urlStr baseURL) (fun r =>
        match r with
        | None => Done result
        | Some normalizedURL => Done (add_url result urlStr normalizedURL attrName tag)
        end)
  else Done result.

(** A [for ... range] loop whose body may panic or leave the model. *)
Fixpoint for_each {A S : Type} (body : S -> A -> outcome S) (l : list A) (s : S)
  : outcome S :=
  match l with
  | [] => Done s
  | a :: l' => outcome_bind (body s a) (for_each body l')
  end.

(** [processSrcSet]: [strings.Fields(part)[0]] panics on a candidate without
    fields. *)
Definition processSrcSet `{GoUnicode} (srcset baseURL : string) (result : ParsedResult)
  : outcome ParsedResult :=
  for_each
    (fun result part =>
       match Fields part with
       | [] => Panic
       | urlPart :: _ =>
           let urlStr := TrimSpace urlPart in
           if is_empty urlStr then Done result
           else
             outcome_bind (normalizeURL urlStr baseURL) (fun r =>
               match r with
               | None => Done result
               | Some normalizedURL =>
                   Done (add_url result urlStr normalizedURL "srcset" "img")
               end)
       end)
    (Split srcset ",") result.

(** The expression of [processStyleURLs] reads: the text url, an opening
    parenthesis, an optional single or double quote, one or more bytes that
    are neither quote, closing parenthesis nor white space (the captured
    group), an optional quote, a closing parenthesis. *)
Definition is_quote (c : ascii) : bool := Ascii.eqb c "'" || Ascii.eqb c "034".

Definition url_byte (c : ascii) : bool :=
  negb (is_quote c || Ascii.eqb c ")" ||
        existsb (Ascii.eqb c) ["009"; "010"; "012"; "013"; " "]%char).

Fixpoint span (p : ascii -> bool) (s : string) : string * string :=
  match s with
  | EmptyString => (EmptyString, EmptyString)
  | String c s' =>
      if p c then let '(a, b) := span p s' in (String c a, b)
      else (EmptyString, s)
  end.

Definition skip_quote (s : string) : string * nat :=
  match s with
  | String c s' => if is_quote c then (s', 1%nat) else (s, 0%nat)
  | EmptyString => (s, 0%nat)
  end.

(** A match of that expression at the start of [s]: the captured group and
    the length of the match. *)
Definition style_url_at (s : string) : option (string * nat) :=
  if HasPrefix s "url(" then
    let '(s1, q1) := skip_quote (substring 4 (String.length s - 4) s) in
    let '(group, s2) := span url_byte s1 in
    if is_empty group then None
    else
      let '(s3, q2) := skip_quote s2 in
      match s3 with
      | String ")" _ => Some (group, (4 + q1 + String.length group + q2 + 1)%nat)
      | _ => None
      end
  else None.

(** [re.FindAllStringSubmatch(style, -1)], the captured groups: leftmost
    matches that do not overlap. [skip] counts the bytes of the last match
    still to be passed. *)
Fixpoint style_urls (s : string) (skip : nat) : list string :=
  match s with
  | EmptyString => []
  | String _ s' =>
      match skip with
      | S k => style_urls s' k
      | O =>
          match style_url_at s with
          | Some (group, len) => group :: style_urls s' (len - 1)
          | None => style_urls s' 0
          end
      end
  end.

(** [processStyleURLs]. *)
Definition processStyleURLs (style baseURL : string) (result : ParsedResult)
  : outcome ParsedResult :=
  for_each
    (fun result urlStr =>
       outcome_bind (normalizeURL urlStr baseURL) (fun r =>
         match r with
         | None => Done result
         | Some normalizedURL => Done (add_url result urlStr normalizedURL "style" "*")
         end))
    (style_urls style 0) result.

(** [Parser.extractURLs]. The tag goes through [strings.ToLower]. *)
Definition extractURLs `{GoUnicode} (n : Node) (baseURL : string) (result : ParsedResult)
  : outcome ParsedResult :=
  let tag := ToLower (Data n) in
  match lookup_attr tag with
  | None => Done result
  | Some attrName =>
      outcome_bind (for_each (extract_attr tag attrName baseURL) (Attr n) result)
        (fun result =>
           outcome_bind
             (if String.eqb tag "img" then
                for_each
                  (fun result attr =>
                     if EqualFold (Key attr) "srcset"
                     then processSrcSet (Val attr) baseURL result
                     else Done result)
                  (Attr n) result
              else Done result)
             (fun result =>
                for_each
                  (fun result attr =>
                     if EqualFold (Key attr) "style"
                     then processStyleURLs (Val attr) baseURL result
                     else Done result)
                  (Attr n) result))
  end.

(** [HTMLExtractor.resolveURL]: the empty string is "no URL". Resolving a
    relative reference against the base is outside the model. *)
Definition resolveURL `{GoUnicode} (relativeURL : string) : outcome string :=
  if is_empty relativeURL then Done EmptyString
  else if HasPrefix (ToLower relativeURL) "javascript:" ||
          HasPrefix (ToLower relativeURL) "mailto:" ||
          HasPrefix (ToLower relativeURL) "tel:" ||
          HasPrefix (ToLower relativeURL) "#"
  then Done EmptyString
  else
    outcome_bind (GoURL.Parse relativeURL) (fun r =>
      match r with
      | None => Done EmptyString
      | Some parsed =>
          if GoURL.IsAbs parsed then GoURL.String_ parsed else Beyond
      end).

(** [HTMLExtractor.extractAttribute]. *)
Definition extractAttribute `{GoUnicode} (n : Node) (attrName : string) (urls : list string)
  : outcome (list string) :=
  for_each
    (fun urls attr =>
       if String.eqb (Key attr) attrName && negb (is_empty (Val attr)) then
         outcome_bind (resolveURL (Val attr)) (fun absoluteURL =>
           if negb (is_empty absoluteURL) then Done (urls ++ [absoluteURL])
           else Done urls)
       else Done urls)
    (Attr n) urls.

(** The values the specification lists as skipped. *)
Definition skipped_value (v : string) : Prop :=
  v = "" \/ v = "#" \/ HasPrefix v "javascript:" = true \/
  HasPrefix v "mailto:" = true \/ HasPrefix v "tel:" = true \/
  HasPrefix v "data:" = true.

End HTML.

(** ** The world of a download: files and HTTP exchanges *)

Module World.

(** A file system: the contents of the files that exist, by path. *)
Abbreviation FS := (gmap string string).

(** [types.HTTPResponse], what [Client.Head] returns ([parseResponse] applied
    to the response), without its time stamp. *)
Record HTTPResponse : Type := mkHTTPResponse {
  StatusCode : Z;
  ContentLength : Z;
  RespContentType : string;
  ETag : string;
  AcceptRanges : bool
}.

(** The parts of an [http.Response] to a GET that the downloader reads. *)
Record Response : Type := mkResponse {
  RespStatus : Z;
  RespContentLength : Z;
  ContentEncoding : string;
  Body : string
}.

Record Request : Type := mkRequest {
  Method : string;
  ReqURL : string;
  Range : string
}.

(** How a request can fail before there is a response: in
    [http.NewRequestWithContext], or in [httpClient.Do] (connection, timeout,
    ...), each with the text of the error. *)
Inductive net_error : Type :=
| RequestError (msg : string)
| TransportError (msg : string).

(** The network and the servers behind it: what the [n]-th exchange of a run
    answers to a request. *)
Class Network : Type := {
  do_head : nat -> string -> net_error + HTTPResponse;
  do_get : nat -> string -> string -> net_error + Response
}.

(** The decompressors of [compress/gzip] and [compress/zlib] and the decoder
    of [encoding/json], taken as they are: what a compressed body decodes to
    and what a state file holds ([Err] when the input is not valid). *)
Record ChunkState : Type := mkChunkState {
  state_Index : Z;
  state_Start : Z;
  state_End : Z;
  state_Size : Z;
  state_Completed : Z;
  state_Status : Z
}.

Class Codecs : Type := {
  json_Unmarshal : string -> result (list ChunkState);
  gzip_decode : string -> result string;
  zlib_decode : string -> result string
}.

Record t : Type := mk {
  fs : FS;
  requests : list Request
}.

(** A computation on the world that may panic or leave the model. *)
Definition Go (A : Type) : Type := t -> outcome (A * t).

Global Instance Go_ret : MRet Go := fun A a w => Done (a, w).

Global Instance Go_bind : MBind Go := fun A B f m w =>
  match m w with
  | Done (a, w') => f a w'
  | Panic => Panic
  | Beyond => Beyond
  end.

Definition get_fs : Go FS := fun w => Done (fs w, w).

Definition put_fs (fs' : FS) : Go unit := fun w => Done (tt, mk fs' (requests w)).

Definition panic {A : Type} : Go A := fun _ => Panic.

Definition beyond {A : Type} : Go A := fun _ => Beyond.

Definition lift_outcome {A : Type} (o : outcome A) : Go A := fun w =>
  match o with
  | Done a => Done (a, w)
  | Panic => Panic
  | Beyond => Beyond
  end.

(** The exchange of one request: it is recorded, and answered by the
    network. *)
Definition exchange_head `{Network} (url : string) : Go (net_error + HTTPResponse) :=
  fun w =>
    Done (do_head (length (requests w)) url,
          mk (fs w) (requests w ++ [mkRequest "HEAD" url ""])).

Definition exchange_get `{Network} (url rangeHeader : string) : Go (net_error + Response) :=
  fun w =>
    Done (do_get (length (requests w)) url rangeHeader,
          mk (fs w) (requests w ++ [mkRequest "GET" url rangeHeader])).

(** *** Files *)

(** [utils.FileExists]. *)
Definition FileExists (filename : string) : Go bool :=
  fs ← get_fs; mret (bool_decide (is_Some (fs !! filename))).

Definition file_size (content : string) : Z := Z.of_nat (String.length content).

(** [utils.GetFileSize]. *)
Definition GetFileSize (filename : string) : Go (result Z) :=
  fs ← get_fs;
  mret match fs !! filename with
       | Some content => Ok (file_size content)
       | None => Err ("stat " +:+ filename +:+ ": no such file or directory")
       end.

(** An open file: its path, and whether it was opened with [O_APPEND]. *)
Record File : Type := mkFile {
  file_path : string;
  file_append : bool
}.

(** [os.Create]: the file exists afterwards and is empty. *)
Definition os_Create (name : string) : Go (result File) :=
  fs ← get_fs; put_fs (<[name := EmptyString]> fs);; mret (Ok (mkFile name false)).

(** [os.OpenFile(name, os.O_WRONLY|os.O_APPEND, 0644)]. *)
Definition os_OpenFile_append (name : string) : Go (result File) :=
  fs ← get_fs;
  mret match fs !! name with
       | Some _ => Ok (mkFile name true)
       | None => Err ("open " +:+ name +:+ ": no such file or directory")
       end.

(** [os.Remove]. *)
Definition os_Remove (name : string) : Go (result unit) :=
  fs ← get_fs;
  match fs !! name with
  | Some _ => put_fs (delete name fs);; mret (Ok tt)
  | None => mret (Err ("remove " +:+ name +:+ ": no such file or directory"))
  end.

(** [os.Rename]. *)
Definition os_Rename (oldpath newpath : string) : Go (result unit) :=
  fs ← get_fs;
  match fs !! oldpath with
  | Some content => put_fs (<[newpath := content]> (delete oldpath fs));; mret (Ok tt)
  | None =>
      mret (Err ("rename " +:+ oldpath +:+ " " +:+ newpath +:+
                 ": no such file or directory"))
  end.

(** The system calls of a file operation, one after the other. *)
Inductive fs_step : Type :=
| StepOpenTrunc (name : string)
| StepWrite (name : string) (data : string)
| StepRename (oldpath newpath : string).

Definition apply_step (fs : FS) (s : fs_step) : FS :=
  match s with
  | StepOpenTrunc name => <[name := EmptyString]> fs
  | StepWrite name data => alter (fun content => content +:+ data) name fs
  | StepRename oldpath newpath =>
      match fs !! oldpath with
      | Some content => <[newpath := content]> (delete oldpath fs)
      | None => fs
      end
  end.

Definition apply_steps (fs : FS) (steps : list fs_step) : FS :=
  fold_left apply_step steps fs.

(** [os.WriteFile(name, data, 0644)] opens the file with
    [O_WRONLY|O_CREATE|O_TRUNC], writes, and closes. *)
Definition os_WriteFile_steps (name data : string) : list fs_step :=
  [StepOpenTrunc name; StepWrite name data].

Definition os_WriteFile (name data : string) : Go (result unit) :=
  fs ← get_fs; put_fs (apply_steps fs (os_WriteFile_steps name data));; mret (Ok tt).

(** [os.ReadFile]. *)
Definition os_ReadFile (name : string) : Go (result string) :=
  fs ← get_fs;
  mret match fs !! name with
       | Some content => Ok content
       | None => Err ("open " +:+ name +:+ ": no such file or directory")
       end.

(** [file.Stat().Size()]. *)
Definition file_Stat_Size (f : File) : Go (result Z) := GetFileSize (file_path f).

Fixpoint zeros (n : nat) : string :=
  match n with
  | O => EmptyString
  | S n' => String "000" (zeros n')
  end.

Definition string_drop (n : nat) (s : string) : string :=
  substring n (String.length s - n) s.

(** The content of a file after [data] is written at [offset]; a gap before
    the offset reads as zero bytes. *)
Definition write_at (content : string) (offset : nat) (data : string) : string :=
  substring 0 offset (content +:+ zeros (offset - String.length content)) +:+
  data +:+ string_drop (offset + String.length data) content.

(** [file.WriteAt(p, off)], which refuses a file opened with [O_APPEND]. *)
Definition file_WriteAt (f : File) (p : string) (off : Z) : Go (result unit) :=
  if file_append f
  then mret (Err "os: invalid use of WriteAt on file opened with O_APPEND")
  else if off <? 0 then mret (Err "writeat: negative offset")
  else
    fs ← get_fs;
    match fs !! file_path f with
    | Some content =>
        put_fs (<[file_path f := write_at content (Z.to_nat off) p]> fs);;
        mret (Ok tt)
    | None => mret (Err ("write " +:+ file_path f +:+ ": file already closed"))
    end.

(** [file.Write(p)] on a file just opened: at the end of an [O_APPEND] file,
    at the start of a created one. *)
Definition file_Write (f : File) (p : string) : Go (result unit) :=
  fs ← get_fs;
  match fs !! file_path f with
  | Some content =>
      put_fs (<[file_path f :=
                  if file_append f then content +:+ p else write_at content 0 p]> fs);;
      mret (Ok tt)
  | None => mret (Err ("write " +:+ file_path f +:+ ": file already closed"))
  end.

(** What reading a response body to its end delivers: the bytes, and the
    error when the body ends before the announced length. (net/http cuts a
    body at the announced length.) *)
Definition read_body (contentLength : Z) (body : string) : string * option string :=
  if contentLength <? 0 then (body, None)
  else if Z.of_nat (String.length body) <? contentLength
  then (body, Some "unexpected EOF")
  else (substring 0 (Z.to_nat contentLength) body, None).

End World.

(** ** HTTP client (package http) *)

Module Client.
Import GoStrings World.

(** [Client.Head]. *)
Definition Head `{Network} (urlStr : string) : Go (result HTTPResponse) :=
  r ← exchange_head urlStr;
  mret match r with
       | inl (RequestError msg) => Err ("创建HEAD请求失败: " +:+ msg)
       | inl (TransportError msg) => Err ("执行HEAD请求失败: " +:+ msg)
       | inr resp => Ok resp
       end.

(** [Client.Get]. *)
Definition Get `{Network} (urlStr rangeHeader : string) : Go (result Response) :=
  r ← exchange_get urlStr rangeHeader;
  mret match r with
       | inl (RequestError msg) => Err ("创建GET请求失败: " +:+ msg)
       | inl (TransportError msg) => Err ("执行GET请求失败: " +:+ msg)
       | inr resp => Ok resp
       end.

(** [http.StatusOK] and [http.StatusPartialContent]. *)
Definition StatusOK : Z := 200.
Definition StatusPartialContent : Z := 206.

(** [Client.DownloadRange]: the response, for its body and content length. *)
Definition DownloadRange `{Network} (urlStr : string) (start end_ : Z)
  : Go (result Response) :=
  let rangeHeader := "bytes=" +:+ pretty start +:+ "-" +:+ pretty end_ in
  r ← Get urlStr rangeHeader;
  mret match r with
       | Err e => Err e
       | Ok resp =>
           if negb (RespStatus resp =? StatusPartialContent)
           then Err ("服务器不支持范围请求，状态码: " +:+ pretty (RespStatus resp))
           else Ok resp
       end.

(** [Client.GetFileNameFromURL]. *)
Definition GetFileNameFromURL (urlStr : string) : outcome string :=
  outcome_bind (GoURL.Parse urlStr) (fun r =>
    match r with
    | None => Done "download"
    | Some parsedURL =>
        let path := GoURL.Path parsedURL in
        if is_empty path || String.eqb path "/" then Done "index.html"
        else
          let filename := List.last (Split path "/") EmptyString in
          if is_empty filename then Done "index.html" else Done filename
    end).

End Client.

(** ** Chunk downloader (package chunk) *)

Module Chunked.
Import GoStrings World.

(** The options of [types.Config] that the downloader reads. *)
Record Config : Type := mkConfig {
  OutputFile : string;
  OutputDocument : string;
  Continue : bool;
  ChunkSize : Z;
  MaxThreads : Z
}.

(** [isRangeNotSupportedError], on the message of a non-nil error. *)
Definition isRangeNotSupportedError (errStr : string) : bool :=
  Contains errStr "服务器不支持范围请求" ||
  Contains errStr "range not supported" ||
  Contains errStr "不支持范围请求".

(** [getFileInfo]. *)
Definition getFileInfo `{Network} (url : string) : Go (result HTTPResponse) :=
  r ← Client.Head url;
  mret match r with
       | Err e => Err e
       | Ok resp =>
           if negb (StatusCode resp =? 200)
           then Err ("HTTP错误: " +:+ pretty (StatusCode resp))
           else if ContentLength resp <=? 0 then Err "无法获取文件大小"
           else Ok resp
       end.

(** [getOutputPath]. *)
Definition getOutputPath (cfg : Config) (outputPath url : string) : outcome string :=
  if negb (is_empty outputPath) then Done outputPath
  else if negb (is_empty (OutputFile cfg)) then Done (OutputFile cfg)
  else if negb (is_empty (OutputDocument cfg)) then Done (OutputDocument cfg)
  else Client.GetFileNameFromURL url.

(** [shouldUseChunks]. *)
Definition shouldUseChunks (cfg : Config) (fileInfo : HTTPResponse) : bool :=
  (ChunkSize cfg >? 0) && (ContentLength fileInfo >? ChunkSize cfg) &&
  AcceptRanges fileInfo.

(** *** The resume state *)

(** [createStateFileName]. *)
Definition createStateFileName (outputPath : string) : string :=
  outputPath +:+ ".wget2go.state".

Definition chunk_state (c : Chunk) : ChunkState :=
  mkChunkState (Index c) (Start c) (End_ c) (Size c) (Completed c)
    (status_to_int (Status c)).

(** The double quote. *)
Definition dq : string := String "034" EmptyString.

Definition json_field (name : string) (v : Z) (last : bool) : string :=
  "    " +:+ dq +:+ name +:+ dq +:+ ": " +:+ pretty v +:+
  (if last then EmptyString else ",") +:+ LF.

Definition json_object (st : ChunkState) : string :=
  "  {" +:+ LF +:+
  json_field "index" (state_Index st) false +:+
  json_field "start" (state_Start st) false +:+
  json_field "end" (state_End st) false +:+
  json_field "size" (state_Size st) false +:+
  json_field "completed" (state_Completed st) false +:+
  json_field "status" (state_Status st) true +:+
  "  }".

Fixpoint json_objects (states : list ChunkState) : string :=
  match states with
  | [] => EmptyString
  | [st] => json_object st +:+ LF
  | st :: rest => json_object st +:+ "," +:+ LF +:+ json_objects rest
  end.

(** [json.MarshalIndent(states, "", "  ")] for the slice [states]; the slice
    is nil when there is no chunk, and a nil slice is encoded as null. *)
Definition json_MarshalIndent (states : list ChunkState) : string :=
  match states with
  | [] => "null"
  | _ => "[" +:+ LF +:+ json_objects states +:+ "]"
  end.

(** The system calls of [saveDownloadState]. *)
Definition saveDownloadState_steps (outputPath : string) (chunks : list Chunk)
  : list fs_step :=
  os_WriteFile_steps (createStateFileName outputPath)
    (json_MarshalIndent (chunk_state <$> chunks)).

(** [saveDownloadState]. *)
Definition saveDownloadState (outputPath : string) (chunks : list Chunk)
  : Go (result unit) :=
  os_WriteFile (createStateFileName outputPath)
    (json_MarshalIndent (chunk_state <$> chunks)).

(** [stateMap[state.Index] = state] for each state, then the lookup. *)
Definition state_for (states : list ChunkState) (index : Z) : option ChunkState :=
  List.last (Some <$> filter (fun st => state_Index st = index) states) None.

(** The loop of [loadDownloadState] that restores the chunks. *)
Definition restore_chunk (states : list ChunkState) (c : Chunk) : Chunk :=
  match state_for states (Index c) with
  | Some st =>
      if (Start c =? state_Start st) && (End_ c =? state_End st)
      then mkChunk (Index c) (Start c) (End_ c) (Size c) (state_Completed st)
             (status_of_int (state_Status st))
      else mkChunk (Index c) (Start c) (End_ c) (Size c) 0 TaskPending
  | None => c
  end.

(** [loadDownloadState]: whether a state file was loaded, and the chunks. *)
Definition loadDownloadState `{Codecs} (outputPath : string) (chunks : list Chunk)
  : Go (result (bool * list Chunk)) :=
  let stateFile := createStateFileName outputPath in
  ex ← FileExists stateFile;
  if negb ex then mret (Ok (false, chunks))
  else
    r ← os_ReadFile stateFile;
    mret match r with
         | Err e => Err e
         | Ok data =>
             match json_Unmarshal data with
             | Err e => Err e
             | Ok states => Ok (true, restore_chunk states <$> chunks)
             end
         end.

(** [deleteStateFile]. *)
Definition deleteStateFile (outputPath : string) : Go (result unit) :=
  let stateFile := createStateFileName outputPath in
  ex ← FileExists stateFile;
  if ex : bool then os_Remove stateFile else mret (Ok tt).

(** *** Chunk tasks *)

Definition set_status (c : Chunk) (s : TaskStatus) : Chunk :=
  mkChunk (Index c) (Start c) (End_ c) (Size c) (Completed c) s.

Definition add_completed (c : Chunk) (n : Z) : Chunk :=
  mkChunk (Index c) (Start c) (End_ c) (Size c) (Int64.add (Completed c) n) (Status c).

(** [downloadChunk]: the chunk as the task leaves it, and the error.
    [io.Copy] through the [writeAtWriter] is one positional write of what the
    body delivers. *)
Definition downloadChunk `{Network} (url : string) (file : File) (chunk : Chunk)
  : Go (Chunk * result unit) :=
  if is_completed (Status chunk) then mret (chunk, Ok tt)
  else
    let start := Int64.add (Start chunk) (Completed chunk) in
    let end_ := End_ chunk in
    if start >? end_ then mret (set_status chunk TaskCompleted, Ok tt)
    else
      r ← Client.DownloadRange url start end_;
      match r with
      | Err e => mret (chunk, Err e)
      | Ok resp =>
          let contentLength := RespContentLength resp in
          let expectedSize := Int64.add (Int64.sub end_ start) 1 in
          if negb (contentLength =? expectedSize)
          then mret (chunk, Err ("分片大小不匹配: 期望 " +:+ pretty expectedSize +:+
                                  ", 实际 " +:+ pretty contentLength))
          else
            let '(data, readErr) := read_body contentLength (Body resp) in
            w ← (if is_empty data then mret (Ok tt) else file_WriteAt file data start);
            match w with
            | Err e => mret (chunk, Err ("写入文件失败: " +:+ e))
            | Ok _ =>
                let written := file_size data in
                let chunk := add_completed chunk written in
                match readErr with
                | Some e => mret (chunk, Err ("写入文件失败: " +:+ e))
                | None =>
                    if negb (written =? expectedSize)
                    then mret (chunk,
                               Err ("分片写入大小不匹配: 期望 " +:+ pretty expectedSize +:+
                                    ", 实际写入 " +:+ pretty written))
                    else mret (set_status chunk TaskCompleted, Ok tt)
                end
            end
      end.

(** The capacity of [errorCh]. *)
Definition errorCh_capacity : nat := 100.

(** The chunk tasks of [downloadChunks], run one after the other in the
    order of the slice: [i] is the position of the next task, [errors] the
    content of [errorCh]. Each task works on the shared slice [chunks]. *)
Fixpoint run_tasks `{Network} (url : string) (file : File) (outputPath : string)
    (todo : list Chunk) (i : nat) (chunks : list Chunk) (errors : list string)
  : Go (list Chunk * list string) :=
  match todo with
  | [] => mret (chunks, errors)
  | _ :: todo' =>
      match chunks !! i with
      | None => mret (chunks, errors)
      | Some chunk =>
          '(chunk', r) ← downloadChunk url file chunk;
          match r with
          | Err e =>
              let msg := "分片 " +:+ pretty (Index chunk') +:+ " 下载失败: " +:+ e in
              run_tasks url file outputPath todo' (S i)
                (<[i := set_status chunk' TaskFailed]> chunks) (errors ++ [msg])
          | Ok _ =>
              let chunks' := <[i := set_status chunk' TaskCompleted]> chunks in
              saveDownloadState outputPath chunks';;
              run_tasks url file outputPath todo' (S i) chunks' errors
          end
      end
  end.

(** [downloadChunks]. With more failed tasks than [errorCh] holds, the tasks
    block on the channel and the call does not return: outside the model. *)
Definition downloadChunks `{Network} (url : string) (file : File)
    (chunks : list Chunk) (outputPath : string) : Go (list Chunk * result unit) :=
  '(chunks', errors) ← run_tasks url file outputPath chunks 0 chunks [];
  if (errorCh_capacity <? length errors)%nat then beyond
  else
    mret (chunks', match errors with
                   | [] => Ok tt
                   | firstError :: _ => Err firstError
                   end).

(** *** Chunked download *)

(** The end of [downloadWithChunks], once [downloadChunks] has returned nil:
    size verification, then state file removal and the rename. *)
Definition verify_and_publish (tempFile : File) (tempPath outputPath : string)
    (contentLength : Z) : Go (result unit) :=
  st ← file_Stat_Size tempFile;
  match st with
  | Err e => mret (Err ("获取文件信息失败: " +:+ e))
  | Ok actualSize =>
      let expectedSize := contentLength in
      if negb (actualSize =? expectedSize)
      then mret (Err ("文件大小不匹配: 期望 " +:+ pretty expectedSize +:+
                      " 字节, 实际 " +:+ pretty actualSize +:+ " 字节 (差异: " +:+
                      pretty (Int64.sub expectedSize actualSize) +:+ " 字节)"))
      else
        deleteStateFile outputPath;;
        r ← os_Rename tempPath outputPath;
        match r with
        | Err e => mret (Err ("重命名文件失败: " +:+ e))
        | Ok _ => mret (Ok tt)
        end
  end.

(** The part of [downloadWithChunks] that opens the temporary file, resuming
    when the configuration and the files allow it. *)
Definition open_temp `{Codecs} (cfg : Config) (tempPath outputPath : string)
    (chunks : list Chunk) : Go (result (File * list Chunk)) :=
  let fresh : Go (result (File * list Chunk)) :=
    deleteStateFile outputPath;;
    f ← os_Create tempPath;
    mret match f with
         | Err e => Err ("创建临时文件失败: " +:+ e)
         | Ok tempFile => Ok (tempFile, chunks)
         end in
  ex ← FileExists tempPath;
  if Continue cfg && ex then
    l ← loadDownloadState outputPath chunks;
    match l with
    | Err e => mret (Err ("加载下载状态失败: " +:+ e))
    | Ok (stateLoaded, chunks') =>
        if stateLoaded : bool then
          f ← os_OpenFile_append tempPath;
          match f with
          | Err e => mret (Err ("打开临时文件失败: " +:+ e))
          | Ok tempFile =>
              st ← file_Stat_Size tempFile;
              mret match st with
                   | Err e => Err ("获取文件信息失败: " +:+ e)
                   | Ok _ => Ok (tempFile, chunks')
                   end
          end
        else os_Remove tempPath;; fresh
    end
  else fresh.

(** [downloadWithChunks]. *)
Definition downloadWithChunks `{GoArch} `{Network} `{Codecs} (cfg : Config)
    (url outputPath : string) (fileInfo : HTTPResponse) : Go (result unit) :=
  match Plan.planChunks (ContentLength fileInfo) (ChunkSize cfg) (MaxThreads cfg) with
  | None => panic
  | Some chunks =>
      let tempPath := outputPath +:+ ".tmp" in
      o ← open_temp cfg tempPath outputPath chunks;
      match o with
      | Err e => mret (Err e)
      | Ok (tempFile, chunks) =>
          '(_, r) ← downloadChunks url tempFile chunks outputPath;
          match r with
          | Err e => mret (Err e)
          | Ok _ =>
              verify_and_publish tempFile tempPath outputPath (ContentLength fileInfo)
          end
      end
  end.

(** *** Single stream *)

(** The [switch strings.ToLower(contentEncoding)] of [downloadSingle]: what
    is copied to the file, and [isCompressed]. A body that a decompressor
    accepts is decoded whole; a stream that breaks off in the middle is not
    modelled. *)
Definition decode_body `{Codecs} `{GoUnicode} (contentEncoding raw : string)
  : result string * bool :=
  let encoding := ToLower contentEncoding in
  if String.eqb encoding "gzip" || String.eqb encoding "x-gzip" then
    (match gzip_decode raw with
     | Err e => Err ("创建gzip解压器失败: " +:+ e)
     | Ok payload => Ok payload
     end, true)
  else if String.eqb encoding "deflate" then
    (match zlib_decode raw with
     | Err e => Err ("创建zlib解压器失败: " +:+ e)
     | Ok payload => Ok payload
     end, true)
  else (Ok raw, false).

(** [downloadSingle]. *)
Definition downloadSingle `{Network} `{Codecs} `{GoUnicode} (cfg : Config)
    (url outputPath : string) : Go (result unit) :=
  ex ← FileExists outputPath;
  sz ← (if Continue cfg && ex then GetFileSize outputPath else mret (Ok 0));
  match sz with
  | Err e => mret (Err ("获取文件大小失败: " +:+ e))
  | Ok fileSize =>
      let rangeHeader :=
        if fileSize >? 0 then "bytes=" +:+ pretty fileSize +:+ "-" else EmptyString in
      g ← Client.Get url rangeHeader;
      match g with
      | Err e => mret (Err ("下载失败: " +:+ e))
      | Ok resp =>
          let status := RespStatus resp in
          let checked : result Z :=
            if negb (is_empty rangeHeader) then
              if status =? Client.StatusPartialContent then Ok fileSize
              else if status =? Client.StatusOK then Ok 0
              else Err ("HTTP错误: " +:+ pretty status)
            else
              if negb (status =? Client.StatusOK)
              then Err ("HTTP错误: " +:+ pretty status)
              else Ok fileSize in
          match checked with
          | Err e => mret (Err e)
          | Ok fileSize =>
              f ← (if fileSize >? 0 then os_OpenFile_append outputPath
                   else os_Create outputPath);
              match f with
              | Err e =>
                  mret (Err ((if fileSize >? 0 then "打开文件失败: "
                              else "创建文件失败: ") +:+ e))
              | Ok file =>
                  let '(raw, readErr) := read_body (RespContentLength resp) (Body resp) in
                  let decoded := decode_body (ContentEncoding resp) raw in
                  match decoded with
                  | (Err e, _) => mret (Err e)
                  | (Ok payload, isCompressed) =>
                      w ← file_Write file payload;
                      match w, readErr with
                      | Err e, _ | Ok _, Some e => mret (Err ("写入文件失败: " +:+ e))
                      | Ok _, None =>
                          let copied := file_size payload in
                          let contentLength := RespContentLength resp in
                          if (contentLength >? 0) && negb isCompressed &&
                             negb (copied =? contentLength)
                          then mret (Err ("下载大小不匹配: 期望 " +:+ pretty contentLength +:+
                                          ", 实际 " +:+ pretty copied))
                          else mret (Ok tt)
                      end
                  end
              end
          end
      end
  end.

(** *** Download *)

(** The chunked attempt of [Download], with its fallback. *)
Definition chunked_with_fallback `{GoArch} `{Network} `{Codecs} `{GoUnicode} (cfg : Config)
    (url finalOutputPath : string) (fileInfo : HTTPResponse) : Go (result unit) :=
  r ← downloadWithChunks cfg url finalOutputPath fileInfo;
  match r with
  | Err e =>
      if isRangeNotSupportedError e
      then downloadSingle cfg url finalOutputPath
      else mret (Err e)
  | Ok _ => mret (Ok tt)
  end.

(** [ChunkDownloader.Download]. *)
Definition Download `{GoArch} `{Network} `{Codecs} `{GoUnicode} (cfg : Config)
    (url outputPath : string) : Go (result unit) :=
  fi ← getFileInfo url;
  match fi with
  | Err e => mret (Err ("获取文件信息失败: " +:+ e))
  | Ok fileInfo =>
      finalOutputPath ← lift_outcome (getOutputPath cfg outputPath url);
      if shouldUseChunks cfg fileInfo then
        probe ← Client.DownloadRange url 0 0;
        match probe with
        | Err rangeErr =>
            if isRangeNotSupportedError rangeErr
            then downloadSingle cfg url finalOutputPath
            else chunked_with_fallback cfg url finalOutputPath fileInfo
        | Ok _ => chunked_with_fallback cfg url finalOutputPath fileInfo
        end
      else downloadSingle cfg url finalOutputPath
  end.

End Chunked.

(** ** The earlier chunk downloader (internal/downloader/chunk/downloader.go) *)

Module ChunkedLegacy.
Import GoStrings World.

(** [createTempFile]. *)
Definition createTempFile (outputPath : string) : Go (result File) :=
  os_Create (outputPath +:+ ".tmp").

(** [downloadChunk]: [file.Seek(chunk.Start, io.SeekStart)], then [io.Copy]. *)
Definition downloadChunk `{Network} (url : string) (file : File) (chunk : Chunk)
  : Go (result unit) :=
  r ← Client.DownloadRange url (Start chunk) (End_ chunk);
  match r with
  | Err e => mret (Err e)
  | Ok resp =>
      let contentLength := RespContentLength resp in
      if negb (contentLength =? Size chunk)
      then mret (Err ("分片大小不匹配: 期望 " +:+ pretty (Size chunk) +:+
                      ", 实际 " +:+ pretty contentLength))
      else if Start chunk <? 0 then mret (Err "文件定位失败: seek: invalid argument")
      else
        let '(data, readErr) := read_body contentLength (Body resp) in
        w ← (if is_empty data then mret (Ok tt)
             else file_WriteAt file data (Start chunk));
        mret match w, readErr with
             | Err e, _ | Ok _, Some e => Err ("写入文件失败: " +:+ e)
             | Ok _, None => Ok tt
             end
  end.

(** The chunk tasks of [downloadChunks], one after the other. *)
Fixpoint run_tasks `{Network} (url : string) (file : File) (todo : list Chunk)
    (errors : list string) : Go (list string) :=
  match todo with
  | [] => mret errors
  | chunk :: todo' =>
      r ← downloadChunk url file chunk;
      match r with
      | Err e =>
          run_tasks url file todo'
            (errors ++ ["分片 " +:+ pretty (Index chunk) +:+ " 下载失败: " +:+ e])
      | Ok _ => run_tasks url file todo' errors
      end
  end.

(** [downloadChunks]. *)
Definition downloadChunks `{Network} (url : string) (file : File) (chunks : list Chunk)
  : Go (result unit) :=
  errors ← run_tasks url file chunks [];
  if (Chunked.errorCh_capacity <? length errors)%nat then beyond
  else
    mret match errors with
         | [] => Ok tt
         | err :: _ => Err err
         end.

(** [downloadWithChunks]: the temporary file is created before the chunk
    size is computed, and nothing follows [downloadChunks]. *)
Definition downloadWithChunks `{GoArch} `{Network} (cfg : Chunked.Config)
    (url outputPath : string) (fileInfo : HTTPResponse) : Go (result unit) :=
  t ← createTempFile outputPath;
  match t with
  | Err e => mret (Err ("创建临时文件失败: " +:+ e))
  | Ok tempFile =>
      match Plan.planChunks (ContentLength fileInfo) (Chunked.ChunkSize cfg)
              (Chunked.MaxThreads cfg) with
      | None => panic
      | Some chunks => downloadChunks url tempFile chunks
      end
  end.

End ChunkedLegacy.

(** ** Servers and codecs to run the downloader against *)

Module Servers.
Import GoStrings World.

(** A range header [bytes=A-B] or [bytes=A-]. *)
Definition parse_range (header : string) : option (Z * option Z) :=
  if HasPrefix header "bytes=" then
    match SplitN2 (string_drop 6 header) "-" with
    | Some (a, b) =>
        if GoURL.all_bytes GoURL.is_digit a && negb (is_empty a) &&
           GoURL.all_bytes GoURL.is_digit b
        then Some (Robots.digits_value a 0,
                   if is_empty b then None else Some (Robots.digits_value b 0))
        else None
    | None => None
    end
  else None.

Definition StatusRangeNotSatisfiable : Z := 416.

(** What a server that holds [resource] and honours byte ranges answers. *)
Definition serve_range (resource rangeHeader : string) : Response :=
  let total := file_size resource in
  if is_empty rangeHeader then mkResponse 200 total "" resource
  else
    match parse_range rangeHeader with
    | Some (a, b) =>
        if a <? total then
          let last := match b with
                      | Some b => Z.min b (total - 1)
                      | None => total - 1
                      end in
          let body := substring (Z.to_nat a) (Z.to_nat (last - a + 1)) resource in
          mkResponse 206 (file_size body) "" body
        else mkResponse StatusRangeNotSatisfiable 0 "" ""
    | None => mkResponse 200 total "" resource
    end.

Definition range_server (resource : string) : Network :=
  {| do_head := fun _ _ =>
       inr (mkHTTPResponse 200 (file_size resource) "application/octet-stream" "" true);
     do_get := fun _ _ rangeHeader => inr (serve_range resource rangeHeader) |}.

(** A server that announces byte ranges but answers every GET with the whole
    resource and status 200. *)
Definition plain_server (resource : string) : Network :=
  {| do_head := fun _ _ =>
       inr (mkHTTPResponse 200 (file_size resource) "application/octet-stream" "" true);
     do_get := fun _ _ _ => inr (mkResponse 200 (file_size resource) "" resource) |}.

(** The range server behind a network that loses the second exchange of a
    run (the probe of [Download]) with the error text [msg]. *)
Definition lossy_server (resource msg : string) : Network :=
  {| do_head := fun _ _ =>
       inr (mkHTTPResponse 200 (file_size resource) "application/octet-stream" "" true);
     do_get := fun n _ rangeHeader =>
       if Nat.eqb n 1 then inl (TransportError msg)
       else inr (serve_range resource rangeHeader) |}.

(** Codecs for runs that read no state file and receive no compressed body. *)
Definition no_codecs : Codecs :=
  {| json_Unmarshal := fun _ => Err "unexpected end of JSON input";
     gzip_decode := fun _ => Err "gzip: invalid header";
     zlib_decode := fun _ => Err "zlib: invalid header" |}.

Definition empty_world : World.t := World.mk ∅ [].

End Servers.

(** ** What the specification states about saving the resume state *)

(** The state file is replaced atomically when every state the file system
    goes through holds either what the file held before or the whole new
    content. *)
Definition atomic_save (fs : World.FS) (outputPath : string) (chunks : list Chunk) : Prop :=
  forall k : nat,
    let fs' := World.apply_steps fs (take k (Chunked.saveDownloadState_steps outputPath chunks)) in
    fs' !! Chunked.createStateFileName outputPath =
      fs !! Chunked.createStateFileName outputPath \/
    fs' !! Chunked.createStateFileName outputPath =
      Some (Chunked.json_MarshalIndent (Chunked.chunk_state <$> chunks)).

Definition is_rename (s : World.fs_step) : bool :=
  match s with
  | World.StepRename _ _ => true
  | _ => false
  end.

(** ** What the specification states about the probe of [Download] *)

(** The answer to a ranged GET that the specification calls
    RangeNotSupported: a response whose status is not 206. *)
Definition RangeNotSupported (answer : World.net_error + World.Response) : Prop :=
  match answer with
  | inr resp => World.RespStatus resp <> Client.StatusPartialContent
  | inl _ => False
  end.

(** A probe answered in that way is followed by the single stream, and a
    probe answered in any other way, an error of the network among them, by
    the chunked download. *)
Definition fallback_as_specified `{!GoArch} `{!World.Network} `{!World.Codecs} `{!GoUnicode}
    (cfg : Chunked.Config) (url outputPath : string) (w : World.t) : Prop :=
  forall (fileInfo : World.HTTPResponse) (w1 : World.t) (finalOutputPath : string),
    Chunked.getFileInfo url w = Done (Ok fileInfo, w1) ->
    Chunked.getOutputPath cfg outputPath url = Done finalOutputPath ->
    Chunked.shouldUseChunks cfg fileInfo = true ->
    let answer := World.do_get (length (World.requests w1)) url "bytes=0-0" in
    let w2 := World.mk (World.fs w1)
                (World.requests w1 ++ [World.mkRequest "GET" url "bytes=0-0"]) in
    (RangeNotSupported answer ->
     Chunked.Download cfg url outputPath w =
       Chunked.downloadSingle cfg url finalOutputPath w2) /\
    (~ RangeNotSupported answer ->
     Chunked.Download cfg url outputPath w =
       Chunked.chunked_with_fallback cfg url finalOutputPath fileInfo w2).

(** ** Queue manager: the calls that read the queue *)

Module ManagerViews.
Import Manager.

(** [Manager.Size]. *)
Definition Size (m : t) : Z := URLQueue.Size (queue m).

(** [Manager.IsInBlacklist]. *)
Definition IsInBlacklist (m : t) (url : string) : bool := map_get (blacklist m) url.

(** [Manager.Peek]: [None] is the nil job. *)
Definition Peek (m : t) : option Job :=
  if URLQueue.IsEmpty (queue m) then None else head (URLQueue.Jobs (queue m)).

(** [Manager.GetPendingJobs]: a copy of the slice. *)
Definition GetPendingJobs (m : t) : list Job := URLQueue.Jobs (queue m).

(** [Manager.FilterByLevel]. *)
Definition FilterByLevel (m : t) (maxLevel : Z) : list Job :=
  List.filter (fun job => Level job <=? maxLevel) (URLQueue.Jobs (queue m)).

(** [Manager.GetJobsByLevel]. *)
Definition GetJobsByLevel (m : t) (level : Z) : list Job :=
  List.filter (fun job => Level job =? level) (URLQueue.Jobs (queue m)).

(** [Manager.GetMaxLevel]. *)
Definition GetMaxLevel (m : t) : Z :=
  fold_left (fun maxLevel job => if Level job >? maxLevel then Level job else maxLevel)
    (URLQueue.Jobs (queue m)) 0.

(** What [n] calls of [Manager.Pop] in a row return, and the manager after
    them. *)
Fixpoint pop_n (n : nat) (m : t) : list (option Job) * t :=
  match n with
  | O => ([], m)
  | S n' =>
      let '(m1, job) := Pop m in
      let '(jobs, m2) := pop_n n' m1 in
      (job :: jobs, m2)
  end.

(** The queue holds no URL twice, and the URL of every queued job is in the
    index. *)
Definition queue_ok (m : t) : Prop :=
  NoDup (JobURL <$> URLQueue.Jobs (queue m)) /\
  Forall (fun job => Contains m (JobURL job) = true) (URLQueue.Jobs (queue m)).

End ManagerViews.

(** ** Headers and cookies of the configuration (package config) *)

Module ConfigStrings.
Import GoStrings.

(** [isSpace]. *)
Definition isSpace (ch : ascii) : bool :=
  Ascii.eqb ch " " || Ascii.eqb ch "009" || Ascii.eqb ch "010" || Ascii.eqb ch "013".

(** The first loop of [trim]: [start] moves right over white space. *)
Fixpoint trim_start (s : string) : string :=
  match s with
  | EmptyString => EmptyString
  | String c s' => if isSpace c then trim_start s' else s
  end.

(** The second loop of [trim]: [end] moves left over white space, down to
    [start] at most. *)
Fixpoint trim_end (s : string) : string :=
  match s with
  | EmptyString => EmptyString
  | String c s' =>
      match trim_end s' with
      | EmptyString => if isSpace c then EmptyString else String c EmptyString
      | rest => String c rest
      end
  end.

(** [trim]: [s[start:end]]. *)
Definition trim (s : string) : string := trim_end (trim_start s).

(** The loop of [indexOf] from position [i] on. *)
Fixpoint indexOf_from (s : string) (ch : ascii) (i : Z) : Z :=
  match s with
  | EmptyString => -1
  | String c s' => if Ascii.eqb c ch then i else indexOf_from s' ch (i + 1)
  end.

(** [indexOf]. *)
Definition indexOf (s : string) (ch : ascii) : Z := indexOf_from s ch 0.

(** [splitHeader]: the empty list is the nil slice. *)
Definition splitHeader (headerStr : string) : list string :=
  let idx := indexOf headerStr ":" in
  if idx =? -1 then []
  else
    let key := trim (substring 0 (Z.to_nat idx) headerStr) in
    let value := trim (World.string_drop (Z.to_nat (idx + 1)) headerStr) in
    [key; value].

(** [splitCookie]. *)
Definition splitCookie (cookieStr : string) : list string :=
  let idx := indexOf cookieStr "=" in
  if idx =? -1 then []
  else
    let key := trim (substring 0 (Z.to_nat idx) cookieStr) in
    let value := trim (World.string_drop (Z.to_nat (idx + 1)) cookieStr) in
    [key; value].

(** What [splitBy] appends for the piece [s[start:i]]. *)
Definition add_part (parts : list string) (piece : string) : list string :=
  let part := trim piece in
  if negb (is_empty part) then parts ++ [part] else parts.

(** The loop of [splitBy] and what follows it: [cur] is [s[start:i]], the
    piece read since the last separator. *)
Fixpoint splitBy_loop (s : string) (sep : ascii) (cur : string) (parts : list string)
  : list string :=
  match s with
  | EmptyString => if negb (is_empty cur) then add_part parts cur else parts
  | String c s' =>
      if Ascii.eqb c sep then splitBy_loop s' sep EmptyString (add_part parts cur)
      else splitBy_loop s' sep (cur +:+ String c EmptyString) parts
  end.

(** [splitBy]. *)
Definition splitBy (s : string) (sep : ascii) : list string :=
  splitBy_loop s sep EmptyString [].

(** [splitCookies]. *)
Definition splitCookies (cookieStr : string) : list string := splitBy cookieStr ";".

(** [parseHeaders]. *)
Definition parseHeaders (headerStrs : list string) : gmap string string :=
  fold_left
    (fun headers headerStr =>
       match splitHeader headerStr with
       | [key; value] => <[key := value]> headers
       | _ => headers
       end)
    headerStrs ∅.

(** [parseCookies]. *)
Definition parseCookies (cookieStr : string) : gmap string string :=
  if is_empty cookieStr then ∅
  else
    fold_left
      (fun cookies cookiePart =>
         match splitCookie cookiePart with
         | [key; value] => <[key := value]> cookies
         | _ => cookies
         end)
      (splitCookies cookieStr) ∅.

(** A string without the byte [ch], and a string of white space only. *)
Definition no_byte (ch : ascii) (s : string) : bool :=
  GoURL.all_bytes (fun c => negb (Ascii.eqb c ch)) s.

Definition blank (s : string) : bool := GoURL.all_bytes isSpace s.

(** A string that neither starts nor ends with white space. *)
Definition tight (s : string) : Prop :=
  (forall c t, s = String c t -> isSpace c = false) /\
  (forall t c, s = t +:+ String c EmptyString -> isSpace c = false).

(** A cookie header as the configuration documents it:
    [name1=value1; name2=value2]. *)
Fixpoint cookie_header (pairs : list (string * string)) : string :=
  match pairs with
  | [] => EmptyString
  | [(name, value)] => name +:+ "=" +:+ value
  | (name, value) :: rest => name +:+ "=" +:+ value +:+ "; " +:+ cookie_header rest
  end.

(** A header as [splitHeader] documents it: [Header: Value]. *)
Definition header_line (pair : string * string) : string :=
  fst pair +:+ ": " +:+ snd pair.

(** What assigning the pairs one after the other leaves in a Go map. *)
Definition assign_all (pairs : list (string * string)) : gmap string string :=
  fold_left (fun m pair => <[fst pair := snd pair]> m) pairs ∅.

End ConfigStrings.

(** ** File names (package utils) *)

Module Utils.
Import GoStrings.

(** The character class of [SafeFileName]: the bytes [<], [>], [:], the
    double quote, [/], the backslash, [|], [?] and [*]. *)
Definition unsafe_byte (c : ascii) : bool :=
  existsb (Ascii.eqb c) ["<"; ">"; ":"; "034"; "/"; "\"; "|"; "?"; "*"]%char.

(** [SafeFileName]. The characters of the class are one byte each, so the
    replacement goes byte by byte; the cut at 255 is the byte slice
    [filename[:255]]. *)
Definition SafeFileName (filename : string) : string :=
  let filename := map_bytes (fun c => if unsafe_byte c then "_"%char else c) filename in
  if (255 <? String.length filename)%nat then substring 0 255 filename else filename.

End Utils.

(** ** Chunk downloader: sizes *)

Module ChunkSizes.

(** [calculateTotalSize]. *)
Definition calculateTotalSize (chunks : list Chunk) : Z :=
  fold_left (fun total chunk => Int64.add total (Size chunk)) chunks 0.

End ChunkSizes.

(** ** Which files a call can change *)

(** The call [m] leaves every file outside of [files] as it was. *)
Definition only_touches {A : Type} (files : list string) (m : World.Go A) : Prop :=
  forall (w : World.t) (a : A) (w' : World.t),
    m w = Done (a, w') ->
    forall p : string, p ∉ files -> World.fs w' !! p = World.fs w !! p.

(** ** Client: the file name of a URL *)

(** [Client.GetFileNameFromURL] from its call of [url.Parse] on: the name as
    a function of what the call returned, [None] for an error and [Some] for
    a URL, whose [Path] is the decoded path. *)
Definition fileNameOfParsed (parsed : option GoURL.URL) : string :=
  match parsed with
  | None => "download"
  | Some parsedURL =>
      let path := GoURL.Path parsedURL in
      if GoStrings.is_empty path || String.eqb path "/" then "index.html"
      else
        let filename := List.last (GoStrings.Split path "/") EmptyString in
        if GoStrings.is_empty filename then "index.html" else filename
  end.

(** ** Robots parser: what a call of Parse keeps *)

(** What [Parse] keeps true of its loop state, for a parser that started the
    call as [p0]: the rules and sitemaps of [p0] are still there, in front,
    and [currentRule] points behind them. *)
Definition parse_extends (p0 : Robots.Parser) (st : Robots.parse_state) : Prop :=
  (exists more, Robots.rules (Robots.st_parser st) = Robots.rules p0 ++ more) /\
  (exists more, Robots.sitemaps (Robots.st_parser st) = Robots.sitemaps p0 ++ more) /\
  (forall i, Robots.currentRule st = Some i -> (length (Robots.rules p0) <= i)%nat).

(** ** Download manager (package multi_thread) *)

Module DownloadManager.

(** [types.DownloadTask]; the times are instants on a clock, zero for the
    zero [time.Time]. *)
Record DownloadTask : Type := mkDownloadTask {
  URL : string;
  OutputPath : string;
  Size : Z;
  Completed : Z;
  Status : TaskStatus;
  Error : option string;
  StartTime : Z;
  EndTime : Z
}.

(** [dm.tasks]. *)
Definition t : Type := gmap string DownloadTask.

(** [AddTask], called at the instant [now]: the tasks and the error. *)
Definition AddTask (tasks : t) (url outputPath : string) (now : Z) : t * option string :=
  match tasks !! url with
  | Some _ => (tasks, Some ("任务已存在: " +:+ url))
  | None =>
      (<[url := mkDownloadTask url outputPath 0 0 TaskPending None now 0]> tasks, None)
  end.

(** [GetTaskStatus]. *)
Definition GetTaskStatus (tasks : t) (url : string) : option DownloadTask := tasks !! url.

(** [RemoveTask]. *)
Definition RemoveTask (tasks : t) (url : string) : t * bool :=
  match tasks !! url with
  | Some _ => (delete url tasks, true)
  | None => (tasks, false)
  end.

Definition set_status (task : DownloadTask) (s : TaskStatus) : DownloadTask :=
  mkDownloadTask (URL task) (OutputPath task) (Size task) (Completed task) s
    (Error task) (StartTime task) (EndTime task).

(** [PauseTask]. *)
Definition PauseTask (tasks : t) (url : string) : t * bool :=
  match tasks !! url with
  | Some task =>
      match Status task with
      | TaskDownloading => (<[url := set_status task TaskPaused]> tasks, true)
      | _ => (tasks, false)
      end
  | None => (tasks, false)
  end.

(** [ResumeTask]. *)
Definition ResumeTask (tasks : t) (url : string) : t * bool :=
  match tasks !! url with
  | Some task =>
      match Status task with
      | TaskPaused => (<[url := set_status task TaskPending]> tasks, true)
      | _ => (tasks, false)
      end
  | None => (tasks, false)
  end.

(** [Statistics]. *)
Record Statistics : Type := mkStatistics {
  TotalTasks : Z;
  NCompleted : Z;
  NDownloading : Z;
  NFailed : Z;
  NPaused : Z;
  NPending : Z;
  TotalSize : Z;
  Downloaded : Z
}.

(** The body of the loop of [GetStatistics]. The counters count tasks, so
    they stay far from the end of [int]; the byte sums are int64 sums. *)
Definition count_task (stats : Statistics) (task : DownloadTask) : Statistics :=
  let sized (s : Statistics) : Statistics :=
    mkStatistics (TotalTasks s) (NCompleted s) (NDownloading s) (NFailed s)
      (NPaused s) (NPending s)
      (Int64.add (TotalSize s) (Size task))
      (Int64.add (Downloaded s) (Completed task)) in
  match Status task with
  | TaskCompleted =>
      sized (mkStatistics (TotalTasks stats) (NCompleted stats + 1) (NDownloading stats)
               (NFailed stats) (NPaused stats) (NPending stats)
               (TotalSize stats) (Downloaded stats))
  | TaskDownloading =>
      sized (mkStatistics (TotalTasks stats) (NCompleted stats) (NDownloading stats + 1)
               (NFailed stats) (NPaused stats) (NPending stats)
               (TotalSize stats) (Downloaded stats))
  | TaskFailed =>
      mkStatistics (TotalTasks stats) (NCompleted stats) (NDownloading stats)
        (NFailed stats + 1) (NPaused stats) (NPending stats)
        (TotalSize stats) (Downloaded stats)
  | TaskPaused =>
      sized (mkStatistics (TotalTasks stats) (NCompleted stats) (NDownloading stats)
               (NFailed stats) (NPaused stats + 1) (NPending stats)
               (TotalSize stats) (Downloaded stats))
  | TaskPending =>
      mkStatistics (TotalTasks stats) (NCompleted stats) (NDownloading stats)
        (NFailed stats) (NPaused stats) (NPending stats + 1)
        (TotalSize stats) (Downloaded stats)
  | TaskOther _ => stats
  end.

(** [GetStatistics], for the order [order] in which [range dm.tasks] happens
    to deliver the tasks. *)
Definition GetStatistics_in (order : list DownloadTask) : Statistics :=
  fold_left count_task order
    (mkStatistics (Z.of_nat (length order)) 0 0 0 0 0 0 0).

(** [GetStatistics], with the tasks in the order of the keys. *)
Definition GetStatistics (tasks : t) : Statistics :=
  GetStatistics_in (snd <$> map_to_list tasks).

Definition known_status (s : TaskStatus) : bool :=
  match s with
  | TaskOther _ => false
  | _ => true
  end.

End DownloadManager.

(** The tasks one of the five counters of [GetStatistics] counts. *)
Definition counted (s : DownloadManager.Statistics) : Z :=
  DownloadManager.NCompleted s + DownloadManager.NDownloading s +
  DownloadManager.NFailed s + DownloadManager.NPaused s + DownloadManager.NPending s.

(** * Part II: theorems *)

(** ** Machine integers and floats *)

Lemma wrap_small z : Int64.in_range z -> Int64.wrap z = z.
Proof.
  unfold Int64.in_range, Int64.min_int, Int64.max_int, Int64.wrap. intros H.
  rewrite Z.mod_small by lia. lia.
Qed.

Lemma wrap_in_range z : Int64.in_range (Int64.wrap z).
Proof.
  unfold Int64.in_range, Int64.min_int, Int64.max_int, Int64.wrap.
  pose proof (Z.mod_pos_bound (z + 2 ^ 63) (2 ^ 64)). lia.
Qed.

Lemma wrap_zero_iff z : Int64.in_range z -> (Int64.wrap z = 0 <-> z = 0).
Proof. intros H. rewrite wrap_small by assumption. reflexivity. Qed.

Section Float64Facts.
Import Float64.














End Float64Facts.
(** ** The chunk plan *)

Example planChunks_10_3_4 `{GoArch} :
  Plan.planChunks 10 3 4 =
  Some [ mkChunk 0 0 1 2 0 TaskPending; mkChunk 1 2 3 2 0 TaskPending;
         mkChunk 2 4 5 2 0 TaskPending; mkChunk 3 6 9 4 0 TaskPending ].
Proof. destruct H as [[|]]; reflexivity. Qed.

Section IntFacts.
Context {arch : GoArch}.

Lemma int_in_int64 : Int64.min_int <= Int.min_int /\ Int.max_int <= Int64.max_int.
Proof.
  unfold Int.min_int, Int.max_int, Int.bits, Int64.min_int, Int64.max_int.
  destruct int_size; [change (32 - 1) with 31|change (64 - 1) with 63]; lia.
Qed.

Lemma int_max_pos : 2 ^ 31 - 1 <= Int.max_int /\ Int.min_int <= - 2 ^ 31.
Proof.
  unfold Int.min_int, Int.max_int, Int.bits.
  destruct int_size; [change (32 - 1) with 31|change (64 - 1) with 63]; lia.
Qed.

Lemma int_wrap_small z : Int.min_int <= z <= Int.max_int -> Int.wrap z = z.
Proof.
  unfold Int.min_int, Int.max_int, Int.wrap, Int.bits.
  destruct int_size; [change (32 - 1) with 31|change (64 - 1) with 63];
    intros Hz; rewrite Z.mod_small by lia; lia.
Qed.

Lemma int_wrap_range z : Int.min_int <= Int.wrap z <= Int.max_int.
Proof.
  unfold Int.min_int, Int.max_int, Int.wrap, Int.bits.
  destruct int_size.
  - change (32 - 1) with 31.
    pose proof (Z.mod_pos_bound (z + 2 ^ 31) (2 ^ 32)). lia.
  - change (64 - 1) with 63.
    pose proof (Z.mod_pos_bound (z + 2 ^ 63) (2 ^ 64)). lia.
Qed.

End IntFacts.

Section PlanFacts.
Import Plan.
Context {arch : GoArch}.

Variables contentLength cfgChunkSize maxThreads : Z.
Hypothesis Hlen : 0 < contentLength <= Int64.max_int.
Hypothesis Hmt : maxThreads <= Int.max_int.

Lemma calculateNumChunks_range :
  Int.min_int <= calculateNumChunks contentLength cfgChunkSize <= Int.max_int.
Proof.
  unfold calculateNumChunks, Int.add. pose proof int_max_pos.
  destruct (cfgChunkSize <=? 0); [lia|].
  destruct (negb _); apply int_wrap_range.
Qed.

Lemma numChunks_le : numChunks contentLength cfgChunkSize maxThreads <= Int.max_int.
Proof.
  unfold numChunks. pose proof calculateNumChunks_range.
  destruct (_ >? _); lia.
Qed.

(** With a positive number of chunks nothing wraps around, whatever that
    number is; with any other number the planning panics. *)
Lemma planChunks_of_count :
  planChunks contentLength cfgChunkSize maxThreads =
  let n := numChunks contentLength cfgChunkSize maxThreads in
  if n <=? 0 then None else Some (plan_over_Z contentLength n).
Proof.
  pose proof numChunks_le as Hle. pose proof int_in_int64 as [_ H64].
  unfold planChunks. cbv zeta.
  set (n := numChunks contentLength cfgChunkSize maxThreads) in *.
  destruct (Z.eqb_spec n 0) as [E|E]; [rewrite E; reflexivity|].
  destruct (Z.ltb_spec n 0); destruct (Z.leb_spec n 0); try lia; [reflexivity|].
  assert (Hn : 1 <= n) by lia.
  set (q := contentLength / n).
  assert (Hq : 0 <= q /\ q * n <= contentLength < q * n + n).
  { unfold q. pose proof (Z.div_mod contentLength n ltac:(lia)).
    pose proof (Z.mod_pos_bound contentLength n ltac:(lia)).
    split; [apply Z.div_pos; lia | nia]. }
  f_equal. unfold plan_over_Z. cbv zeta. fold q.
  apply list_fmap_ext. intros k i Hi.
  apply lookup_seqZ in Hi as [-> Hi]. rewrite Z.add_0_l.
  set (j := Z.of_nat k) in *. assert (0 <= j < n) by lia.
  unfold Int64.max_int in *.
  assert (Hr : forall z, - 1 <= z <= 2 ^ 63 - 1 -> Int64.wrap z = z).
  { intros z Hz. apply wrap_small.
    unfold Int64.in_range, Int64.min_int, Int64.max_int. lia. }
  unfold planChunk, Int64.quot, Int64.sub, Int64.add, Int64.mul, Int.sub.
  rewrite (int_wrap_small (n - 1)) by (pose proof int_max_pos; lia).
  rewrite Z.quot_div_nonneg by lia. fold q.
  rewrite (Hr q) by nia.
  rewrite (Hr (n - 1)) by lia.
  rewrite (Hr (q * (n - 1))) by nia.
  rewrite (Hr (contentLength - q * (n - 1))) by nia.
  rewrite (Hr (j * q)) by nia.
  destruct (Z.eqb_spec j (n - 1)) as [->|Hj].
  - rewrite (Hr ((n - 1) * q + (contentLength - q * (n - 1)))) by nia.
    replace ((n - 1) * q + (contentLength - q * (n - 1)) - 1)
      with (contentLength - 1) by lia.
    rewrite (Hr (contentLength - 1)) by lia.
    rewrite (Hr (contentLength - 1 - (n - 1) * q)) by nia.
    rewrite (Hr (contentLength - 1 - (n - 1) * q + 1)) by nia.
    f_equal. lia.
  - rewrite (Hr (j * q + q)) by nia.
    rewrite (Hr (j * q + q - 1)) by nia.
    rewrite (Hr (j * q + q - 1 - j * q)) by nia.
    rewrite (Hr (j * q + q - 1 - j * q + 1)) by nia.
    f_equal. lia.
Qed.

Hypothesis Hcs : 0 < cfgChunkSize <= Int64.max_int.

Lemma ceil_div_bounds :
  1 <= ceil_div contentLength cfgChunkSize <= contentLength.
Proof.
  unfold ceil_div. split.
  - apply Z.div_le_lower_bound; lia.
  - apply Z.div_le_upper_bound; [lia|]. nia.
Qed.

(** What [calculateNumChunks] computes before the conversion to [int]. *)
Lemma calculateNumChunks_wrapped :
  calculateNumChunks contentLength cfgChunkSize =
  if contentLength mod cfgChunkSize =? 0
  then Int.wrap (contentLength / cfgChunkSize)
  else Int.wrap (Int.wrap (contentLength / cfgChunkSize) + 1).
Proof.
  unfold calculateNumChunks, Int64.quot, Int64.rem, Int.add.
  unfold Int64.max_int in *.
  destruct (Z.leb_spec cfgChunkSize 0) as [|_]; [lia|].
  rewrite Z.quot_div_nonneg, Z.rem_mod_nonneg by lia.
  pose proof (Z.div_mod contentLength cfgChunkSize ltac:(lia)) as Hdm.
  pose proof (Z.mod_pos_bound contentLength cfgChunkSize ltac:(lia)) as Hmb.
  assert (Hq0 : 0 <= contentLength / cfgChunkSize) by (apply Z.div_pos; lia).
  assert (Hqle : contentLength / cfgChunkSize <= contentLength)
    by (apply Z.div_le_upper_bound; nia).
  assert (Hr : forall z, 0 <= z <= contentLength -> Int64.wrap z = z).
  { intros z Hz. apply wrap_small.
    unfold Int64.in_range, Int64.min_int, Int64.max_int. lia. }
  rewrite (Hr (contentLength / cfgChunkSize)) by lia.
  rewrite (Hr (contentLength mod cfgChunkSize)) by nia.
  destruct (contentLength mod cfgChunkSize =? 0); reflexivity.
Qed.

(** Where the count fits an [int], it is the ceiling of the quotient. *)
Lemma calculateNumChunks_ceil :
  ceil_div contentLength cfgChunkSize <= Int.max_int ->
  calculateNumChunks contentLength cfgChunkSize = ceil_div contentLength cfgChunkSize.
Proof.
  intros Hfit. rewrite calculateNumChunks_wrapped. unfold ceil_div in *.
  pose proof int_max_pos as [_ Hmin].
  pose proof (Z.div_mod contentLength cfgChunkSize ltac:(lia)) as Hdm.
  pose proof (Z.mod_pos_bound contentLength cfgChunkSize ltac:(lia)) as Hmb.
  assert (Hq0 : 0 <= contentLength / cfgChunkSize) by (apply Z.div_pos; lia).
  destruct (Z.eqb_spec (contentLength mod cfgChunkSize) 0) as [E|E].
  - rewrite E, Z.add_0_r in Hdm.
    assert (Hc : (contentLength + cfgChunkSize - 1) / cfgChunkSize =
                 contentLength / cfgChunkSize).
    { symmetry. apply (Z.div_unique _ _ _ (cfgChunkSize - 1)); [lia|].
      set (d := contentLength / cfgChunkSize) in *. lia. }
    rewrite Hc in *. apply int_wrap_small. lia.
  - assert (Hc : (contentLength + cfgChunkSize - 1) / cfgChunkSize =
                 contentLength / cfgChunkSize + 1).
    { symmetry.
      apply (Z.div_unique _ _ _ (contentLength mod cfgChunkSize - 1)); [lia|].
      set (d := contentLength / cfgChunkSize) in *.
      set (r := contentLength mod cfgChunkSize) in *. lia. }
    rewrite Hc in *.
    rewrite (int_wrap_small (contentLength / cfgChunkSize)) by lia.
    apply int_wrap_small. lia.
Qed.

Hypothesis Hmt1 : 1 <= maxThreads.
Hypothesis Hfit : ceil_div contentLength cfgChunkSize <= Int.max_int.

Let n := spec_num_chunks contentLength cfgChunkSize maxThreads.
Let q := contentLength / n.

Lemma numChunks_spec :
  numChunks contentLength cfgChunkSize maxThreads = n.
Proof.
  unfold numChunks, n, spec_num_chunks. rewrite calculateNumChunks_ceil by exact Hfit.
  destruct (Z.gtb_spec (ceil_div contentLength cfgChunkSize) maxThreads); lia.
Qed.

Lemma n_bounds : 1 <= n <= contentLength.
Proof. unfold n, spec_num_chunks. pose proof ceil_div_bounds. lia. Qed.

Lemma q_bounds : 1 <= q /\ q * n <= contentLength < q * n + n.
Proof.
  pose proof n_bounds as Hn. unfold q.
  pose proof (Z.div_mod contentLength n ltac:(lia)).
  pose proof (Z.mod_pos_bound contentLength n ltac:(lia)).
  split; [apply Z.div_le_lower_bound; lia | nia].
Qed.

(** Without overflow the plan is the one computed over the integers. *)
Lemma planChunks_eq :
  planChunks contentLength cfgChunkSize maxThreads = Some (plan_over_Z contentLength n).
Proof.
  rewrite planChunks_of_count. cbv zeta. rewrite numChunks_spec.
  pose proof n_bounds. destruct (Z.leb_spec n 0); [lia|reflexivity].
Qed.

(** Where the number of chunks the specification asks for fits an [int],
    and so on every 64-bit build, the plan is the specified partition. *)
Lemma chunk_plan_partition :
  exists chunks,
    planChunks contentLength cfgChunkSize maxThreads = Some chunks /\
    partition_plan contentLength n chunks.
Proof.
  pose proof n_bounds as Hn.
  pose proof q_bounds as [Hq1 Hq2].
  eexists. split; [apply planChunks_eq|].
  unfold plan_over_Z. cbv zeta. fold q.
  assert (Hmod : contentLength mod n = contentLength - n * q)
    by (unfold q; rewrite Z.mod_eq by lia; reflexivity).
  assert (Hlk : forall (i : nat) c,
    ((fun i =>
        {| Index := i; Start := i * q;
           End_ := if i =? n - 1 then contentLength - 1 else i * q + q - 1;
           Size := if i =? n - 1 then contentLength - i * q else q;
           Completed := 0; Status := TaskPending |}) <$> seqZ 0 n) !! i = Some c ->
    Z.of_nat i < n /\
    c = {| Index := Z.of_nat i; Start := Z.of_nat i * q;
           End_ := if Z.of_nat i =? n - 1 then contentLength - 1
                   else Z.of_nat i * q + q - 1;
           Size := if Z.of_nat i =? n - 1 then contentLength - Z.of_nat i * q else q;
           Completed := 0; Status := TaskPending |}).
  { intros i c H. rewrite list_lookup_fmap in H.
    destruct (seqZ 0 n !! i) as [z|] eqn:E; simpl in H; [|discriminate].
    apply lookup_seqZ in E as [-> E]. rewrite Z.add_0_l in H.
    injection H as <-. split; [lia|reflexivity]. }
  unfold partition_plan. repeat split.
  - rewrite length_fmap, length_seqZ. lia.
  - apply Hlk in H as [_ ->]. reflexivity.
  - apply Hlk in H as [_ ->]. reflexivity.
  - apply Hlk in H as [Hi ->]. simpl.
    destruct (Z.eqb_spec (Z.of_nat i) (n - 1)); lia.
  - apply Hlk in H as [Hi ->]. simpl.
    destruct (Z.eqb_spec (Z.of_nat i) (n - 1)); nia.
  - apply Hlk in H as [_ ->]. reflexivity.
  - apply Hlk in H as [_ ->]. reflexivity.
  - intros Hi'. apply Hlk in H as [Hi ->]. simpl.
    destruct (Z.eqb_spec (Z.of_nat i) (n - 1)); lia.
  - apply Hlk in H as [Hi ->]. simpl.
    destruct (Z.eqb_spec (Z.of_nat i) (n - 1)); nia.
  - apply Hlk in H as [Hi ->]. simpl.
    destruct (Z.eqb_spec (Z.of_nat i) (n - 1)); lia.
  - intros i c c' H H'. apply Hlk in H as [Hi ->]. apply Hlk in H' as [Hi' ->].
    simpl. destruct (Z.eqb_spec (Z.of_nat i) (n - 1)); lia.
  - intros i j c c' Hij H H'.
    apply Hlk in H as [Hi ->]. apply Hlk in H' as [Hj ->]. simpl.
    destruct (Z.eqb_spec (Z.of_nat i) (n - 1)), (Z.eqb_spec (Z.of_nat j) (n - 1)); nia.
  - intros Hb.
    set (k := Z.min (b / q) (n - 1)).
    assert (Hbq : q * (b / q) <= b < q * (b / q) + q).
    { pose proof (Z.div_mod b q ltac:(lia)).
      pose proof (Z.mod_pos_bound b q ltac:(lia)). lia. }
    assert (0 <= b / q) by (apply Z.div_pos; lia).
    assert (Hk : 0 <= k < n) by lia.
    exists (Z.to_nat k). eexists. split.
    + rewrite list_lookup_fmap, lookup_seqZ_lt by lia. reflexivity.
    + simpl. rewrite Z2Nat.id, Z.add_0_l by lia.
      destruct (Z.eqb_spec k (n - 1)) as [E|E].
      * rewrite E. unfold k in E.
        destruct (Z.min_spec (b / q) (n - 1)) as [[? Hm]|[? Hm]]; nia.
      * assert (k = b / q) as -> by lia. nia.
  - destruct H as (i & c & H & Hb). apply Hlk in H as [Hi ->]. simpl in Hb. nia.
  - destruct H as (i & c & H & Hb). apply Hlk in H as [Hi ->]. simpl in Hb.
    destruct (Z.eqb_spec (Z.of_nat i) (n - 1)); nia.
Qed.

End PlanFacts.

(** On a 64-bit build the count always fits. *)
Lemma chunk_plan_partition_64 (contentLength cfgChunkSize maxThreads : Z) :
  0 < contentLength <= Int64.max_int ->
  0 < cfgChunkSize <= Int64.max_int ->
  1 <= maxThreads <= Int64.max_int ->
  exists chunks,
    @Plan.planChunks arch64 contentLength cfgChunkSize maxThreads = Some chunks /\
    partition_plan contentLength
      (Plan.spec_num_chunks contentLength cfgChunkSize maxThreads) chunks.
Proof.
  intros Hlen Hcs Hmt.
  apply (@chunk_plan_partition arch64); try assumption; try lia.
  - exact (proj2 Hmt).
  - pose proof (@ceil_div_bounds contentLength cfgChunkSize Hlen Hcs).
    change (@Int.max_int arch64) with Int64.max_int. lia.
Qed.

(** C1. The claim holds of the plan wherever Go's int has 64 bits, but not
    on the 32-bit builds: there the conversion int(fileSize / chunkSize) in
    calculateNumChunks keeps the low 32 bits of the quotient. For a file of
    2^32 bytes, chunks of one byte and four threads, the count becomes 0 and
    the division by it panics, where the claim has four chunks of 2^30
    bytes. For 2^32 + 5 bytes, chunks of one byte and ten threads, the plan
    has five chunks where the claim has ten. The plan of a 64-bit build is
    the claimed one on both inputs. *)
Theorem chunk_plan_truncated_on_32_bit :
  @Plan.planChunks arch32 4294967296 1 4 = None /\
  Plan.spec_num_chunks 4294967296 1 4 = 4 /\
  (exists chunks,
     @Plan.planChunks arch32 4294967301 1 10 = Some chunks /\
     length chunks = 5%nat /\
     ~ partition_plan 4294967301 (Plan.spec_num_chunks 4294967301 1 10) chunks) /\
  Plan.spec_num_chunks 4294967301 1 10 = 10 /\
  (exists chunks,
     @Plan.planChunks arch64 4294967296 1 4 = Some chunks /\
     partition_plan 4294967296 (Plan.spec_num_chunks 4294967296 1 4) chunks) /\
  (exists chunks,
     @Plan.planChunks arch64 4294967301 1 10 = Some chunks /\
     partition_plan 4294967301 (Plan.spec_num_chunks 4294967301 1 10) chunks).
Proof.
  split; [vm_compute; reflexivity|].
  split; [vm_compute; reflexivity|].
  split.
  { eexists. split; [vm_compute; reflexivity|]. split; [reflexivity|].
    intros [Hlen _]. vm_compute in Hlen. discriminate. }
  split; [vm_compute; reflexivity|].
  split; apply chunk_plan_partition_64; unfold Int64.max_int; lia.
Qed.

(** ** CalculateETA *)

(** The cases of the repository's own test (TestCalculateETA). *)
Example CalculateETA_repo_tests :
  CalculateETA 100 50 10 = Some (5 * time_Second) /\
  CalculateETA 100 0 10 = Some (10 * time_Second) /\
  CalculateETA 100 100 10 = Some 0 /\
  CalculateETA 100 50 0 = Some 0.
Proof. vm_compute. repeat split. Qed.



(** ** How large a float64 is *)

Section Float64Size.
Import Float64.













End Float64Size.

Section EtaSize.
Import Float64.


End EtaSize.




(** Beyond the bound the count can leave the range of int64: ten thousand
    million bytes at one byte a second are 1e19 nanoseconds, more than an
    int64 holds, and the result of the conversion is not defined by the
    language (amd64 gives the least int64, a negative duration). *)
Example CalculateETA_overflow : CalculateETA 10000000000 0 1 = None.
Proof. vm_compute. reflexivity. Qed.

(** ** The robots matcher on literal patterns *)

Section RegexpFacts.
Import GoStrings GoRegexp.

Lemma literal_byte_facts (c : ascii) :
  is_ascii_byte c && negb (is_meta c) = true ->
  Ascii.eqb c "*" = false /\ Ascii.eqb c "$" = false /\ Ascii.eqb c "." = false /\
  is_meta c || negb (is_ascii_byte c) = false.
Proof.
  intros H. apply andb_true_iff in H as [Ha Hm]. apply negb_true_iff in Hm.
  rewrite Hm, Ha. unfold is_meta in Hm. simpl in Hm.
  repeat (apply orb_false_iff in Hm as [? Hm]). repeat split; assumption.
Qed.

Lemma ReplaceAll_literal (s : string) :
  literal_pattern s = true -> ReplaceAll s "*" ".*" = s.
Proof.
  unfold literal_pattern. induction s as [|c s IH]; simpl; [reflexivity|].
  intros H. apply andb_true_iff in H as [Hc Hs].
  destruct (literal_byte_facts c Hc) as (-> & _). rewrite IH by assumption.
  reflexivity.
Qed.

Lemma HasSuffix_literal (s : string) :
  literal_pattern s = true -> HasSuffix s "$" = false.
Proof.
  unfold literal_pattern. induction s as [|c s IH]; simpl; [reflexivity|].
  intros H. apply andb_true_iff in H as [Hc Hs].
  destruct (literal_byte_facts c Hc) as (_ & Hd & _).
  rewrite IH by assumption. rewrite orb_false_r.
  destruct s; simpl; [|destruct (Ascii.eqb c "$"); reflexivity].
  rewrite Hd. reflexivity.
Qed.

Lemma parse_items_literal (s : string) :
  literal_pattern s = true ->
  parse_items (s +:+ ".*$") = Some (lits s ++ [AnyStar]).
Proof.
  unfold literal_pattern. induction s as [|c s IH]; [reflexivity|].
  intros H. simpl in H. apply andb_true_iff in H as [Hc Hs].
  destruct (literal_byte_facts c Hc) as (_ & Hd & Hp & Hm).
  change (String c s +:+ ".*$") with (String c (s +:+ ".*$")).
  simpl parse_items. rewrite Hd, Hp, Hm, IH by assumption. reflexivity.
Qed.

Lemma has_any_lits (s : string) : has_any (lits s ++ [AnyStar]) = false.
Proof. unfold has_any. induction s as [|c s IH]; simpl; [reflexivity|exact IH]. Qed.

Lemma star_end (s : string) : star is_empty s = no_newline s.
Proof.
  unfold no_newline. induction s as [|d s IH]; [reflexivity|].
  simpl. rewrite IH. reflexivity.
Qed.

Lemma match_items_literal (s rest : string) :
  match_items (lits s ++ [AnyStar]) (s +:+ rest) = no_newline rest.
Proof.
  induction s as [|c s IH]; simpl.
  - apply star_end.
  - rewrite Ascii.eqb_refl. exact IH.
Qed.

(** A literal pattern matches the paths that start with it and go on without
    a newline. *)
Lemma matchPath_literal_prefix (pattern rest : string) :
  literal_pattern pattern = true ->
  Robots.matchPath (pattern +:+ rest) pattern = Done (no_newline rest).
Proof.
  intros H. unfold Robots.matchPath.
  rewrite ReplaceAll_literal, HasSuffix_literal by assumption.
  unfold MustCompile_MatchString.
  change ("^" +:+ (pattern +:+ ".*") +:+ "$")
    with (String "^" ((pattern +:+ ".*") +:+ "$")).
  replace ((pattern +:+ ".*") +:+ "$") with (pattern +:+ ".*$").
  - rewrite parse_items_literal by assumption.
    rewrite has_any_lits. simpl. rewrite match_items_literal. reflexivity.
  - clear H. induction pattern as [|c s IH]; [reflexivity|].
    change (String c (s +:+ ".*$") = String c ((s +:+ ".*") +:+ "$")).
    f_equal. exact IH.
Qed.

End RegexpFacts.

(** ** The robots parser and its query *)

Section RobotsFacts.
Context {arch : GoArch} `{GoUnicode}.
Import GoStrings Robots.

(** Rule selection: the first rule, other than the default's, whose
    user-agent string occurs in the lower-cased request user agent. *)
Lemma getRule_specific (p : Parser) (userAgent : string) (before after : list RobotsRules)
    (rule : RobotsRules) :
  rules p = before ++ rule :: after ->
  Forall (fun r => UserAgent r = "*" \/
                   Contains (ToLower userAgent) (UserAgent r) = false) before ->
  UserAgent rule <> "*" ->
  Contains (ToLower userAgent) (UserAgent rule) = true ->
  getRule p userAgent = Some rule.
Proof.
  intros Hr Hb Hn Hc. unfold getRule.
  replace (find _ (rules p)) with (Some rule); [reflexivity|].
  rewrite Hr. clear Hr.
  induction Hb as [|r before Hr _ IH]; simpl.
  - destruct (String.eqb_spec (UserAgent rule) "*"); [contradiction|].
    rewrite Hc. reflexivity.
  - destruct Hr as [-> | ->]; simpl; rewrite ?andb_false_r; exact IH.
Qed.

(** Without such a rule the default rule applies, and without a default
    everything is allowed. *)
Lemma getRule_default (p : Parser) (userAgent : string) :
  Forall (fun r => UserAgent r = "*" \/
                   Contains (ToLower userAgent) (UserAgent r) = false) (rules p) ->
  getRule p userAgent =
    match defaults p with
    | Some i => rules p !! i
    | None => None
    end.
Proof.
  intros Hb. unfold getRule.
  replace (find _ (rules p)) with (@None RobotsRules); [reflexivity|].
  induction Hb as [|r rs Hr _ IH]; simpl; [reflexivity|].
  destruct Hr as [-> | ->]; simpl; rewrite ?andb_false_r; exact IH.
Qed.

Lemma IsPathAllowed_no_rule (p : Parser) (path userAgent : string) :
  getRule p userAgent = None -> IsPathAllowed p path userAgent = Done true.
Proof. unfold IsPathAllowed. intros ->. reflexivity. Qed.

(** Allow rules are tried first and the first match grants access. *)
Lemma IsPathAllowed_allow_first (p : Parser) (path userAgent : string)
    (rule : RobotsRules) (pattern : string) (more : list string) :
  getRule p userAgent = Some rule ->
  Allow rule = pattern :: more ->
  matchPath path pattern = Done true ->
  IsPathAllowed p path userAgent = Done true.
Proof.
  unfold IsPathAllowed. intros -> -> Hm. simpl. rewrite Hm. reflexivity.
Qed.

(** Without allow rules, a literal Disallow pattern denies every path that
    starts with it (and has no newline after it). *)
Lemma IsPathAllowed_disallow_prefix (p : Parser) (userAgent : string)
    (rule : RobotsRules) (pattern rest : string) (more : list string) :
  getRule p userAgent = Some rule ->
  Allow rule = [] ->
  Disallow rule = pattern :: more ->
  GoRegexp.literal_pattern pattern = true ->
  GoRegexp.no_newline rest = true ->
  IsPathAllowed p (pattern +:+ rest) userAgent = Done false.
Proof.
  unfold IsPathAllowed. intros -> -> -> Hl Hn. simpl.
  rewrite matchPath_literal_prefix, Hn by assumption. reflexivity.
Qed.

(** Each line of the scanner leaves the loop state alone when it carries no
    directive, or a directive other than user-agent and sitemap outside a
    record. *)
Lemma parse_line_ignored (st : parse_state) (text : string) :
  match line_key text with
  | None => True
  | Some key =>
      key <> "user-agent" /\ key <> "sitemap" /\
      (inRecord st = false \/ currentRule st = None)
  end ->
  parse_line st text = st.
Proof.
  unfold line_key, parse_line.
  destruct (is_empty (TrimSpace text) || HasPrefix (TrimSpace text) "#");
    [reflexivity|].
  destruct (SplitN2 (TrimSpace text) ":") as [[k v]|]; [|reflexivity].
  intros (Hua & Hsm & Hrec).
  destruct (String.eqb_spec (TrimSpace (ToLower k)) "user-agent"); [contradiction|].
  destruct (String.eqb_spec (TrimSpace (ToLower k)) "sitemap"); [contradiction|].
  assert (Hno : match inRecord st, currentRule st with
                | true, Some _ => False
                | _, _ => True
                end).
  { destruct Hrec as [-> | ->]; [exact I|]. destruct (inRecord st); exact I. }
  destruct (inRecord st), (currentRule st); try contradiction;
    repeat destruct (String.eqb _ _); reflexivity.
Qed.


Lemma fold_parse_line_ignored (lines : list string) (p : Parser) :
  Forall (fun text => line_key text <> Some "user-agent" /\
                      line_key text <> Some "sitemap") lines ->
  fold_left parse_line lines (mkState p None false) = mkState p None false.
Proof.
  induction 1 as [|text lines [Hua Hsm] _ IH]; simpl; [reflexivity|].
  rewrite parse_line_ignored; [exact IH|].
  destruct (line_key text) as [key|]; [|exact I].
  repeat split; [congruence | congruence | left; reflexivity].
Qed.






End RobotsFacts.




(** What C10 concludes about the query does not hold either: a pattern with
    an unclosed parenthesis is stored as it is, and the query then panics in
    [regexp.MustCompile]. *)
Example IsAllowed_panics_after_Parse :
  @Robots.IsAllowed ascii_tables
    (fst (@Robots.Parse arch64 ascii_tables Robots.NewParser
            (text_lines ["User-agent: *"; "Disallow: /a("]) ""))
    "http://h/a(b" "wget2go" = Panic.
Proof. reflexivity. Qed.

(** The examples of the specification, on the parser's own query. *)
Example IsPathAllowed_scenario {arch : GoArch} `{GoUnicode} (rest userAgent : string) :
  GoRegexp.no_newline rest = true ->
  Robots.IsPathAllowed
    (fst (Robots.Parse Robots.NewParser
            (text_lines ["User-agent: *"; "Disallow: /private/"]) ""))
    ("/private/" +:+ rest) userAgent = Done false.
Proof.
  intros Hn.
  apply (IsPathAllowed_disallow_prefix _ _
           (mkRobotsRules "*" ["/private/"] [] 0 []) "/private/" rest []);
    try reflexivity; try assumption.
Qed.

Example empty_Disallow_allows_all {arch : GoArch} `{GoUnicode} (path userAgent : string) :
  Robots.IsPathAllowed
    (fst (Robots.Parse Robots.NewParser
            (text_lines ["User-agent: *"; "Disallow: /x"; "Disallow:"]) ""))
    path userAgent = Done true.
Proof. reflexivity. Qed.

(** A path with a newline after the prefix escapes a Disallow rule: [.] in
    the compiled expression does not match a newline. *)
Example IsPathAllowed_newline :
  @Robots.IsPathAllowed ascii_tables
    (Robots.mkParser [mkRobotsRules "*" ["/x"] [] 0 []] (Some 0%nat) [])
    ("/x/a" +:+ LF +:+ "b") "wget2go" = Done true.
Proof. reflexivity. Qed.

(** C6. The query of the robots parser selects a rule by user agent and tries
    allow rules before disallow rules; the query the queue manager answers
    (IsAllowedByRobots) does neither: it reads no user agent and no allow
    rule, and denies a URL as soon as any rule of the host has a Disallow
    entry that is a prefix of the path. *)
Theorem IsAllowedByRobots_ignores_user_agent :
  let googlebot := mkRobotsRules "googlebot" ["/x"] [] 0 [] in
  let any := mkRobotsRules "*" ["/x"] ["/x/public"] 0 [] in
  let m1 := Manager.SetRobotsParser Manager.New "h"
              (mkRobotsParser [googlebot] None []) in
  let m2 := Manager.SetRobotsParser Manager.New "h"
              (mkRobotsParser [any] (Some any) []) in
  Manager.IsAllowedByRobots m1 "http://h/x/a" "wget2go" = Done false /\
  @Robots.IsAllowed ascii_tables (Robots.mkParser [googlebot] None [])
    "http://h/x/a" "wget2go" = Done true /\
  Manager.IsAllowedByRobots m2 "http://h/x/public/a" "wget2go" = Done false /\
  @Robots.IsAllowed ascii_tables (Robots.mkParser [any] (Some 0%nat) [])
    "http://h/x/public/a" "wget2go" = Done true.
Proof. vm_compute. repeat split. Qed.

(** ** The URL queue and its manager *)

Section QueueFacts.
Import Manager.

Lemma map_get_insert (m : gmap string bool) (k k' : string) :
  map_get (<[k := true]> m) k' = if decide (k = k') then true else map_get m k'.
Proof.
  unfold map_get. destruct (decide (k = k')) as [->|Hne].
  - rewrite lookup_insert_eq. reflexivity.
  - rewrite lookup_insert_ne by assumption. reflexivity.
Qed.

(** [URLQueue.Pop] does not touch the index. *)
Lemma Pop_keeps_index (q : URLQueue.t) :
  URLQueue.Index (fst (URLQueue.Pop q)) = URLQueue.Index q.
Proof. unfold URLQueue.Pop. destruct (URLQueue.Jobs q); reflexivity. Qed.

(** [URLQueue.Add] only ever adds to the index. *)
Lemma URLQueue_Add_keeps (q : URLQueue.t) (job : Job) (url : string) :
  URLQueue.Contains q url = true ->
  URLQueue.Contains (fst (URLQueue.Add q job)) url = true.
Proof.
  unfold URLQueue.Contains, URLQueue.Add. intros H.
  destruct (map_get (URLQueue.Index q) (JobURL job)); simpl; [assumption|].
  rewrite map_get_insert. destruct (decide _); [reflexivity|assumption].
Qed.

Lemma URLQueue_Add_contains (q : URLQueue.t) (job : Job) :
  URLQueue.Contains (fst (URLQueue.Add q job)) (JobURL job) = true.
Proof.
  unfold URLQueue.Contains, URLQueue.Add.
  destruct (map_get (URLQueue.Index q) (JobURL job)) eqn:E; simpl; [assumption|].
  rewrite map_get_insert. destruct (decide _); [reflexivity|congruence].
Qed.

Lemma Add_queue (m : t) (job : Job) :
  queue (fst (Add m job)) = queue m \/
  queue (fst (Add m job)) = fst (URLQueue.Add (queue m) job).
Proof.
  unfold Add.
  destruct (map_get (blacklist m) (JobURL job)); [left; reflexivity|].
  destruct (map_get (visited m) (JobURL job)); [left; reflexivity|].
  destruct (URLQueue.Add (queue m) job) as [q added] eqn:E.
  right. destruct added; reflexivity.
Qed.

Lemma Add_keeps (m : t) (job : Job) (url : string) :
  Contains m url = true -> Contains (fst (Add m job)) url = true.
Proof.
  unfold Contains. intros H. destruct (Add_queue m job) as [-> | ->];
    [assumption | apply URLQueue_Add_keeps; assumption].
Qed.

Lemma AddBatch_keeps (jobs : list Job) (m : t) (url : string) :
  Contains m url = true -> Contains (AddBatch m jobs) url = true.
Proof.
  unfold AddBatch. revert m.
  induction jobs as [|job jobs IH]; intros m H; simpl; [assumption|].
  apply IH.
  destruct (map_get (blacklist m) (JobURL job)); [assumption|].
  destruct (map_get (visited m) (JobURL job)); [assumption|].
  unfold Contains. simpl. apply URLQueue_Add_keeps. assumption.
Qed.

Lemma Remove_other_keeps (m : t) (url url' : string) :
  url' <> url -> Contains m url = true -> Contains (fst (Remove m url')) url = true.
Proof.
  unfold Remove, Contains. intros Hne H.
  destruct (negb (URLQueue.Contains (queue m) url')); [assumption|].
  destruct (remove_first (URLQueue.Jobs (queue m)) url'); [|assumption].
  simpl. unfold URLQueue.Contains, map_get in *. simpl.
  rewrite lookup_delete_ne by assumption. assumption.
Qed.

(** Every call other than [Clear] and [Remove(url)] keeps the entry. *)
Lemma step_keeps (m : t) (o : op) (url : string) :
  keeps url o -> Contains m url = true -> Contains (step m o) url = true.
Proof.
  destruct o; simpl; intros Hk H; try assumption.
  - apply Add_keeps; assumption.
  - unfold Pop, Contains, URLQueue.Contains in *.
    pose proof (Pop_keeps_index (queue m)) as Hp.
    destruct (URLQueue.Pop (queue m)) as [q j]. simpl in *. rewrite Hp. assumption.
  - contradiction.
  - apply AddBatch_keeps; assumption.
  - apply Remove_other_keeps; assumption.
Qed.

Lemma run_keeps (ops : list op) (m : t) (url : string) :
  Forall (keeps url) ops -> Contains m url = true -> Contains (run m ops) url = true.
Proof.
  unfold run. revert m. induction ops as [|o ops IH]; intros m Hk H; simpl;
    [assumption|].
  inversion Hk; subst. apply IH; [assumption|]. apply step_keeps; assumption.
Qed.

(** While the entry is there, the queue and the manager refuse the URL. *)
Lemma Contains_refuses (m : t) (job : Job) :
  Contains m (JobURL job) = true ->
  snd (URLQueue.Add (queue m) job) = false /\
  fst (URLQueue.Add (queue m) job) = queue m /\
  is_Some (snd (Add m job)).
Proof.
  unfold Contains, URLQueue.Contains. intros H.
  assert (E : URLQueue.Add (queue m) job = (queue m, false))
    by (unfold URLQueue.Add; rewrite H; reflexivity).
  rewrite E. repeat split. unfold Add.
  destruct (map_get (blacklist m) (JobURL job)); [eexists; reflexivity|].
  destruct (map_get (visited m) (JobURL job)); [eexists; reflexivity|].
  rewrite E. eexists; reflexivity.
Qed.

(** [Remove(url)] deletes the entry only while the job is still queued:
    once the job has been popped, it returns false and leaves the entry. *)
Lemma Remove_after_pop (m : t) (url : string) :
  Forall (fun job => JobURL job <> url) (URLQueue.Jobs (queue m)) ->
  Remove m url = (m, false).
Proof.
  unfold Remove. intros H.
  destruct (negb (URLQueue.Contains (queue m) url)); [reflexivity|].
  assert (E : remove_first (URLQueue.Jobs (queue m)) url = None).
  { induction H as [|job jobs Hj _ IH]; simpl; [reflexivity|].
    destruct (String.eqb_spec (JobURL job) url); [contradiction|].
    rewrite IH. reflexivity. }
  rewrite E. reflexivity.
Qed.

End QueueFacts.

(** C9. Pop never removes a URL's entry from the queue's dedup index: once a
    job with URL u has been added, Contains(u) stays true and every later Add
    of a job with URL u is refused, whatever is called on the manager
    afterwards (Pop, MarkVisited, ...), as long as the queue lives (no Clear)
    and Remove(u) is not called. *)
Theorem index_entry_survives_pop (m m1 : Manager.t) (job : Job) (ops : list Manager.op) :
  Manager.Add m job = (m1, None) ->
  Forall (Manager.keeps (JobURL job)) ops ->
  URLQueue.Index (fst (URLQueue.Pop (Manager.queue m1))) = URLQueue.Index (Manager.queue m1) /\
  Manager.Contains (Manager.run m1 ops) (JobURL job) = true /\
  forall job', JobURL job' = JobURL job ->
    snd (URLQueue.Add (Manager.queue (Manager.run m1 ops)) job') = false /\
    is_Some (snd (Manager.Add (Manager.run m1 ops) job')).
Proof.
  intros Hadd Hops.
  assert (H1 : Manager.Contains m1 (JobURL job) = true).
  { unfold Manager.Add in Hadd.
    destruct (map_get (Manager.blacklist m) (JobURL job)); [discriminate|].
    destruct (map_get (Manager.visited m) (JobURL job)); [discriminate|].
    pose proof (URLQueue_Add_contains (Manager.queue m) job) as Hc.
    destruct (URLQueue.Add (Manager.queue m) job) as [q added].
    destruct added; [|discriminate]. injection Hadd as <-. exact Hc. }
  split; [apply Pop_keeps_index|].
  pose proof (run_keeps ops m1 (JobURL job) Hops H1) as H2.
  split; [exact H2|].
  intros job' E. rewrite <- E in H2.
  destruct (Contains_refuses _ _ H2) as (Ha & _ & Hb). split; assumption.
Qed.

Lemma index_entry_survives_pop_witness :
  Manager.Contains
    (Manager.run (fst (Manager.Add Manager.New (queue_job "http://h/a")))
       [Manager.OpPop; Manager.OpMarkVisited "http://h/a";
        Manager.OpClearVisited])
    "http://h/a" = true.
Proof.
  apply (index_entry_survives_pop Manager.New _ (queue_job "http://h/a")
           [Manager.OpPop; Manager.OpMarkVisited "http://h/a";
            Manager.OpClearVisited]).
  - reflexivity.
  - repeat constructor.
Defined.

(** After the pop, even [Remove] leaves the entry: the URL can no longer be
    queued. *)
Example Remove_after_pop_example :
  let m := Manager.run (fst (Manager.Add Manager.New (queue_job "http://h/a")))
             [Manager.OpPop; Manager.OpRemove "http://h/a"] in
  Manager.Contains m "http://h/a" = true /\
  URLQueue.Jobs (Manager.queue m) = [] /\
  is_Some (snd (Manager.Add m (queue_job "http://h/a"))).
Proof. vm_compute. repeat split. eexists; reflexivity. Qed.

(** While the job is queued, [Remove] deletes the entry and the URL can be
    added again. *)
Example Remove_while_queued_example :
  let m := Manager.run (fst (Manager.Add Manager.New (queue_job "http://h/a")))
             [Manager.OpRemove "http://h/a"] in
  Manager.Contains m "http://h/a" = false /\
  snd (Manager.Add m (queue_job "http://h/a")) = None.
Proof. vm_compute. repeat split. Qed.

(** ** HTML link extraction *)

Section HTMLFacts.
Context `{GoUnicode}.
Import GoStrings HTML.

(** The values the first loop of [extractURLs] passes over: empty, a lone
    hash sign, and those starting with javascript: or data:. *)
Lemma extract_attr_skips (tag attrName baseURL : string) (result : ParsedResult)
    (attr : Attribute) :
  TrimSpace (Val attr) = "" \/ TrimSpace (Val attr) = "#" \/
  HasPrefix (TrimSpace (Val attr)) "javascript:" = true \/
  HasPrefix (TrimSpace (Val attr)) "data:" = true ->
  extract_attr tag attrName baseURL result attr = Done result.
Proof.
  intros Hv. unfold extract_attr.
  destruct (EqualFold (Key attr) attrName); [|reflexivity].
  destruct Hv as [-> | [-> | [-> | ->]]]; rewrite ?orb_true_r; reflexivity.
Qed.

(** A form's action is never extracted. *)
Lemma extract_attr_action (tag baseURL : string) (result : ParsedResult)
    (attr : Attribute) :
  extract_attr tag "action" baseURL result attr = Done result.
Proof.
  unfold extract_attr.
  destruct (EqualFold (Key attr) "action"); [|reflexivity].
  destruct (_ || _ || _ || _); reflexivity.
Qed.

(** [resolveURL] passes over the empty value and, in any letter case, values
    starting with javascript:, mailto:, tel: or a hash sign. *)
Lemma resolveURL_skips (v : string) :
  v = "" \/ HasPrefix (ToLower v) "javascript:" = true \/
  HasPrefix (ToLower v) "mailto:" = true \/ HasPrefix (ToLower v) "tel:" = true \/
  HasPrefix (ToLower v) "#" = true ->
  resolveURL v = Done "".
Proof.
  intros Hv. unfold resolveURL.
  destruct (is_empty v) eqn:E; [reflexivity|].
  destruct Hv as [-> | [-> | [-> | [-> | ->]]]]; rewrite ?orb_true_r;
    try reflexivity.
  discriminate.
Qed.

End HTMLFacts.

(** C7. Values starting with mailto: or tel: are not skipped by the
    extractor that yields ParsedURLs (Parser.extractURLs): each comes out as
    a ParsedURL. The older extractor (HTMLExtractor.resolveURL) skips both,
    and in turn lets data: values through. *)
Theorem extractURLs_yields_mailto :
  HTML.URLs <$>
    (@HTML.extractURLs ascii_tables
       (HTML.mkNode "a" [HTML.mkAttr "href" "mailto:a@b"]) "http://h/"
       HTML.empty_result) =
    Done [HTML.mkParsedURL "mailto:a@b" "href" "a" 0] /\
  HTML.URLs <$>
    (@HTML.extractURLs ascii_tables
       (HTML.mkNode "a" [HTML.mkAttr "href" "tel:+1555"]) "http://h/"
       HTML.empty_result) =
    Done [HTML.mkParsedURL "tel:+1555" "href" "a" 0] /\
  @HTML.resolveURL ascii_tables "mailto:a@b" = Done "" /\
  @HTML.resolveURL ascii_tables "tel:+1555" = Done "" /\
  @HTML.resolveURL ascii_tables "data:text/plain,hi" = Done "data:text/plain,hi".
Proof. vm_compute. repeat split. Qed.

(** The values that are skipped, on the same element. *)
Example extractURLs_skips :
  Forall
    (fun v =>
       @HTML.extractURLs ascii_tables (HTML.mkNode "a" [HTML.mkAttr "href" v])
         "http://h/" HTML.empty_result = Done HTML.empty_result)
    [""; "#"; " # "; "javascript:void(0)"; "data:text/plain,hi"].
Proof. repeat constructor. Qed.

(** An absolute link is extracted as it is written. *)
Example extractURLs_absolute :
  HTML.URLs <$>
    (@HTML.extractURLs ascii_tables
       (HTML.mkNode "IMG" [HTML.mkAttr "src" "http://h/i.png";
                           HTML.mkAttr "style" "background:url('http://h/b.png')"])
       "http://h/" HTML.empty_result) =
    Done [HTML.mkParsedURL "http://h/i.png" "src" "img" 0;
          HTML.mkParsedURL "http://h/b.png" "style" "*" 0].
Proof. reflexivity. Qed.

(** ** Saving the resume state *)

Section StateFacts.
Import World Chunked.

Lemma saveDownloadState_steps_eq (outputPath : string) (chunks : list Chunk) :
  saveDownloadState_steps outputPath chunks =
  [StepOpenTrunc (outputPath +:+ ".wget2go.state");
   StepWrite (outputPath +:+ ".wget2go.state")
     (json_MarshalIndent (chunk_state <$> chunks))].
Proof. reflexivity. Qed.

Lemma os_WriteFile_effect (fs : FS) (name data : string) :
  apply_steps fs (os_WriteFile_steps name data) = <[name := data]> fs.
Proof.
  unfold apply_steps, os_WriteFile_steps. simpl.
  rewrite alter_insert_eq. reflexivity.
Qed.

Lemma saveDownloadState_effect (outputPath : string) (chunks : list Chunk) (w : World.t) :
  saveDownloadState outputPath chunks w =
  Done (Ok tt,
        World.mk (<[createStateFileName outputPath :=
                      json_MarshalIndent (chunk_state <$> chunks)]> (fs w))
          (requests w)).
Proof.
  unfold saveDownloadState, os_WriteFile.
  unfold mbind, mret, Go_bind, Go_ret, get_fs, put_fs. cbv beta iota.
  rewrite os_WriteFile_effect. reflexivity.
Qed.

End StateFacts.

Example state_file_content :
  Chunked.json_MarshalIndent
    (Chunked.chunk_state <$> [mkChunk 0 0 4 5 5 TaskCompleted]) =
  text_lines
    [ "["; "  {";
      "    " +:+ Chunked.dq +:+ "index" +:+ Chunked.dq +:+ ": 0,";
      "    " +:+ Chunked.dq +:+ "start" +:+ Chunked.dq +:+ ": 0,";
      "    " +:+ Chunked.dq +:+ "end" +:+ Chunked.dq +:+ ": 4,";
      "    " +:+ Chunked.dq +:+ "size" +:+ Chunked.dq +:+ ": 5,";
      "    " +:+ Chunked.dq +:+ "completed" +:+ Chunked.dq +:+ ": 5,";
      "    " +:+ Chunked.dq +:+ "status" +:+ Chunked.dq +:+ ": 2";
      "  }" ] +:+ "]".
Proof. reflexivity. Qed.

(** C5, as stated, fails: the state is written in place. Between the two
    system calls of os.WriteFile the state file exists and is empty, and no
    step of the save is a rename. *)
Lemma saveDownloadState_not_atomic :
  ~ atomic_save ∅ "out" [mkChunk 0 0 4 5 5 TaskCompleted] /\
  World.apply_steps ∅
    (take 1 (Chunked.saveDownloadState_steps "out" [mkChunk 0 0 4 5 5 TaskCompleted]))
    !! "out.wget2go.state" = Some "" /\
  existsb is_rename
    (Chunked.saveDownloadState_steps "out" [mkChunk 0 0 4 5 5 TaskCompleted]) = false.
Proof.
  split; [|split; reflexivity].
  intros Hat. specialize (Hat 1%nat). cbv zeta in Hat.
  destruct Hat as [Hat | Hat]; vm_compute in Hat; discriminate.
Qed.

(** C5, amended. For every output path and chunk list, saving the resume
    state writes the JSON array of the {index,start,end,size,completed,status}
    records (null when there is no chunk) to <outputPath>.wget2go.state with
    one os.WriteFile, in place: the file is truncated, then written. No
    temporary file and no rename are involved, no other file is touched, and
    between the two steps the state file exists and is empty. *)
Theorem saveDownloadState_in_place (fs : gmap string string) (requests : list World.Request)
    (outputPath : string) (chunks : list Chunk) :
  let stateFile := outputPath +:+ ".wget2go.state" in
  let data := Chunked.json_MarshalIndent (Chunked.chunk_state <$> chunks) in
  let steps := Chunked.saveDownloadState_steps outputPath chunks in
  Chunked.createStateFileName outputPath = stateFile /\
  steps = [World.StepOpenTrunc stateFile; World.StepWrite stateFile data] /\
  Chunked.saveDownloadState outputPath chunks (World.mk fs requests) =
    Done (Ok tt, World.mk (<[stateFile := data]> fs) requests) /\
  World.apply_steps fs (take 1 steps) !! stateFile = Some "" /\
  (forall (k : nat) (path : string),
     path <> stateFile -> World.apply_steps fs (take k steps) !! path = fs !! path) /\
  (chunks = [] -> data = "null").
Proof.
  cbv zeta. repeat split.
  - apply saveDownloadState_effect.
  - apply lookup_insert_eq.
  - intros k path Hne.
    unfold Chunked.saveDownloadState_steps, World.os_WriteFile_steps,
      Chunked.createStateFileName.
    destruct k as [|[|[|k]]]; unfold World.apply_steps; simpl take;
      simpl fold_left; unfold World.apply_step;
      rewrite ?lookup_alter_ne, ?lookup_insert_ne by congruence; reflexivity.
  - intros ->. reflexivity.
Qed.

(** ** Paths *)

Lemma append_inj_l (p a b : string) : p +:+ a = p +:+ b -> a = b.
Proof.
  induction p as [|c p IH]; intros E; [exact E|].
  change (String c (p +:+ a) = String c (p +:+ b)) in E.
  injection E as E. auto.
Qed.

Lemma append_empty_r (p : string) : p +:+ "" = p.
Proof.
  induction p as [|c p IH]; [reflexivity|].
  change (String c (p +:+ "") = String c p). f_equal. exact IH.
Qed.

Lemma append_neq_self (p a : string) : a <> "" -> p +:+ a <> p.
Proof.
  intros Ha E. rewrite <- (append_empty_r p) in E at 2.
  apply append_inj_l in E. contradiction.
Qed.

Lemma tmp_neq_output (outputPath : string) : outputPath +:+ ".tmp" <> outputPath.
Proof. apply append_neq_self. discriminate. Qed.

Lemma state_neq_output (outputPath : string) :
  outputPath +:+ ".wget2go.state" <> outputPath.
Proof. apply append_neq_self. discriminate. Qed.

Lemma state_neq_tmp (outputPath : string) :
  outputPath +:+ ".wget2go.state" <> outputPath +:+ ".tmp".
Proof. intros E. apply append_inj_l in E. discriminate. Qed.

Lemma string_length_append (a b : string) :
  String.length (a +:+ b) = (String.length a + String.length b)%nat.
Proof.
  induction a as [|c a IH]; [reflexivity|].
  change (S (String.length (a +:+ b)) = S (String.length a + String.length b)).
  f_equal. exact IH.
Qed.

Lemma substring_length (n m : nat) (s : string) :
  (n + m <= String.length s)%nat -> String.length (substring n m s) = m.
Proof.
  revert n m. induction s as [|c s IH]; intros n m Hl; simpl in Hl.
  - assert (n = O /\ m = O) as [-> ->] by lia. reflexivity.
  - destruct n as [|n]; simpl.
    + destruct m as [|m]; [reflexivity|]. simpl. f_equal. apply IH. lia.
    + apply IH. lia.
Qed.

(** ** Running the downloader *)

Section DownloadFacts.
Import World Chunked.
Context {arch : GoArch} `{!Network} `{!Codecs} `{!GoUnicode}.

Lemma bind_run {A B : Type} (m : Go A) (f : A -> Go B) (w : World.t) :
  (m ≫= f) w =
  match m w with
  | Done (a, w') => f a w'
  | Panic => Panic
  | Beyond => Beyond
  end.
Proof. reflexivity. Qed.

Lemma deleteStateFile_run (outputPath : string) (w : World.t) :
  exists r,
    deleteStateFile outputPath w =
    Done (r, World.mk (delete (outputPath +:+ ".wget2go.state") (fs w)) (requests w)).
Proof.
  unfold deleteStateFile, createStateFileName, FileExists, os_Remove.
  unfold mbind, mret, Go_bind, Go_ret, get_fs, put_fs. cbv beta iota.
  destruct (fs w !! (outputPath +:+ ".wget2go.state")) as [c|] eqn:E.
  - rewrite bool_decide_eq_true_2 by (eexists; reflexivity).
    simpl. rewrite E. eexists. reflexivity.
  - rewrite bool_decide_eq_false_2 by (intros [? ?]; discriminate).
    exists (Ok tt). destruct w as [fs0 rq]. simpl in *.
    rewrite delete_id by assumption. reflexivity.
Qed.

(** What the end of the chunked download does, on every world in which the
    temporary file is there: it fails on a size other than the announced
    one and touches nothing; otherwise it removes the state file and moves
    the temporary file to the output path. *)
Lemma verify_and_publish_run (tempFile : File) (outputPath : string)
    (contentLength : Z) (w : World.t) (data : string) :
  file_path tempFile = outputPath +:+ ".tmp" ->
  fs w !! (outputPath +:+ ".tmp") = Some data ->
  (file_size data <> contentLength ->
   exists msg,
     verify_and_publish tempFile (outputPath +:+ ".tmp") outputPath contentLength w =
       Done (Err msg, w) /\
     GoStrings.HasPrefix msg "文件大小不匹配" = true) /\
  (file_size data = contentLength ->
   verify_and_publish tempFile (outputPath +:+ ".tmp") outputPath contentLength w =
     Done (Ok tt,
           World.mk
             (<[outputPath := data]>
                (delete (outputPath +:+ ".tmp")
                   (delete (outputPath +:+ ".wget2go.state") (fs w))))
             (requests w))).
Proof.
  intros Hp Hd. unfold verify_and_publish.
  rewrite bind_run. unfold file_Stat_Size, GetFileSize.
  rewrite bind_run. unfold get_fs. cbv beta iota. rewrite Hp, Hd.
  unfold mret, Go_ret. cbv beta iota zeta. split.
  - intros Hne. destruct (Z.eqb_spec (file_size data) contentLength); [contradiction|].
    cbn [negb]. cbv iota. eexists. split; reflexivity.
  - intros He. destruct (Z.eqb_spec (file_size data) contentLength); [|contradiction].
    cbn [negb]. cbv iota. rewrite bind_run.
    destruct (deleteStateFile_run outputPath w) as [r ->].
    rewrite bind_run. unfold os_Rename. rewrite bind_run.
    unfold get_fs. cbv beta iota. cbn [fs requests].
    rewrite lookup_delete_ne by apply state_neq_tmp. rewrite Hd.
    unfold mbind, Go_bind, put_fs, mret, Go_ret. cbv beta iota. reflexivity.
Qed.

(** Without the temporary file there is no success. *)
Lemma verify_and_publish_missing (tempFile : File) (outputPath : string)
    (contentLength : Z) (w : World.t) :
  file_path tempFile = outputPath +:+ ".tmp" ->
  fs w !! (outputPath +:+ ".tmp") = None ->
  exists msg,
    verify_and_publish tempFile (outputPath +:+ ".tmp") outputPath contentLength w =
    Done (Err msg, w).
Proof.
  intros Hp Hd. unfold verify_and_publish.
  rewrite bind_run. unfold file_Stat_Size, GetFileSize.
  rewrite bind_run. unfold get_fs. cbv beta iota. rewrite Hp, Hd.
  unfold mret, Go_ret. cbv beta iota. eexists. reflexivity.
Qed.

Lemma open_temp_path (cfg : Config) (outputPath : string) (chunks chunks' : list Chunk)
    (tempFile : File) (w w' : World.t) :
  open_temp cfg (outputPath +:+ ".tmp") outputPath chunks w =
    Done (Ok (tempFile, chunks'), w') ->
  file_path tempFile = outputPath +:+ ".tmp".
Proof.
  unfold open_temp.
  assert (Hfresh : forall w0 w1 f cs,
    (deleteStateFile outputPath ≫= fun _ =>
       os_Create (outputPath +:+ ".tmp") ≫= fun f =>
         mret match f with
              | Err e => Err ("创建临时文件失败: " +:+ e)
              | Ok tempFile => Ok (tempFile, chunks)
              end) w0 = Done (Ok (f, cs), w1) ->
    file_path f = outputPath +:+ ".tmp").
  { intros w0 w1 f cs. rewrite bind_run.
    destruct (deleteStateFile_run outputPath w0) as [r ->].
    unfold os_Create, mbind, mret, Go_bind, Go_ret, get_fs, put_fs.
    cbv beta iota. intros [= <- _ _]. reflexivity. }
  rewrite bind_run. unfold FileExists at 1. rewrite bind_run.
  unfold get_fs at 1. cbv beta iota. unfold mret at 1, Go_ret at 1. cbv beta iota.
  destruct (Continue cfg && bool_decide (is_Some (fs w !! (outputPath +:+ ".tmp")))).
  - rewrite bind_run.
    destruct (loadDownloadState outputPath chunks w) as [[[[loaded cs]|e] w1]| |];
      try discriminate.
    destruct loaded.
    + rewrite bind_run. unfold os_OpenFile_append. rewrite bind_run.
      unfold get_fs. cbv beta iota. unfold mret, Go_ret. cbv beta iota.
      destruct (fs w1 !! (outputPath +:+ ".tmp")); [|discriminate].
      rewrite bind_run. unfold file_Stat_Size, GetFileSize. rewrite bind_run.
      unfold get_fs. cbv beta iota. cbn [file_path].
      destruct (fs w1 !! (outputPath +:+ ".tmp")); cbv beta iota;
        [|discriminate].
      intros [= <- _ _]. reflexivity.
    + rewrite bind_run.
      destruct (os_Remove (outputPath +:+ ".tmp") w1) as [[r w2]| |];
        try discriminate.
      apply Hfresh.
  - apply Hfresh.
Qed.

End DownloadFacts.

Section ChunkedFacts.
Import World Chunked.
Context {arch : GoArch} `{!Network} `{!Codecs}.

(** A chunked download that succeeds leaves the output file, of the size the
    HEAD request announced, and neither the temporary file nor the state
    file. *)
Lemma downloadWithChunks_publishes (cfg : Config) (url outputPath : string)
    (fileInfo : HTTPResponse) (w w' : World.t) :
  downloadWithChunks cfg url outputPath fileInfo w = Done (Ok tt, w') ->
  exists data,
    fs w' !! outputPath = Some data /\
    file_size data = ContentLength fileInfo /\
    fs w' !! (outputPath +:+ ".tmp") = None /\
    fs w' !! (outputPath +:+ ".wget2go.state") = None.
Proof.
  unfold downloadWithChunks.
  destruct (Plan.planChunks _ _ _) as [chunks|]; [|discriminate].
  cbv zeta. rewrite bind_run.
  destruct (open_temp cfg (outputPath +:+ ".tmp") outputPath chunks w)
    as [[[[tempFile cs]|e] w1]| |] eqn:Eo; try discriminate.
  apply open_temp_path in Eo.
  rewrite bind_run.
  destruct (downloadChunks url tempFile cs outputPath w1) as [[[cs' [[]|e]] w2]| |];
    try discriminate.
  destruct (fs w2 !! (outputPath +:+ ".tmp")) as [data|] eqn:Et.
  - destruct (verify_and_publish_run tempFile outputPath (ContentLength fileInfo)
                w2 data Eo Et) as [Hbad Hgood].
    destruct (Z.eq_dec (file_size data) (ContentLength fileInfo)) as [Hs|Hs].
    + rewrite (Hgood Hs). intros [= <-]. exists data. cbn [fs].
      split; [apply lookup_insert_eq|]. split; [exact Hs|]. split.
      * rewrite lookup_insert_ne by (apply not_eq_sym, tmp_neq_output).
        apply lookup_delete_eq.
      * rewrite lookup_insert_ne by (apply not_eq_sym, state_neq_output).
        rewrite lookup_delete_ne by (apply not_eq_sym, state_neq_tmp).
        apply lookup_delete_eq.
    + destruct (Hbad Hs) as [msg [-> _]]. discriminate.
  - destruct (verify_and_publish_missing tempFile outputPath (ContentLength fileInfo)
                w2 Eo Et) as [msg ->].
    discriminate.
Qed.

End ChunkedFacts.


(** ** Single stream *)

Ltac run_bind :=
  match goal with
  | |- context [@mbind _ _ _ _ ?f ?m ?w] => rewrite (bind_run m f w)
  end.

Section SingleFacts.
Import GoStrings World Chunked.
Context {arch : GoArch} `{!Network} `{!Codecs} `{!GoUnicode}.

Lemma read_body_length (contentLength : Z) (body raw : string) :
  read_body contentLength body = (raw, None) ->
  0 < contentLength ->
  file_size raw = contentLength.
Proof.
  unfold read_body, file_size. intros E Hc.
  destruct (Z.ltb_spec contentLength 0); [lia|].
  destruct (Z.ltb_spec (Z.of_nat (String.length body)) contentLength);
    [discriminate|].
  injection E as <-. rewrite substring_length by lia. lia.
Qed.

Lemma decode_body_plain (contentEncoding raw payload : string) :
  decode_body contentEncoding raw = (Ok payload, false) -> payload = raw.
Proof.
  unfold decode_body.
  destruct (_ || _); [discriminate|].
  destruct (String.eqb _ _); [discriminate|].
  congruence.
Qed.

Lemma write_at_start (p : string) : write_at "" 0 p = p.
Proof.
  unfold write_at, string_drop. simpl.
  destruct (String.length p); exact (append_empty_r p).
Qed.

Lemma range_header_nonempty (z : Z) : is_empty ("bytes=" +:+ pretty z +:+ "-") = false.
Proof. reflexivity. Qed.


Lemma bool_decide_is_Some {A : Type} (o : option A) (a : A) :
  o = Some a -> bool_decide (is_Some o) = true.
Proof. intros ->. apply bool_decide_eq_true_2. eexists. reflexivity. Qed.

(** [downloadSingle] when it resumes, up to the answer to its request. *)
Lemma downloadSingle_resume_run (cfg : Config) (url outputPath old : string)
    (w : World.t) :
  Continue cfg = true ->
  fs w !! outputPath = Some old ->
  0 < file_size old ->
  let rangeHeader := "bytes=" +:+ pretty (file_size old) +:+ "-" in
  let w1 := World.mk (fs w) (requests w ++ [mkRequest "GET" url rangeHeader]) in
  downloadSingle cfg url outputPath w =
  match do_get (length (requests w)) url rangeHeader with
  | inl (RequestError msg) => Done (Err ("下载失败: " +:+ "创建GET请求失败: " +:+ msg), w1)
  | inl (TransportError msg) => Done (Err ("下载失败: " +:+ "执行GET请求失败: " +:+ msg), w1)
  | inr resp =>
      let status := RespStatus resp in
      if status =? 206 then
        let '(raw, readErr) := read_body (RespContentLength resp) (Body resp) in
        match decode_body (ContentEncoding resp) raw with
        | (Err e, _) => Done (Err e, w1)
        | (Ok payload, isCompressed) =>
            let w2 := World.mk (<[outputPath := old +:+ payload]> (fs w)) (requests w1) in
            match readErr with
            | Some e => Done (Err ("写入文件失败: " +:+ e), w2)
            | None =>
                if (RespContentLength resp >? 0) && negb isCompressed &&
                   negb (file_size payload =? RespContentLength resp)
                then Done (Err ("下载大小不匹配: 期望 " +:+ pretty (RespContentLength resp) +:+
                                ", 实际 " +:+ pretty (file_size payload)), w2)
                else Done (Ok tt, w2)
            end
        end
      else if status =? 200 then
        let '(raw, readErr) := read_body (RespContentLength resp) (Body resp) in
        match decode_body (ContentEncoding resp) raw with
        | (Err e, _) => Done (Err e, World.mk (<[outputPath := ""]> (fs w)) (requests w1))
        | (Ok payload, isCompressed) =>
            let w2 := World.mk (<[outputPath := payload]> (fs w)) (requests w1) in
            match readErr with
            | Some e => Done (Err ("写入文件失败: " +:+ e), w2)
            | None =>
                if (RespContentLength resp >? 0) && negb isCompressed &&
                   negb (file_size payload =? RespContentLength resp)
                then Done (Err ("下载大小不匹配: 期望 " +:+ pretty (RespContentLength resp) +:+
                                ", 实际 " +:+ pretty (file_size payload)), w2)
                else Done (Ok tt, w2)
            end
        end
      else Done (Err ("HTTP错误: " +:+ pretty status), w1)
  end.
Proof.
  intros Hc Ho Hs rangeHeader w1. unfold downloadSingle.
  run_bind. unfold FileExists at 1. rewrite (bind_run get_fs _ w).
  unfold get_fs at 1. cbv beta iota. unfold mret at 1, Go_ret at 1. cbv beta iota.
  rewrite Hc, (bool_decide_is_Some _ _ Ho). cbn [andb].
  run_bind. unfold GetFileSize. run_bind.
  unfold get_fs at 1. cbv beta iota. rewrite Ho.
  unfold mret at 1, Go_ret at 1. cbv beta iota zeta.
  assert (Hgt : (file_size old >? 0) = true) by (apply Z.gtb_lt; lia).
  rewrite Hgt. fold rangeHeader.
  run_bind. unfold Client.Get. run_bind.
  unfold exchange_get. cbv beta iota. fold w1.
  unfold mret at 1, Go_ret at 1. cbv beta iota.
  destruct (do_get (length (requests w)) url rangeHeader) as [[msg|msg]|resp];
    [reflexivity|reflexivity|].
  unfold rangeHeader at 1. rewrite range_header_nonempty. cbn [negb].
  unfold Client.StatusPartialContent, Client.StatusOK.
  destruct (RespStatus resp =? 206).
  - cbv beta iota. rewrite !Hgt. run_bind. unfold os_OpenFile_append. run_bind.
    unfold get_fs at 1. cbv beta iota. unfold mret at 1, Go_ret at 1. cbv beta iota.
    cbn [fs w1]. rewrite Ho.
    destruct (read_body _ _) as [raw readErr].
    destruct (decode_body _ _) as [[payload|e] c]; [|reflexivity].
    run_bind. unfold file_Write. run_bind.
    unfold get_fs at 1. cbv beta iota. cbn [file_path file_append fs w1]. rewrite Ho.
    unfold mbind, mret, Go_bind, Go_ret, put_fs. cbv beta iota.
    destruct readErr; [reflexivity|].
    destruct (_ && _); reflexivity.
  - destruct (RespStatus resp =? 200); [|reflexivity].
    cbv beta iota. change (0 >? 0) with false. cbv iota.
    run_bind. unfold os_Create.
    unfold mbind at 2 3, mret at 1, Go_bind at 2 3, Go_ret at 1, get_fs, put_fs.
    cbv beta iota. cbn [fs w1].
    destruct (read_body _ _) as [raw readErr].
    destruct (decode_body _ _) as [[payload|e] c]; [|reflexivity].
    run_bind. unfold file_Write. run_bind.
    unfold get_fs at 1. cbv beta iota. cbn [file_path file_append fs].
    rewrite lookup_insert_eq.
    unfold mbind, mret, Go_bind, Go_ret, put_fs. cbv beta iota.
    rewrite insert_insert_eq, write_at_start.
    destruct readErr; [reflexivity|].
    destruct (_ && _); reflexivity.
Qed.

Lemma string_drop_length (n : nat) (s : string) :
  (n <= String.length s)%nat ->
  String.length (string_drop n s) = (String.length s - n)%nat.
Proof. intros Hn. unfold string_drop. apply substring_length. lia. Qed.

End SingleFacts.

(** C4: single-stream resume. With continue enabled and an output file of
    size s > 0, downloadSingle sends one GET with the header Range: bytes=s-
    whatever happens next. On an answer whose body is read to its end and
    decodes, status 206 appends the body to the file and status 200 leaves
    the body alone in the file; any other status fails with an HTTP error
    and leaves the file as it was. When the 206 body is the resource from
    offset s on, the final size is the length of the resource. *)
Theorem downloadSingle_resume `{!World.Network} `{!World.Codecs} `{!GoUnicode}
    (cfg : Chunked.Config) (url outputPath old : string) (w : World.t) :
  Chunked.Continue cfg = true ->
  World.fs w !! outputPath = Some old ->
  0 < World.file_size old ->
  let rangeHeader := "bytes=" +:+ pretty (World.file_size old) +:+ "-" in
  let sent := World.requests w ++ [World.mkRequest "GET" url rangeHeader] in
  (exists r fs', Chunked.downloadSingle cfg url outputPath w = Done (r, World.mk fs' sent)) /\
  forall resp : World.Response,
    World.do_get (length (World.requests w)) url rangeHeader = inr resp ->
    (World.RespStatus resp <> 206 -> World.RespStatus resp <> 200 ->
     Chunked.downloadSingle cfg url outputPath w =
       Done (Err ("HTTP错误: " +:+ pretty (World.RespStatus resp)),
             World.mk (World.fs w) sent)) /\
    forall (raw payload : string) (isCompressed : bool),
      World.read_body (World.RespContentLength resp) (World.Body resp) = (raw, None) ->
      Chunked.decode_body (World.ContentEncoding resp) raw = (Ok payload, isCompressed) ->
      (World.RespStatus resp = 206 ->
       Chunked.downloadSingle cfg url outputPath w =
         Done (Ok tt, World.mk (<[outputPath := old +:+ payload]> (World.fs w)) sent) /\
       forall resource : string,
         (String.length old <= String.length resource)%nat ->
         payload = World.string_drop (String.length old) resource ->
         World.file_size (old +:+ payload) = World.file_size resource) /\
      (World.RespStatus resp = 200 ->
       Chunked.downloadSingle cfg url outputPath w =
         Done (Ok tt, World.mk (<[outputPath := payload]> (World.fs w)) sent)).
Proof.
  intros Hc Ho Hs rangeHeader sent.
  pose proof (downloadSingle_resume_run cfg url outputPath old w Hc Ho Hs) as Hrun.
  cbv zeta in Hrun. fold rangeHeader in Hrun. fold sent in Hrun.
  split.
  - rewrite Hrun.
    destruct (World.do_get _ _ _) as [[msg|msg]|resp]; [eauto|eauto|].
    destruct (World.RespStatus resp =? 206); [|destruct (World.RespStatus resp =? 200)].
    + destruct (World.read_body _ _) as [raw readErr].
      destruct (Chunked.decode_body _ _) as [[payload|e] c]; [|eauto].
      destruct readErr; [eauto|]. destruct (_ && _); eauto.
    + destruct (World.read_body _ _) as [raw readErr].
      destruct (Chunked.decode_body _ _) as [[payload|e] c]; [|eauto].
      destruct readErr; [eauto|]. destruct (_ && _); eauto.
    + eauto.
  - intros resp Hresp. rewrite Hresp in Hrun. cbv zeta in Hrun. split.
    + intros H206 H200. rewrite Hrun.
      destruct (Z.eqb_spec (World.RespStatus resp) 206); [contradiction|].
      destruct (Z.eqb_spec (World.RespStatus resp) 200); [contradiction|].
      reflexivity.
    + intros raw payload c Hread Hdec.
      assert (Hsize : (World.RespContentLength resp >? 0) && negb c &&
                      negb (World.file_size payload =? World.RespContentLength resp) = false).
      { destruct (Z.gtb_spec (World.RespContentLength resp) 0) as [Hpos|]; [|reflexivity].
        destruct c; [reflexivity|].
        apply decode_body_plain in Hdec. subst payload.
        rewrite (read_body_length _ _ _ Hread) by lia.
        rewrite Z.eqb_refl. reflexivity. }
      rewrite Hread, Hdec, Hsize in Hrun. split.
      * intros H206. rewrite H206 in Hrun. split; [exact Hrun|].
        intros resource Hle ->. unfold World.file_size.
        rewrite string_length_append, string_drop_length by exact Hle. lia.
      * intros H200. rewrite H200 in Hrun. exact Hrun.
Qed.

Lemma downloadSingle_resume_witness :
  let w := World.mk {[ "out" := "0123" ]} [] in
  let sent := [World.mkRequest "GET" "http://h/f" "bytes=4-"] in
  @Chunked.downloadSingle (Servers.range_server "0123456789") Servers.no_codecs
      ascii_tables (Chunked.mkConfig "" "" true 0 1) "http://h/f" "out" w =
    Done (Ok tt, World.mk (<[ "out" := "0123" +:+ "456789" ]> (World.fs w)) sent) /\
  @Chunked.downloadSingle (Servers.plain_server "0123456789") Servers.no_codecs
      ascii_tables (Chunked.mkConfig "" "" true 0 1) "http://h/f" "out" w =
    Done (Ok tt, World.mk (<[ "out" := "0123456789" ]> (World.fs w)) sent).
Proof.
  intros w sent. split.
  - destruct (@downloadSingle_resume (Servers.range_server "0123456789")
                Servers.no_codecs ascii_tables (Chunked.mkConfig "" "" true 0 1)
                "http://h/f" "out" "0123" w eq_refl eq_refl eq_refl) as [_ Hresp].
    destruct (Hresp (World.mkResponse 206 6 "" "456789") eq_refl) as [_ Hbody].
    destruct (Hbody "456789" "456789" false eq_refl eq_refl) as [H206 _].
    exact (proj1 (H206 eq_refl)).
  - destruct (@downloadSingle_resume (Servers.plain_server "0123456789")
                Servers.no_codecs ascii_tables (Chunked.mkConfig "" "" true 0 1)
                "http://h/f" "out" "0123" w eq_refl eq_refl eq_refl) as [_ Hresp].
    destruct (Hresp (World.mkResponse 200 10 "" "0123456789") eq_refl) as [_ Hbody].
    destruct (Hbody "0123456789" "0123456789" false eq_refl eq_refl) as [_ H200].
    exact (H200 eq_refl).
Defined.

(** ** The probe and the fallback *)

Section FallbackFacts.
Import GoStrings World Chunked.
Context {arch : GoArch} `{!Network} `{!Codecs} `{!GoUnicode}.

Lemma Contains_skip (c : ascii) (s sub : string) :
  String.prefix sub (String c s) = false ->
  Contains (String c s) sub = Contains s sub.
Proof. intros E. cbn [Contains]. rewrite E. reflexivity. Qed.

Lemma isRangeNotSupportedError_transport (msg : string) :
  isRangeNotSupportedError ("执行GET请求失败: " +:+ msg) = isRangeNotSupportedError msg.
Proof.
  unfold isRangeNotSupportedError.
  let t := eval cbv in ("执行GET请求失败: " +:+ msg) in
  change ("执行GET请求失败: " +:+ msg) with t.
  rewrite !Contains_skip by reflexivity. reflexivity.
Qed.

Lemma isRangeNotSupportedError_request (msg : string) :
  isRangeNotSupportedError ("创建GET请求失败: " +:+ msg) = isRangeNotSupportedError msg.
Proof.
  unfold isRangeNotSupportedError.
  let t := eval cbv in ("创建GET请求失败: " +:+ msg) in
  change ("创建GET请求失败: " +:+ msg) with t.
  rewrite !Contains_skip by reflexivity. reflexivity.
Qed.

Lemma isRangeNotSupportedError_status (status : Z) :
  isRangeNotSupportedError ("服务器不支持范围请求，状态码: " +:+ pretty status) = true.
Proof. reflexivity. Qed.

(** [DownloadRange] from the answer of the network. *)
Lemma DownloadRange_run (url : string) (start end_ : Z) (w : World.t) :
  let rangeHeader := "bytes=" +:+ pretty start +:+ "-" +:+ pretty end_ in
  Client.DownloadRange url start end_ w =
  Done (match do_get (length (requests w)) url rangeHeader with
        | inl (RequestError msg) => Err ("创建GET请求失败: " +:+ msg)
        | inl (TransportError msg) => Err ("执行GET请求失败: " +:+ msg)
        | inr resp =>
            if RespStatus resp =? 206 then Ok resp
            else Err ("服务器不支持范围请求，状态码: " +:+ pretty (RespStatus resp))
        end,
        World.mk (fs w) (requests w ++ [mkRequest "GET" url rangeHeader])).
Proof.
  intros rangeHeader. unfold Client.DownloadRange. cbv zeta. fold rangeHeader.
  run_bind. unfold Client.Get. run_bind. unfold exchange_get.
  unfold mret, Go_ret. cbv beta iota.
  destruct (do_get _ _ _) as [[msg|msg]|resp]; try reflexivity.
  unfold Client.StatusPartialContent. destruct (RespStatus resp =? 206); reflexivity.
Qed.

(** [Download] on a file for which [shouldUseChunks] holds, from the answer
    of the network to the probe. *)
Lemma Download_run (cfg : Config) (url outputPath : string) (w w1 : World.t)
    (fileInfo : HTTPResponse) (finalOutputPath : string) :
  getFileInfo url w = Done (Ok fileInfo, w1) ->
  getOutputPath cfg outputPath url = Done finalOutputPath ->
  shouldUseChunks cfg fileInfo = true ->
  let w2 := World.mk (fs w1) (requests w1 ++ [mkRequest "GET" url "bytes=0-0"]) in
  let single := downloadSingle cfg url finalOutputPath w2 in
  let chunked := chunked_with_fallback cfg url finalOutputPath fileInfo w2 in
  Download cfg url outputPath w =
  match do_get (length (requests w1)) url "bytes=0-0" with
  | inl (RequestError msg) =>
      if isRangeNotSupportedError ("创建GET请求失败: " +:+ msg) then single else chunked
  | inl (TransportError msg) =>
      if isRangeNotSupportedError ("执行GET请求失败: " +:+ msg) then single else chunked
  | inr resp => if RespStatus resp =? 206 then chunked else single
  end.
Proof.
  intros Hfi Hout Hchunks w2 single chunked. unfold Download.
  run_bind. rewrite Hfi. run_bind. unfold lift_outcome. rewrite Hout, Hchunks.
  run_bind. rewrite DownloadRange_run. cbv zeta.
  change ("bytes=" +:+ pretty 0 +:+ "-" +:+ pretty 0) with "bytes=0-0".
  fold w2.
  destruct (do_get _ _ _) as [[msg|msg]|resp].
  - destruct (isRangeNotSupportedError _); reflexivity.
  - destruct (isRangeNotSupportedError _); reflexivity.
  - destruct (RespStatus resp =? 206); reflexivity.
Qed.

End FallbackFacts.

(** What decides the fallback of Download. When shouldUseChunks holds, the
    first GET of Download is the probe for bytes 0-0. Download goes to the single stream when the
    probe is answered with a status other than 206, and goes on with the
    chunked download when it is answered with 206. When the probe gets no
    answer, what decides is the text of the error of the network: with one
    of the three marker texts in it Download goes to the single stream,
    without one it goes on with the chunked download. The chunked attempt
    falls back in the same way, on the text of its error. DownloadRange
    fails on every status other than 206, with an error that has a
    marker. *)
Lemma Download_fallback_by_error_text {arch : GoArch} `{!World.Network} `{!World.Codecs}
    `{!GoUnicode}
    (cfg : Chunked.Config) (url outputPath : string) (w w1 : World.t)
    (fileInfo : World.HTTPResponse) (finalOutputPath : string) :
  Chunked.getFileInfo url w = Done (Ok fileInfo, w1) ->
  Chunked.getOutputPath cfg outputPath url = Done finalOutputPath ->
  Chunked.shouldUseChunks cfg fileInfo = true ->
  let answer := World.do_get (length (World.requests w1)) url "bytes=0-0" in
  let w2 := World.mk (World.fs w1)
              (World.requests w1 ++ [World.mkRequest "GET" url "bytes=0-0"]) in
  let single := Chunked.downloadSingle cfg url finalOutputPath w2 in
  let chunked := Chunked.chunked_with_fallback cfg url finalOutputPath fileInfo w2 in
  (exists probe, Client.DownloadRange url 0 0 w1 = Done (probe, w2)) /\
  (RangeNotSupported answer -> Chunked.Download cfg url outputPath w = single) /\
  (forall resp : World.Response,
     answer = inr resp -> World.RespStatus resp = 206 ->
     Chunked.Download cfg url outputPath w = chunked) /\
  (forall (err : World.net_error) (msg : string),
     answer = inl err ->
     err = World.TransportError msg \/ err = World.RequestError msg ->
     Chunked.Download cfg url outputPath w =
       if Chunked.isRangeNotSupportedError msg then single else chunked) /\
  (forall w0 : World.t,
     Chunked.chunked_with_fallback cfg url finalOutputPath fileInfo w0 =
     match Chunked.downloadWithChunks cfg url finalOutputPath fileInfo w0 with
     | Done (Err e, w3) =>
         if Chunked.isRangeNotSupportedError e
         then Chunked.downloadSingle cfg url finalOutputPath w3
         else Done (Err e, w3)
     | Done (Ok _, w3) => Done (Ok tt, w3)
     | Panic => Panic
     | Beyond => Beyond
     end) /\
  (forall (start end_ : Z) (w0 : World.t) (resp : World.Response),
     World.do_get (length (World.requests w0)) url
       ("bytes=" +:+ pretty start +:+ "-" +:+ pretty end_) = inr resp ->
     World.RespStatus resp <> 206 ->
     exists msg w',
       Client.DownloadRange url start end_ w0 = Done (Err msg, w') /\
       Chunked.isRangeNotSupportedError msg = true).
Proof.
  intros Hfi Hout Hchunks answer w2 single chunked.
  pose proof (Download_run cfg url outputPath w w1 fileInfo finalOutputPath
                Hfi Hout Hchunks) as Hrun.
  cbv zeta in Hrun. fold answer w2 in Hrun. fold single chunked in Hrun.
  repeat split.
  - rewrite DownloadRange_run. eexists. reflexivity.
  - intros Hno. rewrite Hrun. unfold RangeNotSupported in Hno.
    destruct answer as [?|resp]; [contradiction|].
    unfold Client.StatusPartialContent in Hno.
    destruct (Z.eqb_spec (World.RespStatus resp) 206); [contradiction|reflexivity].
  - intros resp Ha H206. rewrite Hrun, Ha, H206. reflexivity.
  - intros err msg Ha [->| ->]; rewrite Hrun, Ha.
    + rewrite isRangeNotSupportedError_transport. reflexivity.
    + rewrite isRangeNotSupportedError_request. reflexivity.
  - intros w0. unfold Chunked.chunked_with_fallback. rewrite bind_run.
    destruct (Chunked.downloadWithChunks _ _ _ _ w0) as [[[[]|e] w3]| |];
      try reflexivity.
    destruct (Chunked.isRangeNotSupportedError e); reflexivity.
  - intros start end_ w0 resp Ha Hno. rewrite DownloadRange_run. cbv zeta.
    rewrite Ha.
    destruct (Z.eqb_spec (World.RespStatus resp) 206); [contradiction|].
    eexists _, _. split; [reflexivity|]. apply isRangeNotSupportedError_status.
Qed.

(** C3. The claim is what the comments of Download and the doc comment of
    isRangeNotSupportedError say: only a server that does not support ranges
    sends Download to the single stream, and a probe lost on the network is
    followed by the chunked download. The code decides by searching the text
    of the error for three markers. A probe that times out is followed by
    the chunked download when the URL is http://h/f, and by the single
    stream when the URL is http://h/f?q=range not supported, because the
    error text of the timeout quotes the URL: the server supports ranges,
    and the file is fetched in one unranged GET. *)
Theorem Download_takes_a_timeout_for_no_range_support {arch : GoArch} :
  let cfg := Chunked.mkConfig "" "" false 3 4 in
  let timeout (url : string) :=
    "Get " +:+ Chunked.dq +:+ url +:+ Chunked.dq +:+ ": context deadline exceeded" in
  let net (url : string) := Servers.lossy_server "0123456789" (timeout url) in
  let run (url : string) :=
    @Chunked.Download arch (net url) Servers.no_codecs ascii_tables cfg url "out"
      Servers.empty_world in
  let plain := "http://h/f" in
  let url := "http://h/f?q=range not supported" in
  @World.do_get (net plain) 1 plain "bytes=0-0" =
    inl (World.TransportError (timeout plain)) /\
  @World.do_get (net url) 1 url "bytes=0-0" = inl (World.TransportError (timeout url)) /\
  Chunked.isRangeNotSupportedError (timeout plain) = false /\
  Chunked.isRangeNotSupportedError (timeout url) = true /\
  run plain =
    Done (Ok tt,
          World.mk {[ "out" := "0123456789" ]}
            ([World.mkRequest "HEAD" plain ""; World.mkRequest "GET" plain "bytes=0-0"] ++
             (World.mkRequest "GET" plain <$>
                ["bytes=0-1"; "bytes=2-3"; "bytes=4-5"; "bytes=6-9"]))) /\
  run url =
    Done (Ok tt,
          World.mk {[ "out" := "0123456789" ]}
            [World.mkRequest "HEAD" url ""; World.mkRequest "GET" url "bytes=0-0";
             World.mkRequest "GET" url ""]) /\
  ~ @fallback_as_specified arch (net url) Servers.no_codecs ascii_tables cfg url "out"
      Servers.empty_world.
Proof.
  intros cfg timeout net run plain url.
  split; [reflexivity|]. split; [reflexivity|].
  split; [vm_compute; reflexivity|]. split; [vm_compute; reflexivity|].
  split; [destruct arch as [[|]]; vm_compute; reflexivity|].
  split; [destruct arch as [[|]]; vm_compute; reflexivity|].
  intros Hspec.
  destruct (Hspec (World.mkHTTPResponse 200 10 "application/octet-stream" "" true)
              (World.mk ∅ [World.mkRequest "HEAD" url ""]) "out"
              eq_refl eq_refl eq_refl) as [_ Hchunked].
  specialize (Hchunked (fun H => H)).
  apply (f_equal (fun o : outcome (result unit * World.t) =>
                    match o with
                    | Done (_, w') => length (World.requests w')
                    | _ => O
                    end)) in Hchunked.
  destruct arch as [[|]]; vm_compute in Hchunked; discriminate.
Qed.

(** ** The queue manager as its callers see it *)

Section QueueViewFacts.
Import Manager ManagerViews.

Lemma pop_n_all (m : t) :
  pop_n (length (URLQueue.Jobs (queue m))) m =
  (Some <$> URLQueue.Jobs (queue m),
   mk (URLQueue.mk [] (URLQueue.Index (queue m))) (blacklist m) (visited m) (hostMap m)).
Proof.
  destruct m as [[jobs index] bl vis hm]. simpl.
  induction jobs as [|job jobs IH]; simpl; [reflexivity|].
  unfold Pop. simpl. rewrite IH. reflexivity.
Qed.

Lemma AddBatch_fresh (jobs : list Job) (m : t) :
  NoDup (JobURL <$> jobs) ->
  Forall (fun job => IsInBlacklist m (JobURL job) = false /\
                     IsVisited m (JobURL job) = false /\
                     Contains m (JobURL job) = false) jobs ->
  AddBatch m jobs =
  mk (URLQueue.mk (URLQueue.Jobs (queue m) ++ jobs)
        (foldl (fun index job => <[JobURL job := true]> index)
           (URLQueue.Index (queue m)) jobs))
     (blacklist m) (visited m) (hostMap m).
Proof.
  unfold AddBatch. revert m.
  induction jobs as [|job jobs IH]; intros m Hnd Hf; simpl.
  - rewrite app_nil_r. destruct m as [[? ?] ? ? ?]. reflexivity.
  - apply NoDup_cons in Hnd as [Hnotin Hnd].
    apply Forall_cons in Hf as [(Hb & Hv & Hc) Hf].
    unfold IsInBlacklist, IsVisited in Hb, Hv. rewrite Hb, Hv.
    unfold Contains, URLQueue.Contains in Hc. unfold URLQueue.Add. rewrite Hc.
    simpl. rewrite IH; simpl.
    + rewrite <- app_assoc. reflexivity.
    + assumption.
    + apply Forall_forall. intros j Hj.
      rewrite Forall_forall in Hf. destruct (Hf j Hj) as (Hb' & Hv' & Hc').
      repeat split; try assumption.
      unfold Contains, URLQueue.Contains. simpl. rewrite map_get_insert.
      destruct (decide (JobURL job = JobURL j)) as [E|]; [|exact Hc'].
      exfalso. apply Hnotin. rewrite E. apply list_elem_of_fmap_2. assumption.
Qed.

Lemma remove_first_spec (jobs : list Job) (url : string) :
  NoDup (JobURL <$> jobs) ->
  In url (JobURL <$> jobs) ->
  remove_first jobs url =
    Some (List.filter (fun j => negb (String.eqb (JobURL j) url)) jobs).
Proof.
  induction jobs as [|job jobs IH]; intros Hnd Hin; [destruct Hin|].
  simpl in *. apply NoDup_cons in Hnd as [Hnotin Hnd].
  destruct (String.eqb_spec (JobURL job) url) as [E|Hne]; simpl.
  - f_equal. symmetry. apply forallb_filter_id. apply forallb_forall.
    intros j Hj. apply negb_true_iff, String.eqb_neq. intros E'.
    apply Hnotin. rewrite E, <- E'. apply list_elem_of_fmap_2.
    apply list_elem_of_In. assumption.
  - destruct Hin as [E|Hin]; [contradiction|].
    rewrite IH by assumption. reflexivity.
Qed.

Lemma filter_length_remove (jobs : list Job) (url : string) :
  NoDup (JobURL <$> jobs) ->
  In url (JobURL <$> jobs) ->
  S (length (List.filter (fun j => negb (String.eqb (JobURL j) url)) jobs)) =
  length jobs.
Proof.
  induction jobs as [|job jobs IH]; intros Hnd Hin; [destruct Hin|].
  simpl in *. apply NoDup_cons in Hnd as [Hnotin Hnd].
  destruct (String.eqb_spec (JobURL job) url) as [E|Hne]; simpl.
  - f_equal. f_equal. apply forallb_filter_id. apply forallb_forall.
    intros j Hj. apply negb_true_iff, String.eqb_neq. intros E'.
    apply Hnotin. rewrite E, <- E'. apply list_elem_of_fmap_2.
    apply list_elem_of_In. assumption.
  - destruct Hin as [E|Hin]; [contradiction|].
    f_equal. apply IH; assumption.
Qed.

Lemma NoDup_fmap_filter_bool (p : Job -> bool) (jobs : list Job) :
  NoDup (JobURL <$> jobs) -> NoDup (JobURL <$> List.filter p jobs).
Proof.
  induction jobs as [|job jobs IH]; intros Hnd; [exact Hnd|].
  simpl in *. apply NoDup_cons in Hnd as [Hnotin Hnd].
  destruct (p job); [|apply IH; exact Hnd].
  simpl. apply NoDup_cons. split; [|apply IH; exact Hnd].
  intros Hin. apply Hnotin. apply list_elem_of_fmap in Hin as (j & Ej & Hj).
  rewrite Ej. apply list_elem_of_fmap_2.
  apply list_elem_of_In. apply list_elem_of_In in Hj. apply filter_In in Hj. tauto.
Qed.

Lemma queue_ok_Add (m : t) (job : Job) : queue_ok m -> queue_ok (fst (Add m job)).
Proof.
  intros [Hnd Hall]. unfold Add.
  destruct (map_get (blacklist m) (JobURL job)); [split; assumption|].
  destruct (map_get (visited m) (JobURL job)); [split; assumption|].
  unfold URLQueue.Add.
  destruct (map_get (URLQueue.Index (queue m)) (JobURL job)) eqn:E;
    [split; assumption|].
  unfold queue_ok, Contains, URLQueue.Contains in *. simpl. split.
  - rewrite fmap_app. apply NoDup_app. split; [assumption|]. split.
    + intros url Hin Hin'. apply list_elem_of_singleton in Hin'. subst url.
      apply list_elem_of_fmap in Hin as (j & Ej & Hj).
      rewrite Forall_forall in Hall. specialize (Hall j Hj). congruence.
    + apply NoDup_singleton.
  - apply Forall_app. split.
    + eapply Forall_impl; [exact Hall|]. intros j Hj. simpl in Hj.
      rewrite map_get_insert. destruct (decide _); [reflexivity|assumption].
    + apply Forall_singleton. rewrite map_get_insert.
      destruct (decide _); [reflexivity|congruence].
Qed.

Lemma queue_ok_Pop (m : t) : queue_ok m -> queue_ok (fst (Pop m)).
Proof.
  intros [Hnd Hall]. unfold Pop, URLQueue.Pop.
  destruct m as [[jobs index] bl vis hm]. simpl in *.
  destruct jobs as [|job jobs]; [split; assumption|].
  unfold queue_ok, Contains, URLQueue.Contains in *. simpl in *.
  apply NoDup_cons in Hnd as [_ Hnd]. apply Forall_cons in Hall as [_ Hall].
  split; assumption.
Qed.

Lemma queue_ok_AddBatch (jobs : list Job) (m : t) :
  queue_ok m -> queue_ok (AddBatch m jobs).
Proof.
  unfold AddBatch. revert m. induction jobs as [|job jobs IH]; intros m Hok;
    [exact Hok|].
  simpl. apply IH.
  pose proof (queue_ok_Add m job Hok) as Hadd. unfold Add in Hadd.
  destruct (map_get (blacklist m) (JobURL job)); [exact Hok|].
  destruct (map_get (visited m) (JobURL job)); [exact Hok|].
  destruct (URLQueue.Add (queue m) job) as [q added]. destruct added; exact Hadd.
Qed.

Lemma queue_ok_Remove (m : t) (url : string) :
  queue_ok m -> queue_ok (fst (Remove m url)).
Proof.
  intros Hok. unfold Remove.
  destruct (negb (URLQueue.Contains (queue m) url)); [exact Hok|].
  destruct (remove_first (URLQueue.Jobs (queue m)) url) as [jobs'|] eqn:E;
    [|exact Hok].
  destruct Hok as [Hnd Hall].
  destruct (in_dec string_dec url (JobURL <$> URLQueue.Jobs (queue m))) as [Hin|Hnot].
  - rewrite remove_first_spec in E by assumption. injection E as <-.
    unfold queue_ok, Contains, URLQueue.Contains in *. simpl. split.
    + apply NoDup_fmap_filter_bool. exact Hnd.
    + apply Forall_forall. intros j Hj. apply list_elem_of_In in Hj.
      apply filter_In in Hj as [Hj Hne].
      apply negb_true_iff, String.eqb_neq in Hne.
      rewrite Forall_forall in Hall. specialize (Hall j (proj2 (list_elem_of_In _ _) Hj)).
      unfold map_get in *. rewrite lookup_delete_ne by congruence. exact Hall.
  - exfalso. clear Hnd Hall. revert jobs' E.
    induction (URLQueue.Jobs (queue m)) as [|job jobs IH]; intros jobs' E;
      [discriminate|].
    simpl in *. destruct (String.eqb_spec (JobURL job) url) as [Eq|Hne].
    + apply Hnot. left. exact Eq.
    + destruct (remove_first jobs url) as [r|]; [|discriminate].
      apply (IH (fun H => Hnot (or_intror H)) r eq_refl).
Qed.

Lemma queue_ok_step (m : t) (o : op) : queue_ok m -> queue_ok (step m o).
Proof.
  intros Hok. destruct o; simpl; try exact Hok.
  - apply queue_ok_Add; exact Hok.
  - apply queue_ok_Pop; exact Hok.
  - split; [apply NoDup_nil_2 | apply Forall_nil_2].
  - apply queue_ok_AddBatch; exact Hok.
  - apply queue_ok_Remove; exact Hok.
Qed.

Lemma queue_ok_run (ops : list op) :
  queue_ok (run New ops).
Proof.
  assert (Hgen : forall m, queue_ok m -> queue_ok (run m ops)).
  { unfold run. induction ops as [|o ops IH]; intros m Hok; [exact Hok|].
    simpl. apply IH. apply queue_ok_step. exact Hok. }
  apply Hgen. split; [apply NoDup_nil_2 | apply Forall_nil_2].
Qed.

End QueueViewFacts.

(** X1 (Manager.AddBatch, Manager.Pop). Jobs with pairwise distinct URLs that
    are neither blacklisted, visited nor known to the queue are all queued by
    AddBatch, behind the jobs already waiting and in the order of the batch;
    Pop then returns the waiting jobs and the batch first in, first out, and
    nil once they are through. *)
Theorem AddBatch_pops_in_order (m : Manager.t) (jobs : list Job) :
  NoDup (JobURL <$> jobs) ->
  Forall (fun job => ManagerViews.IsInBlacklist m (JobURL job) = false /\
                     Manager.IsVisited m (JobURL job) = false /\
                     Manager.Contains m (JobURL job) = false) jobs ->
  let m' := Manager.AddBatch m jobs in
  let waiting := ManagerViews.GetPendingJobs m ++ jobs in
  ManagerViews.GetPendingJobs m' = waiting /\
  Forall (fun job => Manager.Contains m' (JobURL job) = true) jobs /\
  fst (ManagerViews.pop_n (length waiting) m') = Some <$> waiting /\
  snd (Manager.Pop (snd (ManagerViews.pop_n (length waiting) m'))) = None.
Proof.
  intros Hnd Hfresh m' waiting. subst m' waiting.
  unfold ManagerViews.GetPendingJobs.
  rewrite (AddBatch_fresh jobs m Hnd Hfresh). cbn [Manager.queue URLQueue.Jobs].
  split; [reflexivity|]. split.
  - clear Hnd Hfresh. unfold Manager.Contains, URLQueue.Contains. simpl.
    generalize (URLQueue.Index (Manager.queue m)) as index.
    induction jobs as [|job jobs IH]; intros index; [constructor|].
    simpl. constructor; [|apply IH].
    assert (Hkeep : forall (js : list Job) (ix : gmap string bool) (u : string),
               map_get ix u = true ->
               map_get (foldl (fun index job => <[JobURL job := true]> index) ix js) u
               = true).
    { induction js as [|j js IHjs]; intros ix u Hu; [exact Hu|].
      simpl. apply IHjs. rewrite map_get_insert.
      destruct (decide _); [reflexivity|exact Hu]. }
    apply Hkeep. rewrite map_get_insert. destruct (decide _); [reflexivity|congruence].
  - pose proof (pop_n_all
      (Manager.mk
         (URLQueue.mk (URLQueue.Jobs (Manager.queue m) ++ jobs)
            (foldl (fun index job => <[JobURL job := true]> index)
               (URLQueue.Index (Manager.queue m)) jobs))
         (Manager.blacklist m) (Manager.visited m) (Manager.hostMap m))) as Hall.
    cbn [Manager.queue URLQueue.Jobs] in Hall. rewrite Hall. split; reflexivity.
Qed.

Lemma AddBatch_pops_in_order_witness :
  let jobs := [queue_job "http://h/a"; queue_job "http://h/b"; queue_job "http://h/c"] in
  fst (ManagerViews.pop_n 3 (Manager.AddBatch Manager.New jobs)) = Some <$> jobs.
Proof.
  intros jobs.
  refine (proj1 (proj2 (proj2 (AddBatch_pops_in_order Manager.New jobs _ _)))).
  - apply (@bool_decide_unpack _ (NoDup_dec _)). vm_compute. reflexivity.
  - repeat constructor.
Defined.

(** X2 (URLQueue.Add, URLQueue.Pop, Manager.Add, AddBatch, Remove, Clear and
    the other calls of the manager). Whatever sequence of calls is made on a
    new manager, the queue never holds two jobs with the same URL, and the
    URL of every queued job is in the dedup index. *)
Theorem queue_never_holds_a_URL_twice (ops : list Manager.op) :
  let m := Manager.run Manager.New ops in
  NoDup (JobURL <$> ManagerViews.GetPendingJobs m) /\
  Forall (fun job => Manager.Contains m (JobURL job) = true)
    (ManagerViews.GetPendingJobs m).
Proof.
  exact (queue_ok_run ops).
Qed.

(** X3 (Manager.Remove). On a manager reached from a new one, Remove of the
    URL of a queued job returns true, takes exactly that job out of the queue
    and its URL out of the dedup index, so that the URL can be added again;
    the other jobs keep their order. *)
Theorem Remove_queued_job (ops : list Manager.op) (job : Job) :
  let m := Manager.run Manager.New ops in
  In job (ManagerViews.GetPendingJobs m) ->
  exists m',
    Manager.Remove m (JobURL job) = (m', true) /\
    Manager.Contains m' (JobURL job) = false /\
    ManagerViews.GetPendingJobs m' =
      List.filter (fun j => negb (String.eqb (JobURL j) (JobURL job)))
        (ManagerViews.GetPendingJobs m) /\
    ManagerViews.Size m' = ManagerViews.Size m - 1 /\
    (ManagerViews.IsInBlacklist m (JobURL job) = false ->
     Manager.IsVisited m (JobURL job) = false ->
     snd (Manager.Add m' job) = None).
Proof.
  intros m Hin.
  destruct (queue_ok_run ops) as [Hnd Hall]. fold m in Hnd, Hall.
  unfold ManagerViews.GetPendingJobs in *.
  assert (Hurl : In (JobURL job) (JobURL <$> URLQueue.Jobs (Manager.queue m))).
  { apply list_elem_of_In, list_elem_of_fmap_2, list_elem_of_In. exact Hin. }
  assert (Hc : Manager.Contains m (JobURL job) = true).
  { rewrite Forall_forall in Hall. apply Hall, list_elem_of_In. exact Hin. }
  unfold Manager.Remove. unfold Manager.Contains in Hc. rewrite Hc. simpl.
  rewrite remove_first_spec by assumption.
  eexists. split; [reflexivity|].
  unfold Manager.Contains, URLQueue.Contains, ManagerViews.Size, URLQueue.Size. simpl.
  split; [|split; [reflexivity|split]].
  - unfold map_get. rewrite lookup_delete_eq. reflexivity.
  - pose proof (filter_length_remove _ _ Hnd Hurl) as Hlen. lia.
  - intros Hb Hv. unfold Manager.Add. simpl.
    unfold ManagerViews.IsInBlacklist, Manager.IsVisited in Hb, Hv. rewrite Hb, Hv.
    unfold URLQueue.Add. simpl. unfold map_get at 1. rewrite lookup_delete_eq.
    reflexivity.
Qed.

Lemma Remove_queued_job_witness :
  let ops := [Manager.OpAdd (queue_job "http://h/a");
              Manager.OpAdd (queue_job "http://h/b")] in
  exists m',
    Manager.Remove (Manager.run Manager.New ops) "http://h/a" = (m', true) /\
    ManagerViews.GetPendingJobs m' = [queue_job "http://h/b"].
Proof.
  intros ops.
  destruct (Remove_queued_job ops (queue_job "http://h/a") (or_introl eq_refl))
    as (m' & Hr & _ & Hp & _).
  exists m'. split; [exact Hr|]. rewrite Hp. reflexivity.
Defined.

(** X4 (Manager.Remove after Manager.Pop). Once a job has been popped from a
    manager reached from a new one, Remove of its URL finds no job, returns
    false and changes nothing: the URL stays in the dedup index, and every
    later Add of a job with that URL is refused. *)
Theorem Remove_after_Pop_changes_nothing (ops : list Manager.op) (m1 : Manager.t)
    (job job' : Job) :
  Manager.Pop (Manager.run Manager.New ops) = (m1, Some job) ->
  JobURL job' = JobURL job ->
  Manager.Remove m1 (JobURL job) = (m1, false) /\
  Manager.Contains m1 (JobURL job) = true /\
  is_Some (snd (Manager.Add m1 job')).
Proof.
  intros Hpop Hurl.
  destruct (queue_ok_run ops) as [Hnd Hall].
  set (m := Manager.run Manager.New ops) in *.
  unfold Manager.Pop, URLQueue.Pop in Hpop.
  destruct (URLQueue.Jobs (Manager.queue m)) as [|j rest] eqn:Ej; [discriminate|].
  injection Hpop as <- <-. simpl in Hnd.
  apply NoDup_cons in Hnd as [Hnotin _]. apply Forall_cons in Hall as [Hc _].
  assert (Hc1 : Manager.Contains
                  (Manager.mk (URLQueue.mk rest (URLQueue.Index (Manager.queue m)))
                     (Manager.blacklist m) (Manager.visited m) (Manager.hostMap m))
                  (JobURL j) = true) by exact Hc.
  split; [|split].
  - apply Remove_after_pop. simpl. apply Forall_forall. intros x Hx E.
    apply Hnotin. rewrite <- E. apply list_elem_of_fmap_2. exact Hx.
  - exact Hc1.
  - rewrite <- Hurl in Hc1. apply (Contains_refuses _ _ Hc1).
Qed.

Lemma Remove_after_Pop_changes_nothing_witness :
  let ops := [Manager.OpAdd (queue_job "http://h/a")] in
  let m1 := fst (Manager.Pop (Manager.run Manager.New ops)) in
  Manager.Remove m1 "http://h/a" = (m1, false) /\
  is_Some (snd (Manager.Add m1 (queue_job "http://h/a"))).
Proof.
  intros ops m1.
  destruct (Remove_after_Pop_changes_nothing ops m1 (queue_job "http://h/a")
              (queue_job "http://h/a") eq_refl eq_refl) as (Hr & _ & Ha).
  split; [exact Hr | exact Ha].
Defined.

(** X5 (Manager.AddBatch, Manager.Add). AddBatch leaves the manager as
    calling Add on each job of the batch in turn does, with the errors of Add
    dropped: a job that Add refuses is skipped without a trace. *)
Theorem AddBatch_is_Add_without_errors (m : Manager.t) (jobs : list Job) :
  Manager.AddBatch m jobs = fold_left (fun m job => fst (Manager.Add m job)) jobs m.
Proof.
  unfold Manager.AddBatch. revert m.
  induction jobs as [|job jobs IH]; intros m; [reflexivity|].
  simpl. rewrite IH. f_equal. unfold Manager.Add.
  destruct (map_get (Manager.blacklist m) (JobURL job)); [reflexivity|].
  destruct (map_get (Manager.visited m) (JobURL job)); [reflexivity|].
  destruct (URLQueue.Add (Manager.queue m) job) as [q added].
  destruct added; reflexivity.
Qed.

(** X6 (Manager.GetMaxLevel, FilterByLevel, GetJobsByLevel). GetMaxLevel is
    at least zero and at least the level of every queued job, so
    FilterByLevel at that level returns the whole queue; it is zero or the
    level of a queued job; and the jobs of one level are among those
    FilterByLevel returns for that level. *)
Theorem FilterByLevel_at_GetMaxLevel (m : Manager.t) :
  0 <= ManagerViews.GetMaxLevel m /\
  ManagerViews.FilterByLevel m (ManagerViews.GetMaxLevel m) =
    ManagerViews.GetPendingJobs m /\
  (ManagerViews.GetMaxLevel m = 0 \/
   exists job, In job (ManagerViews.GetPendingJobs m) /\
               Level job = ManagerViews.GetMaxLevel m) /\
  forall (level : Z) (job : Job),
    In job (ManagerViews.GetJobsByLevel m level) ->
    In job (ManagerViews.FilterByLevel m level).
Proof.
  unfold ManagerViews.GetMaxLevel, ManagerViews.FilterByLevel,
    ManagerViews.GetPendingJobs, ManagerViews.GetJobsByLevel.
  set (jobs := URLQueue.Jobs (Manager.queue m)). clearbody jobs.
  set (f := fun (maxLevel : Z) (job : Job) =>
              if Level job >? maxLevel then Level job else maxLevel).
  assert (Hge : forall js a, a <= fold_left f js a /\
                             Forall (fun j => Level j <= fold_left f js a) js /\
                             (fold_left f js a = a \/
                              exists j, In j js /\ Level j = fold_left f js a)).
  { induction js as [|j js IH]; intros a; simpl.
    - split; [lia|]. split; [constructor|]. left. reflexivity.
    - destruct (IH (f a j)) as (H1 & H2 & H3).
      assert (Hf : a <= f a j /\ Level j <= f a j /\ (f a j = a \/ f a j = Level j)).
      { unfold f. destruct (Z.gtb_spec (Level j) a); lia. }
      split; [lia|]. split; [constructor; [lia|exact H2]|].
      destruct H3 as [H3|(j' & Hin & Hl)].
      + destruct Hf as (_ & _ & [Hf|Hf]).
        * left. lia.
        * right. exists j. split; [left; reflexivity|lia].
      + right. exists j'. split; [right; exact Hin|exact Hl]. }
  destruct (Hge jobs 0) as (H1 & H2 & H3).
  split; [exact H1|]. split; [|split; [exact H3|]].
  - apply forallb_filter_id, forallb_forall. intros j Hj.
    rewrite Forall_forall in H2. apply Z.leb_le, H2, list_elem_of_In. exact Hj.
  - intros level job Hin. apply filter_In in Hin as [Hin Hl].
    apply filter_In. split; [exact Hin|]. apply Z.eqb_eq in Hl. apply Z.leb_le. lia.
Qed.

(** ** Headers and cookies *)

Section ConfigStringsFacts.
Import GoStrings ConfigStrings.

Lemma append_assoc (a b c : string) : (a +:+ b) +:+ c = a +:+ (b +:+ c).
Proof.
  induction a as [|x a IH]; [reflexivity|].
  change (String x ((a +:+ b) +:+ c) = String x (a +:+ (b +:+ c))). f_equal. exact IH.
Qed.

Lemma all_bytes_app (p : ascii -> bool) (a b : string) :
  GoURL.all_bytes p (a +:+ b) = GoURL.all_bytes p a && GoURL.all_bytes p b.
Proof.
  induction a as [|x a IH]; [reflexivity|].
  change (p x && GoURL.all_bytes p (a +:+ b) =
          p x && GoURL.all_bytes p a && GoURL.all_bytes p b).
  rewrite IH. apply andb_assoc.
Qed.

Lemma trim_start_spec (s : string) :
  exists l, s = l +:+ trim_start s /\ blank l = true /\
            forall c t, trim_start s = String c t -> isSpace c = false.
Proof.
  induction s as [|x s (l & E & Hl & Hc)]; simpl.
  - exists EmptyString. repeat split. discriminate.
  - destruct (isSpace x) eqn:Ex.
    + exists (String x l). split; [|split; [|exact Hc]].
      * change (String x s = String x (l +:+ trim_start s)). f_equal. exact E.
      * unfold blank in *. simpl. rewrite Ex, Hl. reflexivity.
    + exists EmptyString. split; [reflexivity|]. split; [reflexivity|].
      intros c t [= <- <-]. exact Ex.
Qed.

Lemma trim_end_empty (s : string) : trim_end s = EmptyString -> blank s = true.
Proof.
  induction s as [|x s IH]; [reflexivity|]. simpl.
  destruct (trim_end s) eqn:E; [|discriminate].
  destruct (isSpace x) eqn:Ex; [|discriminate].
  intros _. unfold blank in *. simpl. rewrite Ex. apply IH. reflexivity.
Qed.

Lemma trim_end_spec (s : string) :
  exists r, s = trim_end s +:+ r /\ blank r = true /\
            (forall t c, trim_end s = t +:+ String c EmptyString -> isSpace c = false) /\
            (forall c t, trim_end s = String c t -> exists t', s = String c t').
Proof.
  induction s as [|x s (r & E & Hr & Hlast & Hfirst)]; simpl.
  - exists EmptyString. repeat split; try discriminate.
    intros [|? ?] c; discriminate.
  - destruct (trim_end s) as [|y rest] eqn:Et.
    + destruct (isSpace x) eqn:Ex.
      * exists (String x s). split; [reflexivity|]. split.
        { unfold blank. simpl. rewrite Ex. apply (trim_end_empty s Et). }
        split; [intros [|? ?] c; discriminate | discriminate].
      * exists s. split; [reflexivity|]. split.
        { apply (trim_end_empty s Et). }
        split.
        { intros [|a [|b t]] c; try discriminate. intros [= ->]. exact Ex. }
        { intros c t [= <- <-]. eexists. reflexivity. }
    + exists r. split; [|split; [exact Hr|split]].
      * change (String x s = String x ((String y rest) +:+ r)). f_equal. exact E.
      * intros [|a t] c; [discriminate|].
        change (String x (String y rest) = String a (t +:+ String c EmptyString) ->
                isSpace c = false).
        intros [= _ Ht]. apply (Hlast t c). exact Ht.
      * intros c t [= <- <-]. eexists. reflexivity.
Qed.

Lemma trim_start_blank (l s : string) :
  blank l = true -> trim_start (l +:+ s) = trim_start s.
Proof.
  induction l as [|x l IH]; [reflexivity|]. unfold blank. simpl.
  intros Hb. apply andb_true_iff in Hb as [Hx Hl]. rewrite Hx. apply IH. exact Hl.
Qed.

Lemma trim_end_blank (r : string) : blank r = true -> trim_end r = EmptyString.
Proof.
  induction r as [|x r IH]; [reflexivity|]. unfold blank. simpl.
  intros Hb. apply andb_true_iff in Hb as [Hx Hr]. rewrite (IH Hr), Hx. reflexivity.
Qed.

Lemma trim_end_app_blank (s r : string) :
  blank r = true -> trim_end (s +:+ r) = trim_end s.
Proof.
  intros Hr. induction s as [|x s IH]; [apply trim_end_blank; exact Hr|].
  change (trim_end (String x (s +:+ r)) = trim_end (String x s)).
  simpl. rewrite IH. reflexivity.
Qed.

Lemma trim_end_tight (s : string) :
  (forall t c, s = t +:+ String c EmptyString -> isSpace c = false) ->
  trim_end s = s.
Proof.
  induction s as [|x s IH]; intros Hlast; [reflexivity|]. simpl.
  destruct s as [|y s].
  - simpl. rewrite (Hlast EmptyString x eq_refl). reflexivity.
  - rewrite IH; [reflexivity|].
    intros t c E. apply (Hlast (String x t) c).
    change (String x (String y s) = String x (t +:+ String c EmptyString)).
    f_equal. exact E.
Qed.

Lemma trim_start_tight (s : string) :
  (forall c t, s = String c t -> isSpace c = false) -> trim_start s = s.
Proof.
  destruct s as [|x s]; intros H; [reflexivity|]. simpl.
  rewrite (H x s eq_refl). reflexivity.
Qed.

Lemma trim_tight (s : string) : tight s -> trim s = s.
Proof.
  intros [Hf Hl]. unfold trim. rewrite trim_start_tight by exact Hf.
  apply trim_end_tight. exact Hl.
Qed.

(** [trim] of a tight string wrapped in white space is that string. *)
Lemma trim_wrapped (l s r : string) :
  blank l = true -> blank r = true -> tight s -> trim (l +:+ s +:+ r) = s.
Proof.
  intros Hl Hr [Hf Hlast]. unfold trim. rewrite trim_start_blank by exact Hl.
  destruct s as [|x s].
  - change (trim_end (trim_start r) = EmptyString).
    destruct (trim_start_spec r) as (l' & E & _ & _).
    assert (Hb : blank (trim_start r) = true).
    { unfold blank in *. rewrite E, all_bytes_app in Hr.
      apply andb_true_iff in Hr. tauto. }
    apply trim_end_blank. exact Hb.
  - change (String x s +:+ r) with (String x (s +:+ r)). cbn [trim_start].
    rewrite (Hf x s eq_refl).
    change (String x (s +:+ r)) with (String x s +:+ r).
    rewrite trim_end_app_blank by exact Hr. apply trim_end_tight. exact Hlast.
Qed.

Lemma trim_blank (s : string) : blank s = true -> trim s = EmptyString.
Proof.
  intros Hb. unfold trim. destruct (trim_start_spec s) as (l & El & _ & _).
  apply trim_end_blank. unfold blank in *. rewrite El, all_bytes_app in Hb.
  apply andb_true_iff in Hb. tauto.
Qed.

Lemma trim_is_tight (s : string) : tight (trim s).
Proof.
  unfold trim.
  destruct (trim_start_spec s) as (l & _ & _ & Hfirst).
  destruct (trim_end_spec (trim_start s)) as (r & _ & _ & Hlast & Hsame).
  split; [|exact Hlast].
  intros c t E. destruct (Hsame c t E) as [t' E']. apply (Hfirst c t'). exact E'.
Qed.

Lemma indexOf_from_absent (s : string) (ch : ascii) (i : Z) :
  no_byte ch s = true -> indexOf_from s ch i = -1.
Proof.
  revert i. induction s as [|x s IH]; intros i; [reflexivity|].
  unfold no_byte. simpl. intros Hb. apply andb_true_iff in Hb as [Hx Hs].
  apply negb_true_iff in Hx. rewrite Hx. apply IH. exact Hs.
Qed.

Lemma indexOf_from_found (pre post : string) (ch : ascii) (i : Z) :
  no_byte ch pre = true ->
  indexOf_from (pre +:+ String ch post) ch i = i + Z.of_nat (String.length pre).
Proof.
  revert i. induction pre as [|x pre IH]; intros i.
  - intros _. simpl. rewrite Ascii.eqb_refl. lia.
  - unfold no_byte. simpl. intros Hb. apply andb_true_iff in Hb as [Hx Hs].
    apply negb_true_iff in Hx. rewrite Hx. rewrite IH by exact Hs. lia.
Qed.

Lemma substring_prefix (a b : string) : substring 0 (String.length a) (a +:+ b) = a.
Proof.
  induction a as [|x a IH]; [destruct b; reflexivity|].
  simpl. f_equal. exact IH.
Qed.

Lemma substring_whole (b : string) : substring 0 (String.length b) b = b.
Proof. induction b as [|x b IH]; [reflexivity|]. simpl. f_equal. exact IH. Qed.

Lemma string_drop_app (a b : string) :
  World.string_drop (String.length a) (a +:+ b) = b.
Proof.
  unfold World.string_drop. rewrite string_length_append.
  replace (String.length a + String.length b - String.length a)%nat
    with (String.length b) by lia.
  induction a as [|x a IH]; [apply substring_whole|]. exact IH.
Qed.

Lemma split_at_first (s : string) (ch : ascii) :
  no_byte ch s = true \/
  exists pre post, s = pre +:+ String ch post /\ no_byte ch pre = true.
Proof.
  induction s as [|x s IH]; [left; reflexivity|].
  destruct (Ascii.eqb_spec x ch) as [->|Hne].
  - right. exists EmptyString, s. split; reflexivity.
  - assert (Hx : negb (Ascii.eqb x ch) = true)
      by (apply negb_true_iff, Ascii.eqb_neq; exact Hne).
    destruct IH as [Hs|(pre & post & -> & Hpre)].
    + left. unfold no_byte in *. simpl. rewrite Hx, Hs. reflexivity.
    + right. exists (String x pre), post. split; [reflexivity|].
      unfold no_byte in *. simpl. rewrite Hx, Hpre. reflexivity.
Qed.

Lemma cut_at (k v : string) (ch : ascii) :
  no_byte ch k = true ->
  let s := k +:+ String ch v in
  let idx := indexOf s ch in
  (idx =? -1) = false /\
  substring 0 (Z.to_nat idx) s = k /\
  World.string_drop (Z.to_nat (idx + 1)) s = v.
Proof.
  intros Hk s idx. subst idx s. unfold indexOf.
  rewrite indexOf_from_found by exact Hk.
  split; [apply Z.eqb_neq; lia|]. split.
  - replace (Z.to_nat (0 + Z.of_nat (String.length k))) with (String.length k) by lia.
    apply substring_prefix.
  - replace (Z.to_nat (0 + Z.of_nat (String.length k) + 1))
      with (String.length (k +:+ String ch EmptyString))
      by (rewrite string_length_append; simpl; lia).
    replace (k +:+ String ch v) with ((k +:+ String ch EmptyString) +:+ v)
      by (rewrite append_assoc; reflexivity).
    apply string_drop_app.
Qed.

Lemma splitHeader_found (k v : string) :
  no_byte ":" k = true -> splitHeader (k +:+ ":" +:+ v) = [trim k; trim v].
Proof.
  intros Hk. unfold splitHeader.
  destruct (cut_at k v ":" Hk) as (H1 & H2 & H3). cbv zeta in H1, H2, H3.
  change (k +:+ ":" +:+ v) with (k +:+ String ":" v).
  cbv zeta. rewrite H1, H2, H3. reflexivity.
Qed.

Lemma splitCookie_found (k v : string) :
  no_byte "=" k = true -> splitCookie (k +:+ "=" +:+ v) = [trim k; trim v].
Proof.
  intros Hk. unfold splitCookie.
  destruct (cut_at k v "=" Hk) as (H1 & H2 & H3). cbv zeta in H1, H2, H3.
  change (k +:+ "=" +:+ v) with (k +:+ String "=" v).
  cbv zeta. rewrite H1, H2, H3. reflexivity.
Qed.

Lemma all_bytes_trim (p : ascii -> bool) (s : string) :
  GoURL.all_bytes p s = true -> GoURL.all_bytes p (trim s) = true.
Proof.
  intros H.
  destruct (trim_start_spec s) as (l & El & _ & _).
  destruct (trim_end_spec (trim_start s)) as (r & Er & _ & _ & _).
  rewrite El, all_bytes_app in H. apply andb_true_iff in H as [_ H].
  rewrite Er, all_bytes_app in H. apply andb_true_iff in H as [H _]. exact H.
Qed.

Lemma add_part_Forall (P : string -> Prop) (parts : list string) (piece : string) :
  (is_empty (trim piece) = false -> P (trim piece)) ->
  Forall P parts -> Forall P (add_part parts piece).
Proof.
  intros Hp Hparts. unfold add_part.
  destruct (is_empty (trim piece)) eqn:E; [exact Hparts|].
  simpl. apply Forall_app. split; [exact Hparts|]. apply Forall_singleton. auto.
Qed.

Lemma splitBy_loop_parts (sep : ascii) (s cur : string) (parts : list string) :
  let P := fun part => is_empty part = false /\ tight part /\ no_byte sep part = true in
  no_byte sep cur = true -> Forall P parts ->
  Forall P (splitBy_loop s sep cur parts).
Proof.
  intros P. revert cur parts.
  assert (Hadd : forall parts piece, no_byte sep piece = true -> Forall P parts ->
                                     Forall P (add_part parts piece)).
  { intros parts piece Hpiece Hparts. apply add_part_Forall; [|exact Hparts].
    intros Hne. split; [exact Hne|]. split; [apply trim_is_tight|].
    apply all_bytes_trim. exact Hpiece. }
  induction s as [|x s IH]; intros cur parts Hcur Hparts; simpl.
  - destruct (negb (is_empty cur)); [apply Hadd; assumption|exact Hparts].
  - destruct (Ascii.eqb x sep) eqn:Ex.
    + apply IH; [reflexivity|]. apply Hadd; assumption.
    + apply IH; [|exact Hparts]. unfold no_byte in *. rewrite all_bytes_app.
      simpl. rewrite Hcur, Ex. reflexivity.
Qed.

Lemma splitBy_loop_piece (sep : ascii) (piece s cur : string) (parts : list string) :
  no_byte sep piece = true ->
  splitBy_loop (piece +:+ s) sep cur parts = splitBy_loop s sep (cur +:+ piece) parts.
Proof.
  revert cur. induction piece as [|x piece IH]; intros cur Hp.
  - rewrite append_empty_r. reflexivity.
  - unfold no_byte in *. simpl in Hp. apply andb_true_iff in Hp as [Hx Hp].
    apply negb_true_iff in Hx.
    change (String x piece +:+ s) with (String x (piece +:+ s)). simpl.
    rewrite Hx. rewrite IH by exact Hp. rewrite append_assoc. reflexivity.
Qed.

Lemma is_empty_app_r (a b : string) : is_empty b = false -> is_empty (a +:+ b) = false.
Proof. destruct a; [intros H; exact H|reflexivity]. Qed.

Lemma tight_join (k v : string) (c : ascii) :
  isSpace c = false -> tight k -> tight v -> tight (k +:+ String c v).
Proof.
  intros Hc [Hkf _] [_ Hvl]. split.
  - intros x t E. destruct k as [|y k].
    + injection E as <- _. exact Hc.
    + change (String y (k +:+ String c v) = String x t) in E.
      injection E as <- _. apply (Hkf y k eq_refl).
  - intros t x E. revert t E. clear Hkf.
    assert (Hv : forall t, String c v = t +:+ String x EmptyString -> isSpace x = false).
    { intros t E. destruct t as [|y t].
      - injection E as <- ->. exact Hc.
      - change (String c v = String y (t +:+ String x EmptyString)) in E.
        injection E as _ E. apply (Hvl t x E). }
    induction k as [|y k IH]; intros t E; [apply (Hv t E)|].
    change (String y (k +:+ String c v) = t +:+ String x EmptyString) in E.
    destruct t as [|z t].
    + injection E as _ E. destruct k; discriminate.
    + change (String y (k +:+ String c v) = String z (t +:+ String x EmptyString)) in E.
      injection E as _ E. apply (IH t E).
Qed.

Lemma splitBy_cookie_header (pairs : list (string * string)) (cur : string)
    (parts : list string) :
  Forall (fun pair => tight (fst pair) /\ tight (snd pair) /\
                      no_byte ";" (fst pair) = true /\ no_byte ";" (snd pair) = true)
    pairs ->
  blank cur = true ->
  splitBy_loop (cookie_header pairs) ";" cur parts =
  parts ++ ((fun pair => fst pair +:+ "=" +:+ snd pair) <$> pairs).
Proof.
  intros Hall. revert cur parts.
  induction Hall as [|[k v] pairs (Hk & Hv & Hks & Hvs) Hall IH]; intros cur parts Hcur.
  - simpl. rewrite app_nil_r. unfold add_part.
    assert (E : trim cur = EmptyString) by (apply trim_blank; exact Hcur).
    destruct (negb (is_empty cur)); [rewrite E|]; reflexivity.
  - simpl in Hk, Hv, Hks, Hvs.
    assert (Hitem : no_byte ";" (k +:+ "=" +:+ v) = true).
    { unfold no_byte in *. rewrite all_bytes_app, Hks.
      change (GoURL.all_bytes (fun c => negb (Ascii.eqb c ";")) ("=" +:+ v))
        with (GoURL.all_bytes (fun c => negb (Ascii.eqb c ";")) v).
      rewrite Hvs. reflexivity. }
    assert (Htight : tight (k +:+ "=" +:+ v))
      by (apply tight_join; [reflexivity|exact Hk|exact Hv]).
    assert (Hne : is_empty (k +:+ "=" +:+ v) = false)
      by (apply is_empty_app_r; reflexivity).
    assert (Htrim : trim (cur +:+ (k +:+ "=" +:+ v)) = k +:+ "=" +:+ v).
    { rewrite <- (append_empty_r (k +:+ "=" +:+ v)) at 1.
      apply trim_wrapped; [exact Hcur|reflexivity|exact Htight]. }
    assert (Hadd : add_part parts (cur +:+ (k +:+ "=" +:+ v)) =
                   parts ++ [k +:+ "=" +:+ v]).
    { unfold add_part. rewrite Htrim, Hne. reflexivity. }
    change (((k, v) :: pairs)) with ([(k, v)] ++ pairs).
    rewrite fmap_app. simpl fmap at 1. cbn [fst snd].
    destruct pairs as [|p pairs].
    + change (cookie_header ([(k, v)] ++ [])) with (k +:+ "=" +:+ v).
      rewrite <- (append_empty_r (k +:+ "=" +:+ v)) at 1.
      rewrite splitBy_loop_piece by exact Hitem. simpl splitBy_loop.
      rewrite (is_empty_app_r cur _ Hne). simpl negb. cbv iota.
      rewrite Hadd. reflexivity.
    + change (cookie_header ([(k, v)] ++ p :: pairs))
        with (k +:+ "=" +:+ v +:+ "; " +:+ cookie_header (p :: pairs)).
      replace (k +:+ "=" +:+ v +:+ "; " +:+ cookie_header (p :: pairs))
        with ((k +:+ "=" +:+ v) +:+ ("; " +:+ cookie_header (p :: pairs)))
        by (rewrite !append_assoc; reflexivity).
      rewrite splitBy_loop_piece by exact Hitem.
      change ("; " +:+ cookie_header (p :: pairs))
        with (String ";" (String " " (cookie_header (p :: pairs)))).
      cbn [splitBy_loop]. rewrite Ascii.eqb_refl.
      change (Ascii.eqb " " ";") with false. cbv iota.
      rewrite Hadd. rewrite IH by reflexivity. rewrite <- app_assoc. reflexivity.
Qed.

End ConfigStringsFacts.

(** X7 (trim, isSpace). trim cuts a run of white space (space, tab, line
    feed, carriage return) off each end and nothing else: the string is the
    result between two runs of white space, the result neither starts nor
    ends with white space, and trimming twice changes nothing more. *)
Theorem trim_cuts_white_space_off_both_ends (s : string) :
  (exists l r,
     s = l +:+ ConfigStrings.trim s +:+ r /\
     ConfigStrings.blank l = true /\ ConfigStrings.blank r = true) /\
  ConfigStrings.tight (ConfigStrings.trim s) /\
  ConfigStrings.trim (ConfigStrings.trim s) = ConfigStrings.trim s /\
  (ConfigStrings.trim s = EmptyString <-> ConfigStrings.blank s = true).
Proof.
  pose proof (trim_is_tight s) as Ht.
  destruct (trim_start_spec s) as (l & El & Hl & _).
  destruct (trim_end_spec (ConfigStrings.trim_start s)) as (r & Er & Hr & _ & _).
  assert (E : s = l +:+ ConfigStrings.trim s +:+ r).
  { unfold ConfigStrings.trim. rewrite <- Er. exact El. }
  split; [exists l, r; repeat split; assumption|].
  split; [exact Ht|]. split; [apply trim_tight; exact Ht|].
  split.
  - intros Hempty. rewrite Hempty in E. rewrite E. unfold ConfigStrings.blank in *.
    rewrite all_bytes_app. change (EmptyString +:+ r) with r.
    rewrite Hl, Hr. reflexivity.
  - apply trim_blank.
Qed.

(** X8 (splitHeader, splitCookie, indexOf). splitHeader cuts at the first
    colon only: a string without a colon gives the nil slice, and a string
    with one gives the trimmed text before the first colon and the trimmed
    text after it, further colons included. splitCookie does the same at the
    first equals sign. *)
Theorem splitHeader_cuts_at_the_first_colon :
  (forall s : string,
     ConfigStrings.no_byte ":" s = true -> ConfigStrings.splitHeader s = []) /\
  (forall k v : string,
     ConfigStrings.no_byte ":" k = true ->
     ConfigStrings.splitHeader (k +:+ ":" +:+ v) =
       [ConfigStrings.trim k; ConfigStrings.trim v]) /\
  (forall s : string,
     ConfigStrings.no_byte "=" s = true -> ConfigStrings.splitCookie s = []) /\
  (forall k v : string,
     ConfigStrings.no_byte "=" k = true ->
     ConfigStrings.splitCookie (k +:+ "=" +:+ v) =
       [ConfigStrings.trim k; ConfigStrings.trim v]).
Proof.
  split; [|split; [|split]].
  - intros s Hs. unfold ConfigStrings.splitHeader, ConfigStrings.indexOf.
    rewrite indexOf_from_absent by exact Hs. reflexivity.
  - apply splitHeader_found.
  - intros s Hs. unfold ConfigStrings.splitCookie, ConfigStrings.indexOf.
    rewrite indexOf_from_absent by exact Hs. reflexivity.
  - apply splitCookie_found.
Qed.

(** X9 (splitBy, splitCookies). Every part that splitBy returns is not
    empty, neither starts nor ends with white space and does not contain the
    separator; pieces that are empty or white space only leave no part. *)
Theorem splitBy_parts_are_trimmed_and_not_empty (s : string) (sep : ascii) :
  Forall (fun part => GoStrings.is_empty part = false /\
                      ConfigStrings.trim part = part /\
                      ConfigStrings.no_byte sep part = true)
    (ConfigStrings.splitBy s sep) /\
  (ConfigStrings.no_byte sep s = true -> ConfigStrings.blank s = true ->
   ConfigStrings.splitBy s sep = []).
Proof.
  split.
  - eapply Forall_impl.
    + apply (splitBy_loop_parts sep s EmptyString []); [reflexivity|constructor].
    + intros part (Hne & Ht & Hs). split; [exact Hne|]. split; [|exact Hs].
      apply trim_tight. exact Ht.
  - intros Hs Hb. unfold ConfigStrings.splitBy.
    pose proof (splitBy_loop_piece sep s EmptyString EmptyString [] Hs) as E.
    rewrite append_empty_r in E. rewrite E.
    cbn [ConfigStrings.splitBy_loop]. change (EmptyString +:+ s) with s.
    unfold ConfigStrings.add_part. rewrite (trim_blank s Hb).
    destruct (negb (GoStrings.is_empty s)); reflexivity.
Qed.

Section CookieFacts.
Import GoStrings ConfigStrings.

Lemma trim_fixed_tight (s : string) : trim s = s -> tight s.
Proof. intros E. rewrite <- E. apply trim_is_tight. Qed.

Lemma fold_cookie_items (pairs : list (string * string)) (m : gmap string string) :
  Forall (fun pair => trim (fst pair) = fst pair /\ trim (snd pair) = snd pair /\
                      no_byte "=" (fst pair) = true) pairs ->
  fold_left
    (fun cookies cookiePart =>
       match splitCookie cookiePart with
       | [key; value] => <[key := value]> cookies
       | _ => cookies
       end)
    ((fun pair => fst pair +:+ "=" +:+ snd pair) <$> pairs) m =
  fold_left (fun m pair => <[fst pair := snd pair]> m) pairs m.
Proof.
  intros Hall. revert m.
  induction Hall as [|[k v] pairs (Hk & Hv & He) _ IH]; intros m; [reflexivity|].
  simpl in *. rewrite splitCookie_found by exact He. rewrite Hk, Hv. apply IH.
Qed.

Lemma fold_header_lines (pairs : list (string * string)) (m : gmap string string) :
  Forall (fun pair => trim (fst pair) = fst pair /\ trim (snd pair) = snd pair /\
                      no_byte ":" (fst pair) = true) pairs ->
  fold_left
    (fun headers headerStr =>
       match splitHeader headerStr with
       | [key; value] => <[key := value]> headers
       | _ => headers
       end)
    (header_line <$> pairs) m =
  fold_left (fun m pair => <[fst pair := snd pair]> m) pairs m.
Proof.
  intros Hall. revert m.
  induction Hall as [|[k v] pairs (Hk & Hv & He) _ IH]; intros m; [reflexivity|].
  cbn [fst snd] in Hk, Hv, He. rewrite fmap_cons. cbn [fold_left].
  change (header_line (k, v)) with (k +:+ ":" +:+ (" " +:+ v)).
  rewrite splitHeader_found by exact He. rewrite Hk.
  change (trim (" " +:+ v)) with (trim v). rewrite Hv. apply IH.
Qed.

Lemma fold_headers_app (xs ys : list string) (m : gmap string string) :
  fold_left
    (fun headers headerStr =>
       match splitHeader headerStr with
       | [key; value] => <[key := value]> headers
       | _ => headers
       end) (xs ++ ys) m =
  fold_left
    (fun headers headerStr =>
       match splitHeader headerStr with
       | [key; value] => <[key := value]> headers
       | _ => headers
       end) ys
    (fold_left
       (fun headers headerStr =>
          match splitHeader headerStr with
          | [key; value] => <[key := value]> headers
          | _ => headers
          end) xs m).
Proof. apply fold_left_app. Qed.

End CookieFacts.

(** X10 (parseCookies, splitCookies, splitCookie). A cookie header
    name1=value1; name2=value2; ... whose names and values carry no white
    space at their ends and no semicolon, and whose names carry no equals
    sign, is parsed into the map that assigning the pairs in order gives:
    each name has the value of its last occurrence; a value may contain
    equals signs. The empty header gives the empty map. *)
Theorem parseCookies_of_cookie_header (pairs : list (string * string)) :
  Forall (fun pair =>
            ConfigStrings.trim (fst pair) = fst pair /\
            ConfigStrings.trim (snd pair) = snd pair /\
            ConfigStrings.no_byte "=" (fst pair) = true /\
            ConfigStrings.no_byte ";" (fst pair) = true /\
            ConfigStrings.no_byte ";" (snd pair) = true) pairs ->
  ConfigStrings.parseCookies (ConfigStrings.cookie_header pairs) =
  ConfigStrings.assign_all pairs.
Proof.
  intros Hall. unfold ConfigStrings.parseCookies, ConfigStrings.assign_all.
  destruct pairs as [|[k v] pairs]; [reflexivity|].
  assert (Hne : GoStrings.is_empty (ConfigStrings.cookie_header ((k, v) :: pairs)) = false).
  { destruct pairs as [|p pairs]; simpl; apply is_empty_app_r; reflexivity. }
  rewrite Hne. unfold ConfigStrings.splitCookies, ConfigStrings.splitBy.
  rewrite splitBy_cookie_header.
  - rewrite app_nil_l. apply fold_cookie_items.
    eapply Forall_impl; [exact Hall|]. intros p H. simpl in H. tauto.
  - eapply Forall_impl; [exact Hall|]. intros p (H1 & H2 & _ & H4 & H5).
    split; [apply (trim_fixed_tight _ H1)|].
    split; [apply (trim_fixed_tight _ H2)|]. split; assumption.
  - reflexivity.
Qed.

Lemma parseCookies_of_cookie_header_witness :
  ConfigStrings.parseCookies "sid=1; theme=a=b; sid=2" =
  <["sid" := "2"]> (<["theme" := "a=b"]> (<["sid" := "1"]> ∅)).
Proof.
  apply (parseCookies_of_cookie_header [("sid", "1"); ("theme", "a=b"); ("sid", "2")]).
  repeat constructor.
Defined.

(** X11 (parseHeaders, splitHeader). Headers given as Name: Value, with
    names and values that carry no white space at their ends and names
    without a colon, are parsed into the map that assigning the pairs in
    order gives, so the last header of a name wins; a string without a colon
    is dropped without an error. *)
Theorem parseHeaders_of_header_lines (pairs : list (string * string))
    (before after : list string) (junk : string) :
  Forall (fun pair =>
            ConfigStrings.trim (fst pair) = fst pair /\
            ConfigStrings.trim (snd pair) = snd pair /\
            ConfigStrings.no_byte ":" (fst pair) = true) pairs ->
  ConfigStrings.no_byte ":" junk = true ->
  ConfigStrings.parseHeaders (ConfigStrings.header_line <$> pairs) =
    ConfigStrings.assign_all pairs /\
  ConfigStrings.parseHeaders (before ++ junk :: after) =
    ConfigStrings.parseHeaders (before ++ after).
Proof.
  intros Hall Hjunk. split.
  - unfold ConfigStrings.parseHeaders, ConfigStrings.assign_all.
    apply fold_header_lines. exact Hall.
  - unfold ConfigStrings.parseHeaders. rewrite !fold_headers_app. simpl.
    unfold ConfigStrings.splitHeader at 2, ConfigStrings.indexOf.
    rewrite indexOf_from_absent by exact Hjunk. reflexivity.
Qed.

Lemma parseHeaders_of_header_lines_witness :
  ConfigStrings.parseHeaders ["Accept: */*"; "X-Id: a:b"; "Accept: text/html"] =
    <["Accept" := "text/html"]> (<["X-Id" := "a:b"]> (<["Accept" := "*/*"]> ∅)) /\
  ConfigStrings.parseHeaders ["Accept: */*"; "no colon here"] =
    ConfigStrings.parseHeaders ["Accept: */*"].
Proof.
  split.
  - apply (proj1 (parseHeaders_of_header_lines
        [("Accept", "*/*"); ("X-Id", "a:b"); ("Accept", "text/html")]
        [] [] "no colon here" ltac:(repeat constructor) eq_refl)).
  - apply (proj2 (parseHeaders_of_header_lines []
        ["Accept: */*"] [] "no colon here" ltac:(constructor) eq_refl)).
Defined.

(** ** File names *)

Section UtilsFacts.
Import GoStrings Utils.

Lemma map_bytes_length (f : ascii -> ascii) (s : string) :
  String.length (map_bytes f s) = String.length s.
Proof. induction s as [|c s IH]; [reflexivity|]. simpl. f_equal. exact IH. Qed.

Lemma all_bytes_map_bytes (p : ascii -> bool) (f : ascii -> ascii) (s : string) :
  (forall c, p (f c) = true) -> GoURL.all_bytes p (map_bytes f s) = true.
Proof.
  intros Hf. induction s as [|c s IH]; [reflexivity|]. simpl. rewrite Hf, IH. reflexivity.
Qed.

Lemma all_bytes_substring (p : ascii -> bool) (s : string) (n m : nat) :
  GoURL.all_bytes p s = true -> GoURL.all_bytes p (substring n m s) = true.
Proof.
  revert n m. induction s as [|c s IH]; intros n m H.
  - destruct n, m; reflexivity.
  - simpl in H. apply andb_true_iff in H as [Hc Hs].
    destruct n as [|n]; simpl.
    + destruct m as [|m]; [reflexivity|]. simpl. rewrite Hc. apply IH. exact Hs.
    + apply IH. exact Hs.
Qed.

Lemma map_bytes_fixed (f : ascii -> ascii) (p : ascii -> bool) (s : string) :
  (forall c, p c = true -> f c = c) -> GoURL.all_bytes p s = true -> map_bytes f s = s.
Proof.
  intros Hf. induction s as [|c s IH]; [reflexivity|]. simpl. intros H.
  apply andb_true_iff in H as [Hc Hs]. rewrite (Hf c Hc), (IH Hs). reflexivity.
Qed.

Lemma substring_length_le (n m : nat) (s : string) :
  (String.length (substring n m s) <= m)%nat.
Proof.
  revert n m. induction s as [|c s IH]; intros n m.
  - destruct n, m; simpl; lia.
  - destruct n as [|n]; simpl.
    + destruct m as [|m]; simpl; [lia|]. specialize (IH O m). lia.
    + apply IH.
Qed.

Lemma get_map_bytes (f : ascii -> ascii) (s : string) (i : nat) :
  String.get i (map_bytes f s) = f <$> String.get i s.
Proof.
  revert i. induction s as [|c s IH]; intros i; [reflexivity|].
  destruct i as [|i]; [reflexivity|]. simpl. apply IH.
Qed.

Lemma get_beyond (s : string) (i : nat) :
  (String.length s <= i)%nat -> String.get i s = None.
Proof.
  revert i. induction s as [|c s IH]; intros i Hi; [reflexivity|].
  destruct i as [|i]; simpl in *; [lia|]. apply IH. lia.
Qed.

Lemma replace_is_safe (c : ascii) :
  negb (unsafe_byte (if unsafe_byte c then "_"%char else c)) = true.
Proof. destruct (unsafe_byte c) eqn:E; [reflexivity|]. rewrite E. reflexivity. Qed.

End UtilsFacts.

(** X12 (SafeFileName). SafeFileName puts an underscore in the place of
    every byte of its character class, leaves every other byte as it is and
    keeps the first 255 bytes. So the result never holds one of the nine
    bytes of the class, has at most 255 bytes and as many bytes as the input
    when that has at most 255; a name without such bytes and of at most 255
    bytes is returned as it is, and SafeFileName applied twice gives what it
    gives once. *)
Theorem SafeFileName_is_safe_and_short (filename : string) :
  let safe := Utils.SafeFileName filename in
  GoURL.all_bytes (fun c => negb (Utils.unsafe_byte c)) safe = true /\
  (String.length safe <= 255)%nat /\
  ((String.length filename <= 255)%nat -> String.length safe = String.length filename) /\
  Utils.SafeFileName safe = safe /\
  (forall i : nat,
     (i < 255)%nat ->
     String.get i safe =
     (fun c : ascii => if Utils.unsafe_byte c then "_"%char else c) <$>
       String.get i filename) /\
  (forall i : nat, (255 <= i)%nat -> String.get i safe = None) /\
  (GoURL.all_bytes (fun c => negb (Utils.unsafe_byte c)) filename = true ->
   (String.length filename <= 255)%nat ->
   safe = filename).
Proof.
  intros safe.
  set (f := fun c : ascii => if Utils.unsafe_byte c then "_"%char else c).
  set (ok := fun c : ascii => negb (Utils.unsafe_byte c)).
  assert (Hfix : forall s,
            GoURL.all_bytes ok s = true -> (String.length s <= 255)%nat ->
            Utils.SafeFileName s = s).
  { intros s Hs Hl. unfold Utils.SafeFileName. cbv zeta. fold f.
    rewrite (map_bytes_fixed f ok s); [|intros c Hc|exact Hs].
    - destruct (Nat.ltb_spec 255 (String.length s)); [lia|reflexivity].
    - unfold f, ok in *. apply negb_true_iff in Hc. rewrite Hc. reflexivity. }
  assert (Hmap : GoURL.all_bytes ok (GoStrings.map_bytes f filename) = true)
    by (apply all_bytes_map_bytes; intros c; apply replace_is_safe).
  assert (Hsafe : GoURL.all_bytes ok safe = true).
  { subst safe. unfold Utils.SafeFileName. cbv zeta. fold f.
    destruct (255 <? _)%nat; [apply all_bytes_substring|]; exact Hmap. }
  assert (Hlen : (String.length safe <= 255)%nat).
  { subst safe. unfold Utils.SafeFileName. cbv zeta. fold f.
    destruct (Nat.ltb_spec 255 (String.length (GoStrings.map_bytes f filename)));
      [apply substring_length_le|lia]. }
  split; [exact Hsafe|]. split; [exact Hlen|]. split; [|split; [|split; [|split]]].
  - intros Hshort. subst safe. unfold Utils.SafeFileName. cbv zeta. fold f.
    rewrite map_bytes_length.
    destruct (Nat.ltb_spec 255 (String.length filename)); [lia|].
    apply map_bytes_length.
  - apply Hfix; assumption.
  - intros i Hi. subst safe. unfold Utils.SafeFileName. cbv zeta. fold f.
    destruct (255 <? _)%nat.
    + rewrite substring_correct1 by exact Hi. rewrite Nat.add_0_r.
      apply get_map_bytes.
    + apply get_map_bytes.
  - intros i Hi. apply get_beyond. lia.
  - intros Hs Hl. apply Hfix; assumption.
Qed.

(** The cases of the repository's own test of [SafeFileName]. *)
Example SafeFileName_repo_tests :
  Utils.SafeFileName "normal.txt" = "normal.txt" /\
  Utils.SafeFileName "file:with:colons.txt" = "file_with_colons.txt" /\
  Utils.SafeFileName "file/with/slashes.txt" = "file_with_slashes.txt" /\
  Utils.SafeFileName "file\with\backslashes.txt" = "file_with_backslashes.txt" /\
  Utils.SafeFileName "file|with|pipes.txt" = "file_with_pipes.txt" /\
  Utils.SafeFileName "file?with?question.txt" = "file_with_question.txt" /\
  Utils.SafeFileName "file*with*asterisk.txt" = "file_with_asterisk.txt" /\
  Utils.SafeFileName "file<with>angles.txt" = "file_with_angles.txt".
Proof. repeat split; reflexivity. Qed.

(** ** Download: what happens before and besides the chunks *)

Section DownloadEdgeFacts.
Import GoStrings World Chunked.
Context {arch : GoArch} `{!Network} `{!Codecs} `{!GoUnicode}.

Lemma getFileInfo_run (url : string) (w : World.t) :
  getFileInfo url w =
  Done (match do_head (length (requests w)) url with
        | inl (RequestError msg) => Err ("创建HEAD请求失败: " +:+ msg)
        | inl (TransportError msg) => Err ("执行HEAD请求失败: " +:+ msg)
        | inr resp =>
            if negb (StatusCode resp =? 200)
            then Err ("HTTP错误: " +:+ pretty (StatusCode resp))
            else if ContentLength resp <=? 0 then Err "无法获取文件大小"
            else Ok resp
        end,
        World.mk (fs w) (requests w ++ [mkRequest "HEAD" url ""])).
Proof.
  unfold getFileInfo. run_bind. unfold Client.Head. run_bind. unfold exchange_head.
  unfold mret, Go_ret. cbv beta iota.
  destruct (do_head _ _) as [[msg|msg]|resp]; reflexivity.
Qed.

(** [downloadSingle] when it does not resume, up to the answer to its
    request. *)
Lemma downloadSingle_fresh_run (cfg : Config) (url outputPath : string) (w : World.t) :
  Continue cfg = false \/ fs w !! outputPath = None \/
    fs w !! outputPath = Some EmptyString ->
  let w1 := World.mk (fs w) (requests w ++ [mkRequest "GET" url ""]) in
  downloadSingle cfg url outputPath w =
  match do_get (length (requests w)) url "" with
  | inl (RequestError msg) => Done (Err ("下载失败: " +:+ "创建GET请求失败: " +:+ msg), w1)
  | inl (TransportError msg) => Done (Err ("下载失败: " +:+ "执行GET请求失败: " +:+ msg), w1)
  | inr resp =>
      if RespStatus resp =? 200 then
        let '(raw, readErr) := read_body (RespContentLength resp) (Body resp) in
        match decode_body (ContentEncoding resp) raw with
        | (Err e, _) => Done (Err e, World.mk (<[outputPath := ""]> (fs w)) (requests w1))
        | (Ok payload, isCompressed) =>
            let w2 := World.mk (<[outputPath := payload]> (fs w)) (requests w1) in
            match readErr with
            | Some e => Done (Err ("写入文件失败: " +:+ e), w2)
            | None =>
                if (RespContentLength resp >? 0) && negb isCompressed &&
                   negb (file_size payload =? RespContentLength resp)
                then Done (Err ("下载大小不匹配: 期望 " +:+ pretty (RespContentLength resp) +:+
                                ", 实际 " +:+ pretty (file_size payload)), w2)
                else Done (Ok tt, w2)
            end
        end
      else Done (Err ("HTTP错误: " +:+ pretty (RespStatus resp)), w1)
  end.
Proof.
  intros Hfresh w1. unfold downloadSingle.
  run_bind. unfold FileExists at 1. run_bind.
  unfold get_fs at 1. cbv beta iota. unfold mret at 1, Go_ret at 1. cbv beta iota.
  assert (Hsz :
    (if Continue cfg && bool_decide (is_Some (fs w !! outputPath))
     then GetFileSize outputPath else mret (Ok 0)) w = Done (Ok 0, w)).
  { destruct (Continue cfg) eqn:Ec; [|reflexivity]. cbn [andb].
    destruct Hfresh as [Hf|[Hf|Hf]]; [discriminate| |].
    - rewrite Hf. rewrite bool_decide_eq_false_2 by (intros [? ?]; discriminate).
      reflexivity.
    - rewrite Hf. rewrite bool_decide_eq_true_2 by (eexists; reflexivity).
      unfold GetFileSize. run_bind. unfold get_fs. cbv beta iota. rewrite Hf.
      reflexivity. }
  run_bind. rewrite Hsz. cbv beta iota zeta.
  change (0 >? 0) with false. cbv iota.
  run_bind. unfold Client.Get. run_bind.
  unfold exchange_get. cbv beta iota. fold w1.
  unfold mret at 1, Go_ret at 1. cbv beta iota.
  destruct (do_get (length (requests w)) url "") as [[msg|msg]|resp];
    [reflexivity|reflexivity|].
  change (negb (is_empty "")) with false. cbv iota.
  unfold Client.StatusOK.
  destruct (RespStatus resp =? 200); [|reflexivity].
  cbn [negb]. cbv beta iota. change (0 >? 0) with false. cbv iota.
  run_bind. unfold os_Create.
  unfold mbind at 2 3, mret at 1, Go_bind at 2 3, Go_ret at 1, get_fs, put_fs.
  cbv beta iota. cbn [fs w1].
  destruct (read_body _ _) as [raw readErr].
  destruct (decode_body _ _) as [[payload|e] c]; [|reflexivity].
  run_bind. unfold file_Write. run_bind.
  unfold get_fs at 1. cbv beta iota. cbn [file_path file_append fs].
  rewrite lookup_insert_eq.
  unfold mbind, mret, Go_bind, Go_ret, put_fs. cbv beta iota.
  rewrite insert_insert_eq, write_at_start.
  destruct readErr; [reflexivity|].
  destruct ((RespContentLength resp >? 0) && negb c &&
            negb (file_size payload =? RespContentLength resp)); reflexivity.
Qed.

End DownloadEdgeFacts.

(** X13 (Download, getFileInfo, Client.Head). Download needs a HEAD answer
    with status 200 and a positive Content-Length: when the HEAD request
    fails, is answered with another status or announces no length, Download
    fails with an error, sends no GET at all and leaves the file system as it
    was, also for files a single stream could have fetched. *)
Theorem Download_needs_a_content_length {arch : GoArch} `{!World.Network} `{!World.Codecs}
    `{!GoUnicode}
    (cfg : Chunked.Config) (url outputPath : string) (w : World.t) :
  match World.do_head (length (World.requests w)) url with
  | inr resp => World.StatusCode resp <> 200 \/ World.ContentLength resp <= 0
  | inl _ => True
  end ->
  exists msg,
    Chunked.Download cfg url outputPath w =
    Done (Err ("获取文件信息失败: " +:+ msg),
          World.mk (World.fs w) (World.requests w ++ [World.mkRequest "HEAD" url ""])).
Proof.
  intros Hhead. unfold Chunked.Download. rewrite bind_run, getFileInfo_run.
  destruct (World.do_head _ _) as [[msg|msg]|resp]; try (eexists; reflexivity).
  destruct (Z.eqb_spec (World.StatusCode resp) 200) as [E|Hne];
    [|eexists; reflexivity].
  destruct (Z.leb_spec (World.ContentLength resp) 0); [eexists; reflexivity|].
  destruct Hhead; [contradiction|lia].
Qed.

Lemma Download_needs_a_content_length_witness :
  exists msg,
    @Chunked.Download arch64 (Servers.plain_server "") Servers.no_codecs ascii_tables
        (Chunked.mkConfig "" "" false 0 1) "http://h/f" "out" Servers.empty_world =
    Done (Err ("获取文件信息失败: " +:+ msg),
          World.mk ∅ [World.mkRequest "HEAD" "http://h/f" ""]).
Proof.
  exact (@Download_needs_a_content_length arch64 (Servers.plain_server "")
           Servers.no_codecs ascii_tables (Chunked.mkConfig "" "" false 0 1)
           "http://h/f" "out" Servers.empty_world (or_intror (Z.le_refl 0))).
Defined.

(** X14 (downloadSingle without resume). When continue is off, or the output
    file is missing or empty, downloadSingle sends one GET without a Range
    header. A status other than 200 fails with an HTTP error before the
    output file is opened, so the file system stays as it was; status 200
    with a body that is read to its end and decodes replaces whatever the
    output file held by that body. *)
Theorem downloadSingle_without_resume `{!World.Network} `{!World.Codecs} `{!GoUnicode}
    (cfg : Chunked.Config) (url outputPath : string) (w : World.t) :
  Chunked.Continue cfg = false \/ World.fs w !! outputPath = None \/
    World.fs w !! outputPath = Some EmptyString ->
  let sent := World.requests w ++ [World.mkRequest "GET" url ""] in
  (exists r fs', Chunked.downloadSingle cfg url outputPath w = Done (r, World.mk fs' sent)) /\
  forall resp : World.Response,
    World.do_get (length (World.requests w)) url "" = inr resp ->
    (World.RespStatus resp <> 200 ->
     Chunked.downloadSingle cfg url outputPath w =
       Done (Err ("HTTP错误: " +:+ pretty (World.RespStatus resp)),
             World.mk (World.fs w) sent)) /\
    forall (raw payload : string) (isCompressed : bool),
      World.RespStatus resp = 200 ->
      World.read_body (World.RespContentLength resp) (World.Body resp) = (raw, None) ->
      Chunked.decode_body (World.ContentEncoding resp) raw = (Ok payload, isCompressed) ->
      Chunked.downloadSingle cfg url outputPath w =
        Done (Ok tt, World.mk (<[outputPath := payload]> (World.fs w)) sent).
Proof.
  intros Hfresh sent.
  pose proof (downloadSingle_fresh_run cfg url outputPath w Hfresh) as Hrun.
  cbv zeta in Hrun. fold sent in Hrun. split.
  - rewrite Hrun.
    destruct (World.do_get _ _ _) as [[msg|msg]|resp]; [eauto|eauto|].
    destruct (World.RespStatus resp =? 200); [|eauto].
    destruct (World.read_body _ _) as [raw readErr].
    destruct (Chunked.decode_body _ _) as [[payload|e] c]; [|eauto].
    destruct readErr; [eauto|].
    destruct ((World.RespContentLength resp >? 0) && negb c &&
              negb (World.file_size payload =? World.RespContentLength resp)); eauto.
  - intros resp Hresp. rewrite Hresp in Hrun. split.
    + intros Hne. rewrite Hrun.
      destruct (Z.eqb_spec (World.RespStatus resp) 200); [contradiction|reflexivity].
    + intros raw payload c H200 Hread Hdec.
      assert (Hsize : (World.RespContentLength resp >? 0) && negb c &&
                      negb (World.file_size payload =? World.RespContentLength resp) = false).
      { destruct (Z.gtb_spec (World.RespContentLength resp) 0) as [Hpos|]; [|reflexivity].
        destruct c; [reflexivity|].
        apply decode_body_plain in Hdec. subst payload.
        rewrite (read_body_length _ _ _ Hread) by lia.
        rewrite Z.eqb_refl. reflexivity. }
      rewrite H200, Hread, Hdec, Hsize in Hrun. exact Hrun.
Qed.

Lemma downloadSingle_without_resume_witness :
  let w := World.mk {[ "out" := "old content" ]} [] in
  @Chunked.downloadSingle (Servers.plain_server "0123456789") Servers.no_codecs
      ascii_tables (Chunked.mkConfig "" "" false 0 1) "http://h/f" "out" w =
    Done (Ok tt, World.mk (<[ "out" := "0123456789" ]> (World.fs w))
                   [World.mkRequest "GET" "http://h/f" ""]).
Proof.
  intros w.
  destruct (@downloadSingle_without_resume (Servers.plain_server "0123456789")
              Servers.no_codecs ascii_tables (Chunked.mkConfig "" "" false 0 1)
              "http://h/f" "out" w (or_introl eq_refl)) as [_ Hresp].
  destruct (Hresp (World.mkResponse 200 10 "" "0123456789") eq_refl) as [_ Hbody].
  exact (Hbody "0123456789" "0123456789" false eq_refl eq_refl eq_refl).
Defined.



Section TotalSizeFacts.
Import ChunkSizes.

Lemma seqZ_one (m : Z) : seqZ m 1 = [m].
Proof. unfold seqZ. simpl. reflexivity. Qed.

Lemma total_prefix (q : Z) (g : Z -> Chunk) (m : nat) :
  (forall i, 0 <= i < Z.of_nat m -> Size (g i) = q) ->
  0 <= q -> Z.of_nat m * q <= Int64.max_int ->
  calculateTotalSize (g <$> seqZ 0 (Z.of_nat m)) = Z.of_nat m * q.
Proof.
  unfold calculateTotalSize. induction m as [|m IH]; intros Hg Hq Hmax; [reflexivity|].
  replace (Z.of_nat (S m)) with (Z.of_nat m + 1) by lia.
  rewrite seqZ_app by lia. rewrite fmap_app, fold_left_app.
  rewrite IH; [|intros i Hi; apply Hg; lia|exact Hq|nia].
  rewrite seqZ_one. simpl. rewrite Hg by lia. unfold Int64.add.
  rewrite wrap_small; [lia|].
  unfold Int64.in_range, Int64.min_int, Int64.max_int in *. nia.
Qed.

End TotalSizeFacts.

(** X16 (calculateTotalSize on the plan of downloadWithChunks). On a build
    of either int width, for a content length that is a positive int64 and a
    thread count that is an int: the planning panics exactly when the number
    of chunks, as that build computes it, is not positive; in every other
    case the plan has that many chunks and their sizes add up, in int64
    arithmetic, to the content length, also where the number of chunks was
    cut to 32 bits. With a positive chunk size and at least one thread the
    planning does not panic where the ceiling of length by size fits an
    int. *)
Theorem calculateTotalSize_of_plan {arch : GoArch}
    (contentLength cfgChunkSize maxThreads : Z) :
  0 < contentLength <= Int64.max_int ->
  maxThreads <= Int.max_int ->
  match Plan.planChunks contentLength cfgChunkSize maxThreads with
  | Some chunks =>
      0 < Plan.numChunks contentLength cfgChunkSize maxThreads /\
      Z.of_nat (length chunks) = Plan.numChunks contentLength cfgChunkSize maxThreads /\
      ChunkSizes.calculateTotalSize chunks = contentLength
  | None => Plan.numChunks contentLength cfgChunkSize maxThreads <= 0
  end /\
  (0 < cfgChunkSize <= Int64.max_int -> 1 <= maxThreads ->
   Plan.ceil_div contentLength cfgChunkSize <= Int.max_int ->
   Plan.planChunks contentLength cfgChunkSize maxThreads <> None).
Proof.
  intros Hlen Hmt. split.
  - rewrite (planChunks_of_count _ _ _ Hlen Hmt). cbv zeta.
    set (n := Plan.numChunks contentLength cfgChunkSize maxThreads).
    destruct (Z.leb_spec n 0) as [|Hn]; [assumption|].
    split; [exact Hn|]. split.
    { unfold Plan.plan_over_Z. cbv zeta. rewrite length_fmap, length_seqZ. lia. }
    set (q := contentLength / n).
    assert (Hq : 0 <= q /\ q * n <= contentLength < q * n + n).
    { unfold q. pose proof (Z.div_mod contentLength n ltac:(lia)).
      pose proof (Z.mod_pos_bound contentLength n ltac:(lia)).
      split; [apply Z.div_pos; lia | nia]. }
    unfold Plan.plan_over_Z. cbv zeta. fold q.
    set (g := fun i : Z =>
                {| Index := i; Start := i * q;
                   End_ := if i =? n - 1 then contentLength - 1 else i * q + q - 1;
                   Size := if i =? n - 1 then contentLength - i * q else q;
                   Completed := 0; Status := TaskPending |}).
    replace n with (Z.of_nat (Z.to_nat (n - 1)) + 1) at 1 by lia.
    rewrite seqZ_app by lia. rewrite fmap_app.
    unfold ChunkSizes.calculateTotalSize. rewrite fold_left_app.
    fold (ChunkSizes.calculateTotalSize (g <$> seqZ 0 (Z.of_nat (Z.to_nat (n - 1))))).
    rewrite (total_prefix q g (Z.to_nat (n - 1))).
    + rewrite seqZ_one. simpl.
      replace (0 + Z.of_nat (Z.to_nat (n - 1))) with (n - 1) by lia.
      rewrite Z.eqb_refl. unfold Int64.add. rewrite Z2Nat.id by lia.
      replace ((n - 1) * q + (contentLength - (n - 1) * q))
        with contentLength by lia.
      apply wrap_small. unfold Int64.in_range, Int64.min_int, Int64.max_int in *. lia.
    + intros i Hi. unfold g. simpl. destruct (Z.eqb_spec i (n - 1)); [lia|reflexivity].
    + lia.
    + unfold Int64.max_int in *. nia.
  - intros Hcs Hmt1 Hfit.
    rewrite (planChunks_eq _ _ _ Hlen Hmt Hcs Hmt1 Hfit). discriminate.
Qed.

Lemma calculateTotalSize_of_plan_witness :
  exists chunks,
    @Plan.planChunks arch32 4294967301 1 10 = Some chunks /\
    length chunks = 5%nat /\
    ChunkSizes.calculateTotalSize chunks = 4294967301.
Proof.
  assert (Hlen : 0 < 4294967301 <= Int64.max_int) by (unfold Int64.max_int; lia).
  assert (Hmt : 10 <= @Int.max_int arch32) by (vm_compute; discriminate).
  destruct (proj1 (@calculateTotalSize_of_plan arch32 4294967301 1 10 Hlen Hmt))
    as (_ & _ & Hsum).
  eexists. split; [vm_compute; reflexivity|]. split; [reflexivity|exact Hsum].
Defined.

(** ** The files a chunked download changes *)

Section FrameFacts.
Import GoStrings World Chunked.
Context {arch : GoArch} `{!Network} `{!Codecs}.

Lemma only_touches_ret {A : Type} (files : list string) (a : A) :
  only_touches files (mret a).
Proof. intros w a' w' [= _ <-] p _. reflexivity. Qed.

Lemma only_touches_bind {A B : Type} (files : list string) (m : Go A) (f : A -> Go B) :
  only_touches files m -> (forall a, only_touches files (f a)) ->
  only_touches files (m ≫= f).
Proof.
  intros Hm Hf w b w' E p Hp. rewrite bind_run in E.
  destruct (m w) as [[a w1]| |] eqn:Em; try discriminate.
  rewrite (Hf a w1 b w' E p Hp). apply (Hm w a w1 Em p Hp).
Qed.

Lemma only_touches_mono {A : Type} (files files' : list string) (m : Go A) :
  files ⊆ files' -> only_touches files m -> only_touches files' m.
Proof.
  intros Hsub Hm w a w' E p Hp. apply (Hm w a w' E). intros Hin. apply Hp, Hsub, Hin.
Qed.

Lemma only_touches_get_fs (files : list string) : only_touches files get_fs.
Proof. intros w a w' [= _ <-] p _. reflexivity. Qed.

Lemma only_touches_FileExists (files : list string) (name : string) :
  only_touches files (FileExists name).
Proof. intros w a w' [= _ <-] p _. reflexivity. Qed.

Lemma only_touches_GetFileSize (files : list string) (name : string) :
  only_touches files (GetFileSize name).
Proof. intros w a w' [= _ <-] p _. reflexivity. Qed.

Lemma only_touches_os_ReadFile (files : list string) (name : string) :
  only_touches files (os_ReadFile name).
Proof. intros w a w' [= _ <-] p _. reflexivity. Qed.

Lemma only_touches_os_OpenFile_append (files : list string) (name : string) :
  only_touches files (os_OpenFile_append name).
Proof. intros w a w' [= _ <-] p _. reflexivity. Qed.

Lemma only_touches_os_Create (files : list string) (name : string) :
  name ∈ files -> only_touches files (os_Create name).
Proof.
  intros Hin w a w' [= _ <-] p Hp. simpl. apply lookup_insert_ne.
  intros ->. contradiction.
Qed.

Lemma only_touches_os_Remove (files : list string) (name : string) :
  name ∈ files -> only_touches files (os_Remove name).
Proof.
  intros Hin w a w' E p Hp. unfold os_Remove in E. rewrite bind_run in E.
  unfold get_fs in E. cbv beta iota in E.
  destruct (fs w !! name); [|injection E as _ <-; reflexivity].
  unfold mbind, mret, Go_bind, Go_ret, put_fs in E. cbv beta iota in E.
  injection E as _ <-. simpl. apply lookup_delete_ne. intros ->. contradiction.
Qed.

Lemma only_touches_deleteStateFile (files : list string) (outputPath : string) :
  outputPath +:+ ".wget2go.state" ∈ files ->
  only_touches files (deleteStateFile outputPath).
Proof.
  intros Hin w a w' E p Hp.
  destruct (deleteStateFile_run outputPath w) as [r Er]. rewrite Er in E.
  injection E as _ <-. simpl.
  destruct (decide (outputPath +:+ ".wget2go.state" = p)) as [<-|Hne];
    [contradiction|].
  apply lookup_delete_ne. exact Hne.
Qed.

Lemma only_touches_saveDownloadState (files : list string) (outputPath : string)
    (chunks : list Chunk) :
  outputPath +:+ ".wget2go.state" ∈ files ->
  only_touches files (saveDownloadState outputPath chunks).
Proof.
  intros Hin w a w' E p Hp. rewrite saveDownloadState_effect in E.
  injection E as _ <-. simpl. apply lookup_insert_ne. intros Heq.
  apply Hp. rewrite <- Heq. exact Hin.
Qed.

Lemma only_touches_DownloadRange (files : list string) (url : string) (s e : Z) :
  only_touches files (Client.DownloadRange url s e).
Proof.
  intros w a w' E p _. rewrite DownloadRange_run in E. injection E as _ <-. reflexivity.
Qed.

Lemma only_touches_file_WriteAt (files : list string) (f : File) (data : string) (off : Z) :
  file_append f = true \/ file_path f ∈ files ->
  only_touches files (file_WriteAt f data off).
Proof.
  intros Hf w a w' E p Hp. unfold file_WriteAt in E.
  destruct (file_append f) eqn:Ea; [injection E as _ <-; reflexivity|].
  destruct Hf as [Hf|Hf]; [discriminate|].
  destruct (off <? 0); [injection E as _ <-; reflexivity|].
  rewrite bind_run in E. unfold get_fs in E. cbv beta iota in E.
  destruct (fs w !! file_path f); [|injection E as _ <-; reflexivity].
  unfold mbind, mret, Go_bind, Go_ret, put_fs in E. cbv beta iota in E.
  injection E as _ <-. simpl. apply lookup_insert_ne. intros Heq.
  apply Hp. rewrite <- Heq. exact Hf.
Qed.

Lemma only_touches_loadDownloadState (files : list string) (outputPath : string)
    (chunks : list Chunk) :
  only_touches files (loadDownloadState outputPath chunks).
Proof.
  unfold loadDownloadState. cbv zeta.
  apply only_touches_bind; [apply only_touches_FileExists|]. intros ex.
  destruct (negb ex); [apply only_touches_ret|].
  apply only_touches_bind; [apply only_touches_os_ReadFile|]. intros r.
  apply only_touches_ret.
Qed.

Lemma only_touches_downloadChunk (files : list string) (url : string) (file : File)
    (chunk : Chunk) :
  file_append file = true \/ file_path file ∈ files ->
  only_touches files (downloadChunk url file chunk).
Proof.
  intros Hf. unfold downloadChunk.
  destruct (is_completed (Status chunk)); [apply only_touches_ret|]. cbv zeta.
  destruct (_ >? _); [apply only_touches_ret|].
  apply only_touches_bind; [apply only_touches_DownloadRange|]. intros [resp|e];
    [|apply only_touches_ret].
  destruct (negb _); [apply only_touches_ret|].
  destruct (read_body _ _) as [data readErr].
  apply only_touches_bind.
  - destruct (is_empty data); [apply only_touches_ret|].
    apply only_touches_file_WriteAt. exact Hf.
  - intros [[]|e]; [|apply only_touches_ret].
    destruct readErr; [apply only_touches_ret|].
    destruct (negb _); apply only_touches_ret.
Qed.

Lemma only_touches_run_tasks (files : list string) (url : string) (file : File)
    (outputPath : string) (todo : list Chunk) (i : nat) (chunks : list Chunk)
    (errors : list string) :
  file_append file = true \/ file_path file ∈ files ->
  outputPath +:+ ".wget2go.state" ∈ files ->
  only_touches files (run_tasks url file outputPath todo i chunks errors).
Proof.
  intros Hf Hs. revert i chunks errors.
  induction todo as [|c todo IH]; intros i chunks errors; simpl;
    [apply only_touches_ret|].
  destruct (chunks !! i) as [chunk|]; [|apply only_touches_ret].
  apply only_touches_bind; [apply only_touches_downloadChunk; exact Hf|].
  intros [chunk' [[]|e]]; [|apply IH].
  apply only_touches_bind; [apply only_touches_saveDownloadState; exact Hs|].
  intros _. apply IH.
Qed.

Lemma only_touches_downloadChunks (files : list string) (url : string) (file : File)
    (chunks : list Chunk) (outputPath : string) :
  file_append file = true \/ file_path file ∈ files ->
  outputPath +:+ ".wget2go.state" ∈ files ->
  only_touches files (downloadChunks url file chunks outputPath).
Proof.
  intros Hf Hs. unfold downloadChunks.
  apply only_touches_bind; [apply only_touches_run_tasks; assumption|].
  intros [chunks' errors].
  destruct (_ <? _)%nat; [intros w a w' E; discriminate|apply only_touches_ret].
Qed.

Lemma only_touches_open_temp (files : list string) (cfg : Config) (outputPath : string)
    (chunks : list Chunk) :
  outputPath +:+ ".tmp" ∈ files -> outputPath +:+ ".wget2go.state" ∈ files ->
  only_touches files (open_temp cfg (outputPath +:+ ".tmp") outputPath chunks).
Proof.
  intros Ht Hs. unfold open_temp.
  assert (Hfresh : only_touches files
    (deleteStateFile outputPath ≫= fun _ =>
       os_Create (outputPath +:+ ".tmp") ≫= fun f =>
         mret match f with
              | Err e => Err ("创建临时文件失败: " +:+ e)
              | Ok tempFile => Ok (tempFile, chunks)
              end)).
  { apply only_touches_bind; [apply only_touches_deleteStateFile; exact Hs|]. intros _.
    apply only_touches_bind; [apply only_touches_os_Create; exact Ht|]. intros f.
    apply only_touches_ret. }
  cbv zeta.
  apply only_touches_bind; [apply only_touches_FileExists|]. intros ex.
  destruct (Continue cfg && ex); [|exact Hfresh].
  apply only_touches_bind; [apply only_touches_loadDownloadState|].
  intros [[loaded cs]|e]; [|apply only_touches_ret].
  destruct loaded.
  - apply only_touches_bind; [apply only_touches_os_OpenFile_append|].
    intros [f|e]; [|apply only_touches_ret].
    apply only_touches_bind; [apply only_touches_GetFileSize|]. intros st.
    apply only_touches_ret.
  - apply only_touches_bind; [apply only_touches_os_Remove; exact Ht|]. intros _.
    exact Hfresh.
Qed.

(** The end of the chunked download either succeeds or changes nothing. *)
Lemma verify_and_publish_cases (tempFile : File) (outputPath : string)
    (contentLength : Z) (w : World.t) (r : result unit) (w' : World.t) :
  file_path tempFile = outputPath +:+ ".tmp" ->
  verify_and_publish tempFile (outputPath +:+ ".tmp") outputPath contentLength w =
    Done (r, w') ->
  (exists e, r = Err e /\ w' = w) \/
  (exists data,
     r = Ok tt /\ fs w !! (outputPath +:+ ".tmp") = Some data /\
     file_size data = contentLength /\
     w' = World.mk
            (<[outputPath := data]>
               (delete (outputPath +:+ ".tmp")
                  (delete (outputPath +:+ ".wget2go.state") (fs w))))
            (requests w)).
Proof.
  intros Hp E.
  destruct (fs w !! (outputPath +:+ ".tmp")) as [data|] eqn:Et.
  - destruct (verify_and_publish_run tempFile outputPath contentLength w data Hp Et)
      as [Hbad Hgood].
    destruct (Z.eq_dec (file_size data) contentLength) as [Hs|Hs].
    + rewrite (Hgood Hs) in E. injection E as <- <-. right. exists data. auto.
    + destruct (Hbad Hs) as (msg & Em & _). rewrite Em in E.
      injection E as <- <-. left. eauto.
  - destruct (verify_and_publish_missing tempFile outputPath contentLength w Hp Et)
      as [msg Em].
    rewrite Em in E. injection E as <- <-. left. eauto.
Qed.

(** [open_temp] when the temporary file and the state file are there and
    continue is on: nothing changes, and the file it returns is open in
    append mode. *)
Lemma open_temp_resume (cfg : Config) (outputPath : string) (chunks : list Chunk)
    (w : World.t) (o : result (File * list Chunk)) (w1 : World.t) :
  Continue cfg = true ->
  is_Some (fs w !! (outputPath +:+ ".tmp")) ->
  is_Some (fs w !! (outputPath +:+ ".wget2go.state")) ->
  open_temp cfg (outputPath +:+ ".tmp") outputPath chunks w = Done (o, w1) ->
  w1 = w /\
  match o with
  | Ok (f, _) => file_path f = outputPath +:+ ".tmp" /\ file_append f = true
  | Err _ => True
  end.
Proof.
  intros Hc [data Ht] [st Hs] E. unfold open_temp in E. cbv zeta in E.
  rewrite bind_run in E. unfold FileExists at 1 in E. rewrite bind_run in E.
  unfold get_fs at 1 in E. cbv beta iota in E.
  unfold mret at 1, Go_ret at 1 in E. cbv beta iota in E.
  rewrite Hc, Ht in E. rewrite bool_decide_eq_true_2 in E by (eexists; reflexivity).
  cbn [andb] in E. rewrite bind_run in E.
  assert (Hload : loadDownloadState outputPath chunks w =
                  Done (match json_Unmarshal st with
                        | Err e => Err e
                        | Ok states => Ok (true, restore_chunk states <$> chunks)
                        end, w)).
  { unfold loadDownloadState, createStateFileName. cbv zeta.
    rewrite bind_run. unfold FileExists. rewrite bind_run.
    unfold get_fs at 1. cbv beta iota. unfold mret at 1, Go_ret at 1. cbv beta iota.
    rewrite Hs. rewrite bool_decide_eq_true_2 by (eexists; reflexivity).
    cbn [negb]. cbv iota. rewrite bind_run. unfold os_ReadFile. rewrite bind_run.
    unfold get_fs. cbv beta iota. rewrite Hs. reflexivity. }
  rewrite Hload in E.
  destruct (json_Unmarshal st) as [states|e].
  - cbv beta iota in E. rewrite bind_run in E.
    unfold os_OpenFile_append in E. rewrite bind_run in E.
    unfold get_fs at 1 in E. cbv beta iota in E. rewrite Ht in E.
    unfold mret at 1, Go_ret at 1 in E. cbv beta iota in E.
    rewrite bind_run in E. unfold file_Stat_Size, GetFileSize in E.
    rewrite bind_run in E. unfold get_fs in E. cbv beta iota in E.
    cbn [file_path] in E. rewrite Ht in E.
    injection E as <- <-. repeat split.
  - injection E as <- <-. repeat split.
Qed.

(** The two stages of [downloadWithChunks]: up to [w2] only the temporary
    file and the state file change, and the temporary file not at all when
    the download resumes; then the download fails and stops there, or
    publishes the temporary file. *)
Lemma downloadWithChunks_stages (cfg : Config) (url outputPath : string)
    (fileInfo : HTTPResponse) (w : World.t) (r : result unit) (w' : World.t) :
  downloadWithChunks cfg url outputPath fileInfo w = Done (r, w') ->
  exists w2,
    (forall p, p ∉ [outputPath +:+ ".tmp"; outputPath +:+ ".wget2go.state"] ->
               fs w2 !! p = fs w !! p) /\
    (Continue cfg = true ->
     is_Some (fs w !! (outputPath +:+ ".tmp")) ->
     is_Some (fs w !! (outputPath +:+ ".wget2go.state")) ->
     fs w2 !! (outputPath +:+ ".tmp") = fs w !! (outputPath +:+ ".tmp")) /\
    ((exists e, r = Err e /\ w' = w2) \/
     (exists data,
        r = Ok tt /\ fs w2 !! (outputPath +:+ ".tmp") = Some data /\
        file_size data = ContentLength fileInfo /\
        w' = World.mk
               (<[outputPath := data]>
                  (delete (outputPath +:+ ".tmp")
                     (delete (outputPath +:+ ".wget2go.state") (fs w2))))
               (requests w2))).
Proof.
  set (tmp := outputPath +:+ ".tmp"). set (state := outputPath +:+ ".wget2go.state").
  assert (Htmp : tmp ∈ [tmp; state]) by apply list_elem_of_here.
  assert (Hstate : state ∈ [tmp; state])
    by apply list_elem_of_further, list_elem_of_here.
  assert (Hstate1 : state ∈ [state]) by apply list_elem_of_here.
  assert (Hnot : tmp ∉ [state]).
  { intros Hin. apply list_elem_of_singleton in Hin.
    apply (state_neq_tmp outputPath). symmetry. exact Hin. }
  unfold downloadWithChunks.
  destruct (Plan.planChunks _ _ _) as [chunks|]; [|discriminate].
  cbv zeta. fold tmp. rewrite bind_run.
  destruct (open_temp cfg tmp outputPath chunks w) as [[o w1]| |] eqn:Eo;
    try discriminate.
  pose proof (only_touches_open_temp [tmp; state] cfg outputPath chunks Htmp Hstate
                w o w1 Eo) as Hopen.
  pose proof (open_temp_resume cfg outputPath chunks w o w1) as Hres.
  destruct o as [[tempFile cs]|e].
  - pose proof (open_temp_path cfg outputPath chunks cs tempFile w w1 Eo) as Hpath.
    rewrite bind_run.
    destruct (downloadChunks url tempFile cs outputPath w1) as [[[cs' rc] w2]| |] eqn:Ec;
      try discriminate.
    pose proof (only_touches_downloadChunks [tmp; state] url tempFile cs outputPath
                  (or_intror (eq_ind_r (fun x => x ∈ [tmp; state]) Htmp Hpath)) Hstate
                  w1 _ w2 Ec) as Hchunks.
    assert (Hkeep : Continue cfg = true -> is_Some (fs w !! tmp) ->
                    is_Some (fs w !! state) -> fs w2 !! tmp = fs w !! tmp).
    { intros Hc Ht Hs. destruct (Hres Hc Ht Hs Eo) as [-> [_ Happ]].
      apply (only_touches_downloadChunks [state] url tempFile cs outputPath
               (or_introl Happ) Hstate1 w _ w2 Ec tmp Hnot). }
    assert (Hframe : forall p, p ∉ [tmp; state] -> fs w2 !! p = fs w !! p).
    { intros p Hp. rewrite (Hchunks p Hp). apply (Hopen p Hp). }
    destruct rc as [[]|e].
    + intros E. exists w2. split; [exact Hframe|]. split; [exact Hkeep|].
      apply (verify_and_publish_cases tempFile outputPath _ w2 r w' Hpath E).
    + intros [= <- <-]. exists w2. split; [exact Hframe|]. split; [exact Hkeep|].
      left. eauto.
  - intros [= <- <-]. exists w1. split; [exact Hopen|]. split.
    + intros Hc Ht Hs. destruct (Hres Hc Ht Hs Eo) as [-> _]. reflexivity.
    + left. eauto.
Qed.

End FrameFacts.

(** X17 (downloadWithChunks, downloadChunks, downloadChunk, saveDownloadState,
    deleteStateFile). A chunked download changes no file other than the
    output file, its temporary file and its state file; and when it fails, at
    whatever stage, the output file is as it was before, or still missing. *)
Theorem chunked_download_changes_three_files {arch : GoArch} `{!World.Network}
    `{!World.Codecs}
    (cfg : Chunked.Config) (url outputPath : string) (fileInfo : World.HTTPResponse)
    (w : World.t) (r : result unit) (w' : World.t) :
  Chunked.downloadWithChunks cfg url outputPath fileInfo w = Done (r, w') ->
  (forall p : string,
     p <> outputPath -> p <> outputPath +:+ ".tmp" ->
     p <> outputPath +:+ ".wget2go.state" ->
     World.fs w' !! p = World.fs w !! p) /\
  (forall e : string,
     r = Err e -> World.fs w' !! outputPath = World.fs w !! outputPath).
Proof.
  intros E.
  destruct (downloadWithChunks_stages cfg url outputPath fileInfo w r w' E)
    as (w2 & Hframe & _ & Hend).
  assert (Hout : World.fs w2 !! outputPath = World.fs w !! outputPath).
  { apply Hframe. intros Hin. apply elem_of_cons in Hin as [Hin|Hin].
    - apply (tmp_neq_output outputPath). symmetry. exact Hin.
    - apply list_elem_of_singleton in Hin.
      apply (state_neq_output outputPath). symmetry. exact Hin. }
  split.
  - intros p Hp1 Hp2 Hp3.
    assert (Hp : p ∉ [outputPath +:+ ".tmp"; outputPath +:+ ".wget2go.state"]).
    { intros Hin. apply elem_of_cons in Hin as [Hin|Hin]; [contradiction|].
      apply list_elem_of_singleton in Hin. contradiction. }
    destruct Hend as [(e & _ & ->)|(data & _ & _ & _ & ->)]; [apply Hframe, Hp|].
    simpl. rewrite lookup_insert_ne by congruence.
    rewrite !lookup_delete_ne by congruence. apply Hframe, Hp.
  - intros e ->. destruct Hend as [(e' & _ & ->)|(data & Hr & _)];
      [exact Hout|discriminate].
Qed.

Lemma chunked_download_changes_three_files_witness :
  match
    @Chunked.downloadWithChunks arch64 (Servers.plain_server "0123456789") Servers.no_codecs
      (Chunked.mkConfig "" "" false 3 4) "http://h/f" "out"
      (World.mkHTTPResponse 200 10 "" "" true)
      (World.mk {[ "out" := "old"; "other" := "mine" ]} [])
  with
  | Done (Err _, w') =>
      World.fs w' !! "other" = Some "mine" /\ World.fs w' !! "out" = Some "old"
  | _ => False
  end.
Proof.
  destruct (@Chunked.downloadWithChunks arch64 (Servers.plain_server "0123456789")
              Servers.no_codecs (Chunked.mkConfig "" "" false 3 4) "http://h/f" "out"
              (World.mkHTTPResponse 200 10 "" "" true)
              (World.mk {[ "out" := "old"; "other" := "mine" ]} []))
    as [[[[]|e] w']| |] eqn:E; try (vm_compute in E; discriminate).
  destruct (chunked_download_changes_three_files _ _ _ _ _ _ _ E) as [Hframe Hout].
  split.
  - rewrite (Hframe "other"); [reflexivity|discriminate|discriminate|discriminate].
  - rewrite (Hout e eq_refl). reflexivity.
Defined.

(** X18 (downloadWithChunks on resume, downloadChunk, writeAtWriter). When a
    chunked download resumes (continue is on, the temporary file and the
    state file exist), the temporary file is reopened in append mode, on
    which every positional write is refused: whatever the server sends, not
    one byte of the temporary file changes. The download can only succeed
    with the bytes that were there, published as the output file; otherwise
    it fails and the temporary file is as before. *)
Theorem resumed_chunked_download_writes_nothing {arch : GoArch} `{!World.Network}
    `{!World.Codecs}
    (cfg : Chunked.Config) (url outputPath : string) (fileInfo : World.HTTPResponse)
    (w : World.t) (data : string) (r : result unit) (w' : World.t) :
  Chunked.Continue cfg = true ->
  World.fs w !! (outputPath +:+ ".tmp") = Some data ->
  is_Some (World.fs w !! (outputPath +:+ ".wget2go.state")) ->
  Chunked.downloadWithChunks cfg url outputPath fileInfo w = Done (r, w') ->
  match r with
  | Ok _ =>
      World.fs w' !! outputPath = Some data /\
      World.file_size data = World.ContentLength fileInfo
  | Err _ => World.fs w' !! (outputPath +:+ ".tmp") = Some data
  end.
Proof.
  intros Hc Ht Hs E.
  destruct (downloadWithChunks_stages cfg url outputPath fileInfo w r w' E)
    as (w2 & _ & Hkeep & Hend).
  specialize (Hkeep Hc (ex_intro _ data Ht) Hs). rewrite Ht in Hkeep.
  destruct Hend as [(e & -> & ->)|(data' & -> & Ht2 & Hsize & ->)]; [exact Hkeep|].
  rewrite Hkeep in Ht2. injection Ht2 as <-. simpl.
  split; [apply lookup_insert_eq|exact Hsize].
Qed.

Lemma resumed_chunked_download_writes_nothing_witness :
  let codecs := World.Build_Codecs (fun _ => Ok []) (fun _ => Err "gzip: invalid header")
                  (fun _ => Err "zlib: invalid header") in
  match
    @Chunked.downloadWithChunks arch64 (Servers.range_server "0123456789") codecs
      (Chunked.mkConfig "" "" true 3 4) "http://h/f" "out"
      (World.mkHTTPResponse 200 10 "" "" true)
      (World.mk {[ "out.tmp" := "0123"; "out.wget2go.state" := "[]" ]} [])
  with
  | Done (Err _, w') => World.fs w' !! "out.tmp" = Some "0123"
  | _ => False
  end.
Proof.
  intros codecs.
  destruct (@Chunked.downloadWithChunks arch64 (Servers.range_server "0123456789") codecs
              (Chunked.mkConfig "" "" true 3 4) "http://h/f" "out"
              (World.mkHTTPResponse 200 10 "" "" true)
              (World.mk {[ "out.tmp" := "0123"; "out.wget2go.state" := "[]" ]} []))
    as [[[[]|e] w']| |] eqn:E; try (vm_compute in E; discriminate).
  exact (@resumed_chunked_download_writes_nothing arch64
           (Servers.range_server "0123456789") codecs
           (Chunked.mkConfig "" "" true 3 4) "http://h/f" "out"
           (World.mkHTTPResponse 200 10 "" "" true)
           (World.mk {[ "out.tmp" := "0123"; "out.wget2go.state" := "[]" ]} [])
           "0123" (Err e) w' eq_refl eq_refl (ex_intro _ "[]" eq_refl) E).
Defined.

(** ** The resume state, saved and loaded *)

Section StateRoundTrip.
Import GoStrings World Chunked.

Lemma state_for_unique (saved : list Chunk) (s : Chunk) :
  NoDup (Index <$> saved) -> s ∈ saved ->
  state_for (chunk_state <$> saved) (Index s) = Some (chunk_state s).
Proof.
  unfold state_for. induction saved as [|s0 saved IH]; intros Hnd Hin.
  - apply elem_of_nil in Hin. destruct Hin.
  - rewrite fmap_cons in Hnd. apply NoDup_cons in Hnd as [Hnotin Hnd].
    rewrite fmap_cons, filter_cons. cbn [state_Index chunk_state].
    apply elem_of_cons in Hin as [->|Hin].
    + rewrite decide_True by reflexivity.
      assert (Hnone : filter (fun st => state_Index st = Index s0)
                        (chunk_state <$> saved) = []).
      { clear IH Hnd. induction saved as [|x saved IHs]; [reflexivity|].
        rewrite fmap_cons, filter_cons. cbn [state_Index chunk_state].
        rewrite fmap_cons in Hnotin. apply not_elem_of_cons in Hnotin as [Hne Hnotin].
        rewrite decide_False by congruence. apply IHs. exact Hnotin. }
      rewrite Hnone. reflexivity.
    + assert (Hne : Index s0 <> Index s).
      { intros E. apply Hnotin. rewrite E. apply list_elem_of_fmap_2. exact Hin. }
      rewrite decide_False by exact Hne. apply IH; assumption.
Qed.

Lemma status_round_trip (s : TaskStatus) :
  match s with TaskOther _ => False | _ => True end ->
  status_of_int (status_to_int s) = s.
Proof. destruct s; simpl; intros H; [reflexivity..|destruct H]. Qed.

Lemma restore_saved (saved chunks : list Chunk) :
  NoDup (Index <$> saved) ->
  Forall (fun s => match Status s with TaskOther _ => False | _ => True end) saved ->
  Forall2 (fun c s => Index c = Index s /\ Start c = Start s /\ End_ c = End_ s /\
                      Size c = Size s) chunks saved ->
  restore_chunk (chunk_state <$> saved) <$> chunks = saved.
Proof.
  intros Hnd Hst Hall.
  assert (Hgen : forall cs ss,
    Forall2 (fun c s => Index c = Index s /\ Start c = Start s /\ End_ c = End_ s /\
                        Size c = Size s) cs ss ->
    Forall (fun s => s ∈ saved) ss ->
    restore_chunk (chunk_state <$> saved) <$> cs = ss).
  { intros cs ss H2. induction H2 as [|c s cs ss (Hi & Hs & He & Hz) _ IH]; intros Hin;
      [reflexivity|].
    apply Forall_cons in Hin as [Hs_in Hin]. rewrite fmap_cons. f_equal; [|apply IH, Hin].
    unfold restore_chunk. rewrite Hi, (state_for_unique saved s Hnd Hs_in).
    cbn [state_Start state_End state_Completed state_Status chunk_state].
    rewrite Hs, He, !Z.eqb_refl. cbn [andb].
    rewrite Forall_forall in Hst. rewrite (status_round_trip _ (Hst s Hs_in)).
    rewrite Hz. destruct s; reflexivity. }
  apply Hgen; [exact Hall|]. apply Forall_forall. auto.
Qed.

End StateRoundTrip.

(** X19 (saveDownloadState, loadDownloadState). What saveDownloadState
    writes, loadDownloadState reads back into a plan of the same chunks:
    when the JSON decoder returns the records that were encoded, the chunk
    indices are distinct and the statuses are task statuses, loading after
    saving reports a loaded state and gives every chunk of the fresh plan the
    completed byte count and the status that were saved. *)
Theorem saved_state_is_loaded_back `{!World.Codecs} (outputPath : string)
    (saved chunks : list Chunk) (w : World.t) :
  World.json_Unmarshal (Chunked.json_MarshalIndent (Chunked.chunk_state <$> saved)) =
    Ok (Chunked.chunk_state <$> saved) ->
  NoDup (Index <$> saved) ->
  Forall (fun s => match Status s with TaskOther _ => False | _ => True end) saved ->
  Forall2 (fun c s => Index c = Index s /\ Start c = Start s /\ End_ c = End_ s /\
                      Size c = Size s) chunks saved ->
  exists w1,
    Chunked.saveDownloadState outputPath saved w = Done (Ok tt, w1) /\
    Chunked.loadDownloadState outputPath chunks w1 = Done (Ok (true, saved), w1).
Proof.
  intros Hjson Hnd Hst Hall. eexists. split; [apply saveDownloadState_effect|].
  unfold Chunked.loadDownloadState. cbv zeta. rewrite bind_run.
  unfold World.FileExists. rewrite bind_run. unfold World.get_fs at 1. cbv beta iota.
  unfold mret at 1, World.Go_ret at 1. cbv beta iota. cbn [World.fs].
  rewrite lookup_insert_eq. rewrite bool_decide_eq_true_2 by (eexists; reflexivity).
  cbn [negb]. cbv iota. rewrite bind_run. unfold World.os_ReadFile. rewrite bind_run.
  unfold World.get_fs. cbv beta iota. cbn [World.fs]. rewrite lookup_insert_eq.
  unfold mret, World.Go_ret. cbv beta iota. rewrite Hjson.
  rewrite (restore_saved saved chunks Hnd Hst Hall). reflexivity.
Qed.

Lemma saved_state_is_loaded_back_witness :
  let saved := [mkChunk 0 0 4 5 5 TaskCompleted; mkChunk 1 5 9 5 2 TaskFailed] in
  let plan := [mkChunk 0 0 4 5 0 TaskPending; mkChunk 1 5 9 5 0 TaskPending] in
  let codecs := World.Build_Codecs
                  (fun data =>
                     if String.eqb data
                          (Chunked.json_MarshalIndent (Chunked.chunk_state <$> saved))
                     then Ok (Chunked.chunk_state <$> saved)
                     else Err "unexpected end of JSON input")
                  (fun _ => Err "gzip: invalid header")
                  (fun _ => Err "zlib: invalid header") in
  exists w1,
    Chunked.saveDownloadState "out" saved Servers.empty_world = Done (Ok tt, w1) /\
    @Chunked.loadDownloadState codecs "out" plan w1 = Done (Ok (true, saved), w1).
Proof.
  intros saved plan codecs.
  apply (@saved_state_is_loaded_back codecs "out" saved plan Servers.empty_world).
  - reflexivity.
  - apply (@bool_decide_unpack _ (NoDup_dec _)). vm_compute. reflexivity.
  - repeat constructor.
  - repeat constructor.
Defined.

(** ** File names taken from URLs *)

Section FileNameFacts.
Import GoStrings.

Lemma all_bytes_rev_app (p : ascii -> bool) (s acc : string) :
  GoURL.all_bytes p s = true -> GoURL.all_bytes p acc = true ->
  GoURL.all_bytes p (String.rev_app s acc) = true.
Proof.
  revert acc. induction s as [|c s IH]; intros acc Hs Hacc; [exact Hacc|].
  simpl in *. apply andb_true_iff in Hs as [Hc Hs]. apply IH; [exact Hs|].
  simpl. rewrite Hc, Hacc. reflexivity.
Qed.

Lemma Split_aux_last (sep : ascii) (s cur d : string) :
  GoURL.all_bytes (fun c => negb (Ascii.eqb c sep)) cur = true ->
  GoURL.all_bytes (fun c => negb (Ascii.eqb c sep)) (List.last (Split_aux s sep cur) d)
  = true.
Proof.
  revert cur. induction s as [|c s IH]; intros cur Hcur; simpl.
  - apply all_bytes_rev_app; [exact Hcur|reflexivity].
  - destruct (Ascii.eqb c sep) eqn:Ec.
    + specialize (IH EmptyString eq_refl).
      destruct (Split_aux s sep EmptyString) as [|x l] eqn:El; [|exact IH].
      destruct s; simpl in El; [discriminate|].
      destruct (Ascii.eqb _ sep); discriminate || idtac.
      exfalso. clear -El. revert El. generalize (String a EmptyString).
      induction s as [|b s IHs]; intros cur; simpl; [discriminate|].
      destruct (Ascii.eqb b sep); [discriminate|apply IHs].
    + apply IH. simpl. rewrite Ec, Hcur. reflexivity.
Qed.

Lemma rev_app_append (s acc t : string) :
  String.rev_app s acc +:+ t = String.rev_app s (acc +:+ t).
Proof.
  revert acc. induction s as [|c s IH]; intros acc; [reflexivity|].
  simpl. rewrite IH. reflexivity.
Qed.

Lemma Split_aux_nonempty (sep : ascii) (s cur : string) :
  exists x l, Split_aux s sep cur = l ++ [x].
Proof.
  revert cur. induction s as [|c s IH]; intros cur; simpl.
  - exists (String.rev cur), []. reflexivity.
  - destruct (Ascii.eqb c sep).
    + destruct (IH EmptyString) as (x & l & ->).
      exists x, (String.rev cur :: l). reflexivity.
    + apply IH.
Qed.

Lemma rev_cons_append (c : ascii) (cur s : string) :
  String.rev (String c cur) +:+ s = String.rev cur +:+ String c s.
Proof.
  unfold String.rev. simpl. rewrite !rev_app_append. reflexivity.
Qed.

(** The last piece is what stands behind the last separator. *)
Lemma Split_aux_last_spec (sep : ascii) (s cur d : string) :
  String.rev cur +:+ s = List.last (Split_aux s sep cur) d \/
  exists dir, String.rev cur +:+ s = dir +:+ String sep (List.last (Split_aux s sep cur) d).
Proof.
  revert cur. induction s as [|c s IH]; intros cur.
  - left. apply append_empty_r.
  - cbn [Split_aux]. destruct (Ascii.eqb_spec c sep) as [->|Hne].
    + destruct (Split_aux_nonempty sep s EmptyString) as (x & l & El).
      pose proof (IH EmptyString) as IH'. rewrite El in IH' |- *.
      rewrite app_comm_cons. rewrite last_last in IH' |- *.
      change (String.rev EmptyString +:+ s) with s in IH'.
      right. destruct IH' as [E|[dir E]].
      * exists (String.rev cur). rewrite E. reflexivity.
      * exists (String.rev cur +:+ String sep dir). rewrite E.
        rewrite append_assoc. reflexivity.
    + rewrite <- rev_cons_append. apply IH.
Qed.

End FileNameFacts.

(** X20 (Client.GetFileNameFromURL). Whatever url.Parse returns for the
    URL, an error or a URL with any path at all, a path decoded from percent
    escapes among them, the file name that GetFileNameFromURL goes on to
    take from it is never empty and never contains a slash: it is download
    after an error, the text after the last slash of the path, and
    index.html when that text is empty. *)
Theorem GetFileNameFromURL_is_a_file_name (parsed : option GoURL.URL) :
  let name := fileNameOfParsed parsed in
  GoStrings.is_empty name = false /\
  GoURL.all_bytes (fun c => negb (Ascii.eqb c "/")) name = true /\
  (parsed = None -> name = "download") /\
  (forall u : GoURL.URL,
     parsed = Some u ->
     exists piece : string,
       GoURL.all_bytes (fun c => negb (Ascii.eqb c "/")) piece = true /\
       (GoURL.Path u = piece \/ exists dir, GoURL.Path u = dir +:+ String "/" piece) /\
       name = if GoStrings.is_empty piece then "index.html" else piece) /\
  (forall urlStr : string,
     GoURL.Parse urlStr = Done parsed ->
     Client.GetFileNameFromURL urlStr = Done name).
Proof.
  intros name. subst name.
  assert (Hname : GoStrings.is_empty (fileNameOfParsed parsed) = false /\
                  GoURL.all_bytes (fun c => negb (Ascii.eqb c "/"))
                    (fileNameOfParsed parsed) = true).
  { destruct parsed as [u|]; [|split; reflexivity]. simpl.
    destruct (GoStrings.is_empty (GoURL.Path u) || String.eqb (GoURL.Path u) "/");
      [split; reflexivity|].
    destruct (GoStrings.is_empty
                (List.last (GoStrings.Split (GoURL.Path u) "/") EmptyString)) eqn:E;
      [split; reflexivity|].
    split; [exact E|]. apply Split_aux_last. reflexivity. }
  destruct Hname as [Hne Hslash].
  split; [exact Hne|]. split; [exact Hslash|]. split; [intros ->; reflexivity|]. split.
  - intros u ->. simpl.
    exists (List.last (GoStrings.Split (GoURL.Path u) "/") EmptyString).
    split; [apply Split_aux_last; reflexivity|]. split.
    + exact (Split_aux_last_spec "/" (GoURL.Path u) EmptyString EmptyString).
    + destruct (GoStrings.is_empty (GoURL.Path u) || String.eqb (GoURL.Path u) "/")
        eqn:Ep; [|reflexivity].
      apply orb_prop in Ep as [Ep|Ep].
      * destruct (GoURL.Path u); [reflexivity|discriminate].
      * apply String.eqb_eq in Ep. rewrite Ep. reflexivity.
  - intros urlStr Hp. clear Hne Hslash. unfold Client.GetFileNameFromURL. rewrite Hp.
    destruct parsed as [u|]; [|reflexivity].
    unfold outcome_bind, fileNameOfParsed. cbv zeta.
    destruct (GoStrings.is_empty (GoURL.Path u) || String.eqb (GoURL.Path u) "/");
      [reflexivity|].
    destruct (GoStrings.is_empty
                (List.last (GoStrings.Split (GoURL.Path u) "/") EmptyString));
      reflexivity.
Qed.

(** ** The robots parser across calls, and its matcher *)

Section RobotsMoreFacts.
Context {arch : GoArch} `{GoUnicode}.
Import GoStrings Robots.

Lemma extends_update (p0 : Parser) (st : parse_state) (i : nat)
    (f : RobotsRules -> RobotsRules) :
  parse_extends p0 st -> currentRule st = Some i ->
  parse_extends p0 (mkState (update_rule (st_parser st) i f) (currentRule st) (inRecord st)).
Proof.
  intros ([more Hr] & Hs & Hc) Hi. split; [|split; [exact Hs|exact Hc]].
  simpl. rewrite Hr. exists (alter f (i - length (rules p0))%nat more).
  apply alter_app_r_alt. apply Hc. exact Hi.
Qed.

Lemma extends_parse_line (p0 : Parser) (st : parse_state) (text : string) :
  parse_extends p0 st -> parse_extends p0 (parse_line st text).
Proof.
  intros Hext. unfold parse_line.
  destruct (is_empty (TrimSpace text) || HasPrefix (TrimSpace text) "#"); [exact Hext|].
  destruct (SplitN2 (TrimSpace text) ":") as [[k v]|]; [|exact Hext].
  cbv zeta.
  destruct (String.eqb (TrimSpace (ToLower k)) "user-agent").
  { destruct Hext as ([more Hr] & Hs & Hc). split; [|split; [exact Hs|]]; simpl.
    - rewrite Hr, <- app_assoc. eexists. reflexivity.
    - intros i [= <-]. rewrite Hr, length_app. lia. }
  destruct (String.eqb (TrimSpace (ToLower k)) "disallow").
  { destruct (inRecord st) eqn:Ei; [|exact Hext].
    destruct (currentRule st) as [i|] eqn:Ec; [|exact Hext].
    pose proof (fun f => extends_update p0 st i f Hext Ec) as Hu.
    rewrite Ec, Ei in Hu. apply Hu. }
  destruct (String.eqb (TrimSpace (ToLower k)) "allow").
  { destruct (inRecord st) eqn:Ei; [|exact Hext].
    destruct (currentRule st) as [i|] eqn:Ec; [|exact Hext].
    pose proof (fun f => extends_update p0 st i f Hext Ec) as Hu.
    rewrite Ec, Ei in Hu. apply Hu. }
  destruct (String.eqb (TrimSpace (ToLower k)) "crawl-delay").
  { destruct (inRecord st) eqn:Ei; [|exact Hext].
    destruct (currentRule st) as [i|] eqn:Ec; [|exact Hext].
    pose proof (fun f => extends_update p0 st i f Hext Ec) as Hu.
    rewrite Ec, Ei in Hu. apply Hu. }
  destruct (String.eqb (TrimSpace (ToLower k)) "sitemap"); [|exact Hext].
  destruct Hext as (Hr & [more Hs] & Hc). split; [exact Hr|]. split; [|exact Hc].
  simpl. rewrite Hs, <- app_assoc. eexists. reflexivity.
Qed.

Lemma extends_fold (p0 : Parser) (lines : list string) (st : parse_state) :
  parse_extends p0 st -> parse_extends p0 (fold_left parse_line lines st).
Proof.
  revert st. induction lines as [|l lines IH]; intros st Hext; [exact Hext|].
  simpl. apply IH, extends_parse_line, Hext.
Qed.

Lemma find_app_Some {A : Type} (f : A -> bool) (l1 l2 : list A) (a : A) :
  find f l1 = Some a -> find f (l1 ++ l2) = Some a.
Proof.
  induction l1 as [|x l1 IH]; [discriminate|]. simpl.
  destruct (f x); [intros E; exact E|exact IH].
Qed.

End RobotsMoreFacts.

(** X21 (robots Parser.Parse across calls, getRule). Parse only ever adds to
    a parser: after a call, the rules and the sitemaps that were there
    before are still there, unchanged and in front of what the call added.
    A user agent for which a rule of its own was found before the call
    therefore still gets that same rule afterwards, whatever the newly
    parsed text says about it. *)
Theorem Parse_only_appends {arch : GoArch} `{GoUnicode}
    (p : Robots.Parser) (data userAgent : string) :
  let p' := fst (Robots.Parse p data userAgent) in
  (exists more, Robots.rules p' = Robots.rules p ++ more) /\
  (exists more, Robots.sitemaps p' = Robots.sitemaps p ++ more) /\
  forall (agent : string) (rule : RobotsRules),
    find (fun rule => negb (String.eqb (UserAgent rule) "*") &&
                      GoStrings.Contains (GoStrings.ToLower agent) (UserAgent rule))
      (Robots.rules p) = Some rule ->
    Robots.getRule p agent = Some rule /\ Robots.getRule p' agent = Some rule.
Proof.
  intros p'.
  assert (Hext : parse_extends p
            (fold_left Robots.parse_line (GoStrings.scan_lines data)
               (Robots.mkState p None false))).
  { apply extends_fold. split; [exists []; simpl; rewrite app_nil_r; reflexivity|].
    split; [exists []; simpl; rewrite app_nil_r; reflexivity|]. discriminate. }
  destruct Hext as ([more Hr] & Hs & _).
  split; [exists more; exact Hr|]. split; [exact Hs|].
  intros agent rule Hfind. unfold Robots.getRule. split.
  - rewrite Hfind. reflexivity.
  - subst p'. unfold Robots.Parse. cbn [fst]. rewrite Hr.
    rewrite (find_app_Some _ _ more rule Hfind). reflexivity.
Qed.

Section MatchPathFacts.
Import GoStrings GoRegexp.

Lemma string_drop_cons (n : nat) (d : ascii) (s : string) :
  World.string_drop (S n) (String d s) = World.string_drop n s.
Proof. reflexivity. Qed.

Lemma match_items_prefix (p path : string) :
  match_items (lits p ++ [AnyStar]) path =
  HasPrefix path p && no_newline (World.string_drop (String.length p) path).
Proof.
  unfold HasPrefix. revert path. induction p as [|c p IH]; intros path.
  - simpl lits. simpl app. cbn [match_items]. rewrite star_end.
    unfold World.string_drop. rewrite Nat.sub_0_r, substring_whole.
    destruct path; reflexivity.
  - destruct path as [|d path]; [reflexivity|].
    simpl lits. simpl app. cbn [match_items]. rewrite IH.
    cbn [String.length]. rewrite string_drop_cons. cbn [String.prefix].
    destruct (Ascii.eqb_spec c d) as [->|Hne].
    + destruct (ascii_dec d d); [reflexivity|contradiction].
    + destruct (ascii_dec c d); [contradiction|reflexivity].
Qed.

Lemma match_items_exact (p path : string) :
  match_items (lits p) path = String.eqb path p.
Proof.
  revert path. induction p as [|c p IH]; intros path.
  - destruct path; reflexivity.
  - destruct path as [|d path]; [reflexivity|].
    simpl. rewrite IH. rewrite (Ascii.eqb_sym c d).
    destruct (Ascii.eqb d c); reflexivity.
Qed.

Lemma ReplaceAll_literal_dollar (p : string) :
  literal_pattern p = true -> ReplaceAll (p +:+ "$") "*" ".*" = p +:+ "$".
Proof.
  unfold literal_pattern. induction p as [|c p IH]; [reflexivity|].
  intros Hp. simpl in Hp. apply andb_true_iff in Hp as [Hc Hp].
  destruct (literal_byte_facts c Hc) as (Hs & _).
  change (String c p +:+ "$") with (String c (p +:+ "$")). simpl ReplaceAll.
  rewrite Hs, (IH Hp). reflexivity.
Qed.

Lemma HasSuffix_dollar (p : string) : HasSuffix (p +:+ "$") "$" = true.
Proof.
  induction p as [|c p IH]; [reflexivity|].
  change (String c p +:+ "$") with (String c (p +:+ "$")).
  cbn [HasSuffix]. rewrite IH. apply orb_true_r.
Qed.

Lemma parse_items_exact (p : string) :
  literal_pattern p = true -> parse_items (p +:+ "$$") = Some (lits p).
Proof.
  unfold literal_pattern. induction p as [|c p IH]; [reflexivity|].
  intros Hp. simpl in Hp. apply andb_true_iff in Hp as [Hc Hp].
  destruct (literal_byte_facts c Hc) as (_ & Hd & Hdot & Hm).
  change (String c p +:+ "$$") with (String c (p +:+ "$$")).
  simpl parse_items. rewrite Hd, Hdot, Hm, (IH Hp). reflexivity.
Qed.

Lemma has_any_lits_only (p : string) : has_any (lits p) = false.
Proof. unfold has_any. induction p as [|c p IH]; [reflexivity|exact IH]. Qed.

End MatchPathFacts.

(** X22 (robots Parser.matchPath). For a pattern of ASCII bytes without a
    meaning in regular expressions, matchPath holds of exactly the paths
    that start with the pattern and go on without a line feed; with a dollar
    sign behind the pattern it holds of the pattern itself and of no other
    path. *)
Theorem matchPath_of_a_literal_pattern (pattern path : string) :
  GoRegexp.literal_pattern pattern = true ->
  Robots.matchPath path pattern =
    Done (GoStrings.HasPrefix path pattern &&
          GoRegexp.no_newline (World.string_drop (String.length pattern) path)) /\
  Robots.matchPath path (pattern +:+ "$") = Done (String.eqb path pattern).
Proof.
  intros Hp. split.
  - unfold Robots.matchPath.
    rewrite ReplaceAll_literal, HasSuffix_literal by assumption.
    unfold GoRegexp.MustCompile_MatchString.
    change ("^" +:+ (pattern +:+ ".*") +:+ "$")
      with (String "^" ((pattern +:+ ".*") +:+ "$")).
    replace ((pattern +:+ ".*") +:+ "$") with (pattern +:+ ".*$")
      by (rewrite append_assoc; reflexivity).
    rewrite parse_items_literal by assumption.
    rewrite has_any_lits. cbn [andb]. rewrite match_items_prefix. reflexivity.
  - unfold Robots.matchPath.
    rewrite ReplaceAll_literal_dollar, HasSuffix_dollar by assumption.
    unfold GoRegexp.MustCompile_MatchString.
    change ("^" +:+ (pattern +:+ "$") +:+ "$")
      with (String "^" ((pattern +:+ "$") +:+ "$")).
    replace ((pattern +:+ "$") +:+ "$") with (pattern +:+ "$$")
      by (rewrite append_assoc; reflexivity).
    rewrite parse_items_exact by assumption.
    rewrite has_any_lits_only. cbn [andb]. rewrite match_items_exact. reflexivity.
Qed.

Lemma matchPath_of_a_literal_pattern_witness :
  Robots.matchPath "/x/a" "/x" = Done true /\
  Robots.matchPath "/y" "/x" = Done false /\
  Robots.matchPath "/x/a" "/x$" = Done false /\
  Robots.matchPath "/x" "/x$" = Done true.
Proof.
  pose proof (matchPath_of_a_literal_pattern "/x" "/x/a" eq_refl) as [H1 H2].
  pose proof (matchPath_of_a_literal_pattern "/x" "/y" eq_refl) as [H3 _].
  pose proof (matchPath_of_a_literal_pattern "/x" "/x" eq_refl) as [_ H4].
  repeat split; assumption.
Defined.

(** ** Candidates of a srcset attribute *)

Section SrcSetFacts.
Context `{!GoUnicode}.
Import GoStrings HTML.

Lemma blank_all_ascii (s : string) :
  GoURL.all_bytes is_ascii_space s = true -> all_ascii s = true.
Proof.
  induction s as [|c s IH]; simpl; [reflexivity|].
  intros [Hc Hs]%andb_prop. rewrite (IH Hs), andb_true_r.
  unfold is_ascii_space in Hc. unfold is_ascii_byte. apply N.ltb_lt.
  apply orb_prop in Hc as [[_ H2]%andb_prop|H3];
    [apply N.leb_le in H2|apply N.eqb_eq in H3]; lia.
Qed.

Lemma Fields_ascii_blank (s : string) :
  GoURL.all_bytes is_ascii_space s = true -> Fields_ascii s EmptyString = [].
Proof.
  induction s as [|c s IH]; simpl; [reflexivity|].
  intros [Hc Hs]%andb_prop. rewrite Hc. exact (IH Hs).
Qed.

Lemma Fields_blank (s : string) :
  GoURL.all_bytes is_ascii_space s = true -> Fields s = [].
Proof.
  intros Hs. unfold Fields. rewrite (blank_all_ascii s Hs).
  exact (Fields_ascii_blank s Hs).
Qed.

Lemma for_each_stops {A S : Type} (body : S -> A -> outcome S) (a : A) (l : list A) :
  a ∈ l -> (forall s, body s a = Panic) ->
  forall s r, for_each body l s <> Done r.
Proof.
  intros Hin Hbody. induction l as [|b l IH]; [inversion Hin|].
  intros s r. simpl.
  apply elem_of_cons in Hin as [<-|Hin].
  - rewrite Hbody. discriminate.
  - destruct (body s b) as [s'| |]; simpl; [apply (IH Hin)|discriminate|discriminate].
Qed.

Lemma Split_aux_trailing (s cur : string) (sep : ascii) :
  EmptyString ∈ Split_aux (s +:+ String sep EmptyString) sep cur.
Proof.
  revert cur. induction s as [|c s IH]; intros cur; simpl.
  - rewrite Ascii.eqb_refl. simpl. apply list_elem_of_further, list_elem_of_here.
  - destruct (Ascii.eqb c sep); [apply list_elem_of_further|]; apply IH.
Qed.

Lemma Split_aux_blank_first (blank tail cur : string) :
  GoURL.all_bytes is_ascii_space blank = true ->
  GoURL.all_bytes is_ascii_space cur = true ->
  exists piece rest,
    GoURL.all_bytes is_ascii_space piece = true /\
    Split_aux blank "," cur = [piece] /\
    Split_aux (blank +:+ "," +:+ tail) "," cur = piece :: rest.
Proof.
  revert cur. induction blank as [|c b IH]; intros cur Hb Hcur.
  - exists (String.rev cur), (Split_aux tail "," EmptyString).
    repeat split.
    apply all_bytes_rev_app; [exact Hcur|reflexivity].
  - simpl in Hb. apply andb_prop in Hb as [Hc Hb].
    assert (Hne : Ascii.eqb c "," = false).
    { apply Ascii.eqb_neq. intros ->. discriminate. }
    simpl. rewrite Hne. apply IH; [exact Hb|].
    simpl. rewrite Hc, Hcur. reflexivity.
Qed.

Lemma processSrcSet_blank (srcset baseURL part : string) (result : ParsedResult) :
  part ∈ Split srcset "," -> GoURL.all_bytes is_ascii_space part = true ->
  forall r, processSrcSet srcset baseURL result <> Done r.
Proof.
  intros Hin Hb. unfold processSrcSet.
  apply (for_each_stops _ part); [exact Hin|].
  intros s. rewrite (Fields_blank part Hb). reflexivity.
Qed.

End SrcSetFacts.

(** X23. [processSrcSet] indexes the fields of every comma-separated
    candidate without a length check: a candidate of white space only
    (an empty srcset, a leading, doubled or trailing comma) makes the call
    panic at once when it is the first one, and keeps it from ever returning
    when it comes later. An img element whose only attribute is an empty
    srcset makes [extractURLs] panic. *)
Theorem processSrcSet_panics_on_a_blank_candidate `{!GoUnicode}
    (baseURL : string) (result : HTML.ParsedResult) :
  (forall srcset part : string,
     part ∈ GoStrings.Split srcset "," ->
     GoURL.all_bytes GoStrings.is_ascii_space part = true ->
     forall r, HTML.processSrcSet srcset baseURL result <> Done r) /\
  (forall blank rest : string,
     GoURL.all_bytes GoStrings.is_ascii_space blank = true ->
     HTML.processSrcSet blank baseURL result = Panic /\
     HTML.processSrcSet (blank +:+ "," +:+ rest) baseURL result = Panic) /\
  (forall srcset r,
     HTML.processSrcSet (srcset +:+ ",") baseURL result <> Done r) /\
  HTML.extractURLs (HTML.mkNode "img" [HTML.mkAttr "srcset" ""] ) baseURL result = Panic.
Proof.
  split; [|split; [|split]].
  - intros srcset part Hin Hb. exact (processSrcSet_blank srcset baseURL part result Hin Hb).
  - intros blank rest Hb.
    destruct (Split_aux_blank_first blank rest EmptyString Hb eq_refl)
      as (piece & more & Hp & E1 & E2).
    unfold HTML.processSrcSet, GoStrings.Split. rewrite E1, E2.
    cbn [HTML.for_each]. rewrite (Fields_blank piece Hp). split; reflexivity.
  - intros srcset r. apply (processSrcSet_blank _ baseURL EmptyString result).
    + apply Split_aux_trailing.
    + reflexivity.
  - reflexivity.
Qed.

(** ** Statistics of the download manager *)

Section StatisticsFacts.
Import DownloadManager.

Lemma wrap_add_l (x y : Z) : Int64.wrap (Int64.wrap x + y) = Int64.wrap (x + y).
Proof.
  unfold Int64.wrap.
  replace ((x + 2 ^ 63) mod 2 ^ 64 - 2 ^ 63 + y + 2 ^ 63)
    with ((x + 2 ^ 63) mod 2 ^ 64 + y) by lia.
  rewrite Z.add_mod_idemp_l by lia. f_equal. f_equal. lia.
Qed.

Lemma int64_add_swap (x a b : Z) :
  Int64.add (Int64.add x a) b = Int64.add (Int64.add x b) a.
Proof.
  unfold Int64.add. rewrite !wrap_add_l. f_equal. lia.
Qed.

Lemma count_task_swap (s : Statistics) (a b : DownloadTask) :
  count_task (count_task s a) b = count_task (count_task s b) a.
Proof.
  unfold count_task.
  destruct (Status a), (Status b); cbn [TotalTasks NCompleted NDownloading NFailed
    NPaused NPending TotalSize Downloaded]; try reflexivity;
    f_equal; apply int64_add_swap.
Qed.

Lemma fold_count_permutation (l l' : list DownloadTask) (s : Statistics) :
  Permutation l l' -> fold_left count_task l s = fold_left count_task l' s.
Proof.
  intros Hp. revert s. induction Hp as [|x l l' _ IH|x y l|l l' l'' _ IH1 _ IH2];
    intros s; simpl.
  - reflexivity.
  - apply IH.
  - rewrite count_task_swap. reflexivity.
  - rewrite IH1. apply IH2.
Qed.

Lemma fold_count_counters (l : list DownloadTask) (s : Statistics) :
  TotalTasks (fold_left count_task l s) = TotalTasks s /\
  counted (fold_left count_task l s) =
    counted s + Z.of_nat (length (List.filter (fun task => known_status (Status task)) l)).
Proof.
  revert s. induction l as [|task l IH]; intros s; simpl; [split; [reflexivity|lia]|].
  destruct (IH (count_task s task)) as [Ht Hc]. rewrite Ht, Hc.
  unfold count_task, counted.
  destruct (Status task); cbn [TotalTasks NCompleted NDownloading NFailed NPaused
    NPending known_status length]; split; try reflexivity; lia.
Qed.

End StatisticsFacts.

(** X24. [GetStatistics] counts every task once, whatever the order in which
    the map of tasks is ranged over: the result is the same for every order,
    [TotalTasks] is the number of tasks, and the five counters add up to the
    number of tasks whose status is one of the five declared ones, so to
    [TotalTasks] when every task has such a status. *)
Theorem GetStatistics_counts_every_task_once
    (tasks : DownloadManager.t) (order : list DownloadManager.DownloadTask) :
  Permutation order (snd <$> map_to_list tasks) ->
  let stats := DownloadManager.GetStatistics_in order in
  stats = DownloadManager.GetStatistics tasks /\
  DownloadManager.TotalTasks stats = Z.of_nat (size tasks) /\
  counted stats =
    Z.of_nat (length (List.filter
      (fun task => DownloadManager.known_status (DownloadManager.Status task)) order)) /\
  (Forall (fun task => DownloadManager.known_status (DownloadManager.Status task) = true)
     order ->
   counted stats = DownloadManager.TotalTasks stats).
Proof.
  intros Hp stats.
  assert (Hlen : length order = size tasks).
  { rewrite (Permutation_length Hp), length_fmap. apply length_map_to_list. }
  destruct (fold_count_counters order
              (DownloadManager.mkStatistics (Z.of_nat (length order)) 0 0 0 0 0 0 0))
    as [Ht Hc].
  fold (DownloadManager.GetStatistics_in order) in Ht, Hc. fold stats in Ht, Hc.
  cbn [DownloadManager.TotalTasks] in Ht.
  change (counted (DownloadManager.mkStatistics (Z.of_nat (length order)) 0 0 0 0 0 0 0))
    with 0 in Hc.
  repeat split.
  - unfold stats, DownloadManager.GetStatistics, DownloadManager.GetStatistics_in.
    rewrite (Permutation_length Hp). apply fold_count_permutation. exact Hp.
  - rewrite Ht, Hlen. reflexivity.
  - rewrite Hc. lia.
  - intros Hall. rewrite Hc, Ht.
    enough (length (List.filter (fun task => DownloadManager.known_status
              (DownloadManager.Status task)) order) = length order) as -> by lia.
    clear -Hall. induction Hall as [|task l Hk _ IH]; [reflexivity|].
    simpl. rewrite Hk. simpl. f_equal. exact IH.
Qed.

Lemma GetStatistics_counts_every_task_once_witness :
  let tasks : DownloadManager.t :=
    <["http://a/x" := DownloadManager.mkDownloadTask "http://a/x" "x" 10 10 TaskCompleted None 1 2]>
    (<["http://a/y" := DownloadManager.mkDownloadTask "http://a/y" "y" 20 5 TaskDownloading None 1 0]>
    (<["http://a/z" := DownloadManager.mkDownloadTask "http://a/z" "z" 0 0 TaskPending None 1 0]> ∅)) in
  let stats := DownloadManager.GetStatistics_in (rev (snd <$> map_to_list tasks)) in
  stats = DownloadManager.GetStatistics tasks /\
  DownloadManager.TotalTasks stats = 3 /\
  DownloadManager.TotalSize stats = 30 /\
  DownloadManager.Downloaded stats = 15.
Proof.
  intros tasks stats.
  pose proof (GetStatistics_counts_every_task_once tasks
                (rev (snd <$> map_to_list tasks))
                (Permutation_sym (Permutation_rev _))) as [E _].
  split; [exact E|].
  vm_compute. repeat split; reflexivity.
Defined.
